(** * The Pathfinder MIL code generator (pathfinder/compiler/mil/milprint_summer.c)

    A shallow embedding of the translator from Pathfinder Core trees to MIL
    text: the scope annotator [append_lev], the recursive translator
    [translate2MIL] with its helpers, and the driver [PFprintMILtemp].

    Conventions of the embedding.
    - A C [int] is a [Z]; the counters of the translator only grow by one per
      tree node, so their arithmetic is written without wrap-around (signed
      overflow is undefined in C).
    - A [char *] that may be null is an [option string].
    - A [FILE *] is a value of [FILE]; the text written to each stream so far
      is kept in the [world], next to the heap of variable descriptors.
    - Every function of the C file that prints has the same name here and
      issues the same [fprintf] calls in the same order; the format strings
      are the C literals (the escape for a double quote is written in its
      octal form, backslash 042).
    - [PFoops] does not return: a translation that reaches it stops with
      [Oops]. Reading through a null pointer, a failed [assert] and reading a
      member of the [sem] union that was not stored stop with [Fault]. *)

From Stdlib Require Import ZArith List String Ascii Bool Lia DecimalString QArith.
From Stdlib Require Import Permutation Sorted.
Import ListNotations.
Local Open Scope Z_scope.

(** ** printf *)

Definition cat (ls : list string) : string := String.concat "" ls.

Definition is_octal (c : ascii) : bool :=
  let n := nat_of_ascii c in (48 <=? n)%nat && (n <=? 55)%nat.

Definition octal_value (a b c : ascii) : nat :=
  ((nat_of_ascii a - 48) * 64 + (nat_of_ascii b - 48) * 8 + (nat_of_ascii c - 48))%nat.

(** The value of a C string literal: backslash-n, backslash-backslash and
    three-digit octal escapes are the ones the file uses. *)
Fixpoint c_unescape (s : string) : string :=
  match s with
  | EmptyString => EmptyString
  | String c r =>
    if Ascii.eqb c "\"%char then
      match r with
      | EmptyString => String c EmptyString
      | String d r1 =>
        if Ascii.eqb d "n"%char then String "010"%char (c_unescape r1)
        else if Ascii.eqb d "\"%char then String "\"%char (c_unescape r1)
        else
          match r1 with
          | String d2 (String d3 r3) =>
            if is_octal d && is_octal d2 && is_octal d3
            then String (ascii_of_nat (octal_value d d2 d3)) (c_unescape r3)
            else String d (c_unescape r1)
          | _ => String d (c_unescape r1)
          end
      end
    else String c (c_unescape r)
  end.

Inductive printf_arg : Type :=
| I (n : Z)          (* an int *)
| S (s : string)     (* a char * *)
| G (d : Q).         (* a double *)

Definition two32 : Z := 4294967296.

Definition show_signed (n : Z) : string := NilZero.string_of_int (Z.to_int n).

(** An int printed with an unsigned conversion is read modulo 2^32. *)
Definition show_unsigned (n : Z) : string := show_signed (n mod two32).

Fixpoint zeros (k : nat) : string :=
  match k with O => EmptyString | Datatypes.S k' => String "0"%char (zeros k') end.

Definition pad_zero (width : nat) (s : string) : string :=
  (zeros (width - String.length s) ++ s)%string.

Section Printf.

(** printf's rendering of a double under the g conversion. *)
Variable fmt_g : Q -> string.

Definition conv_i (a : option printf_arg) : string :=
  match a with Some (I n) => show_signed n | _ => EmptyString end.

Definition conv_u (a : option printf_arg) : string :=
  match a with Some (I n) => show_unsigned n | _ => EmptyString end.

Definition conv_03u (a : option printf_arg) : string :=
  match a with Some (I n) => pad_zero 3 (show_unsigned n) | _ => EmptyString end.

Definition conv_s (a : option printf_arg) : string :=
  match a with Some (S s) => s | _ => EmptyString end.

Definition conv_g (a : option printf_arg) : string :=
  match a with Some (G d) => fmt_g d | _ => EmptyString end.

(** The conversions the file uses: i, u, 03u, s, g and the doubled percent
    sign. *)
Fixpoint format (fmt : string) (args : list printf_arg) : string :=
  match fmt with
  | EmptyString => EmptyString
  | String c r =>
    if Ascii.eqb c "%"%char then
      match r with
      | EmptyString => String c EmptyString
      | String d r1 =>
        if Ascii.eqb d "%"%char then String "%"%char (format r1 args)
        else if Ascii.eqb d "i"%char then (conv_i (hd_error args) ++ format r1 (tl args))%string
        else if Ascii.eqb d "u"%char then (conv_u (hd_error args) ++ format r1 (tl args))%string
        else if Ascii.eqb d "s"%char then (conv_s (hd_error args) ++ format r1 (tl args))%string
        else if Ascii.eqb d "g"%char then (conv_g (hd_error args) ++ format r1 (tl args))%string
        else
          match r1 with
          | String d2 (String d3 r3) =>
            if Ascii.eqb d "0"%char && Ascii.eqb d2 "3"%char && Ascii.eqb d3 "u"%char
            then (conv_03u (hd_error args) ++ format r3 (tl args))%string
            else String c (format r args)
          | _ => String c (format r args)
          end
      end
    else String c (format r args)
  end.

Definition sprintf (fmt : string) (args : list printf_arg) : string :=
  format (c_unescape fmt) args.

End Printf.

(** ** Core trees *)

(** The node kinds of the Core language ([PFctype_t]) that the file names. *)
Inductive PFctype_t : Type :=
| c_var | c_lit_str | c_lit_int | c_lit_dec | c_lit_dbl | c_nil
| c_seq | c_let | c_for | c_apply | c_arg
| c_typesw | c_cases | c_case | c_seqtype | c_seqcast
| c_ifthenelse | c_locsteps
| c_ancestor | c_ancestor_or_self | c_attribute | c_child
| c_descendant | c_descendant_or_self | c_following | c_following_sibling
| c_parent | c_preceding | c_preceding_sibling | c_self
| c_namet | c_kind_node | c_kind_comment | c_kind_text
| c_kind_pi | c_kind_doc | c_kind_elem | c_kind_attr
| c_true | c_false | c_error | c_root | c_empty | c_int_eq
| c_elem | c_attr | c_text | c_tag.

(** A namespace ([PFns_t]: prefix and URI) and a qualified name
    ([PFqname_t]). *)
Record PFns_t : Type := { ns_ns : option string; ns_uri : option string }.
Record PFqname_t : Type := { qn_ns : PFns_t; qn_loc : option string }.

Definition PFqname (ns : PFns_t) (loc : string) : PFqname_t :=
  {| qn_ns := ns; qn_loc := Some loc |}.

(** A function descriptor ([PFfun_t]); only its name is read. *)
Record PFfun_t : Type := { fun_qname : PFqname_t }.

(** A sequence type ([PFty_t]); the translator only prints it. *)
Inductive PFty_t : Type := PFty (name : string).

(** A variable descriptor ([PFvar_t]) lives on the heap and is shared by the
    binding node and every reference; nodes hold its address. *)
Definition var_ptr : Type := nat.

Record PFvar_t : Type := { base : Z; vid : Z; used : bool }.

(** The [sem] union of a node, tagged by the member that was stored. *)
Inductive sem_t : Type :=
| sem_none
| sem_var (v : var_ptr)
| sem_num (n : Z)
| sem_dec (d : Q)
| sem_dbl (d : Q)
| sem_str (s : string)
| sem_qname (q : PFqname_t)
| sem_fun (fn : PFfun_t)
| sem_type (t : PFty_t).

(** A node pointer ([PFcnode_t *]): null, or a node with its kind, its
    payload and its four child slots ([PFCNODE_MAXCHILD] is 4: a [for] node
    uses child 0 to child 3). *)
Inductive PFcnode_t : Type :=
| NULL
| Cnode (kind : PFctype_t) (sem : sem_t) (child0 child1 child2 child3 : PFcnode_t).

Definition is_c_empty (k : PFctype_t) : bool :=
  match k with c_empty => true | _ => false end.

Definition is_c_var (k : PFctype_t) : bool :=
  match k with c_var => true | _ => false end.

Definition is_c_tag (k : PFctype_t) : bool :=
  match k with c_tag => true | _ => false end.

(** ** The world the translator runs in *)

Inductive FILE : Type := stdout | stderr | stream (n : nat).

Definition FILE_eqb (a b : FILE) : bool :=
  match a, b with
  | stdout, stdout => true
  | stderr, stderr => true
  | stream n, stream m => Nat.eqb n m
  | _, _ => false
  end.

(** A call of [saveResult] or [deleteResult] with its slot number. *)
Inductive slot_event : Type := Save (counter : Z) | Delete (counter : Z).

(** Indices into the [counter] array of [append_lev]. *)
Definition FID : nat := 0.
Definition ACT_FID : nat := 1.
Definition VID : nat := 2.

(** - [files]: the text written to each stream;
    - [vars]: the heap of variable descriptors;
    - [way], [counter]: the two arrays that [PFprintMILtemp] allocates and
      hands to [append_lev] (the top of [way] is its last element);
    - [log]: the messages given to [PFlog];
    - [slots]: the calls of [saveResult] and [deleteResult] so far, in order
      (kept beside the text to state the slot discipline);
    - [var_usage]: the (vid, fid) pairs the emitted [var_usage.insert]
      statements put into the MIL table [var_usage], in order. *)
Record world : Type := {
  files : FILE -> string;
  vars : var_ptr -> PFvar_t;
  way : list Z;
  counter : nat -> Z;
  log : list string;
  slots : list slot_event;
  var_usage : list (Z * Z)
}.

Definition upd {A : Type} (m : nat -> A) (i : nat) (v : A) : nat -> A :=
  fun j => if Nat.eqb i j then v else m j.

Definition write (f : FILE) (s : string) (w : world) : world :=
  {| files := fun g => if FILE_eqb f g then (files w g ++ s)%string else files w g;
     vars := vars w; way := way w; counter := counter w; log := log w;
     slots := slots w; var_usage := var_usage w |}.

Definition set_var (p : var_ptr) (v : PFvar_t) (w : world) : world :=
  {| files := files w; vars := upd (vars w) p v; way := way w;
     counter := counter w; log := log w; slots := slots w;
     var_usage := var_usage w |}.

Definition set_way (l : list Z) (w : world) : world :=
  {| files := files w; vars := vars w; way := l; counter := counter w;
     log := log w; slots := slots w; var_usage := var_usage w |}.

Definition set_counter (i : nat) (v : Z) (w : world) : world :=
  {| files := files w; vars := vars w; way := way w;
     counter := upd (counter w) i v; log := log w; slots := slots w;
     var_usage := var_usage w |}.

Definition add_log (s : string) (w : world) : world :=
  {| files := files w; vars := vars w; way := way w; counter := counter w;
     log := log w ++ [s]; slots := slots w; var_usage := var_usage w |}.

Definition add_slot (e : slot_event) (w : world) : world :=
  {| files := files w; vars := vars w; way := way w; counter := counter w;
     log := log w; slots := slots w ++ [e]; var_usage := var_usage w |}.

Definition add_usage (p : Z * Z) (w : world) : world :=
  {| files := files w; vars := vars w; way := way w; counter := counter w;
     log := log w; slots := slots w; var_usage := var_usage w ++ [p] |}.

(** ** Results and the monad of the translator *)

Inductive PFrc_t : Type := OOPS_FATAL | OOPS_WARNING.

Inductive result (A : Type) : Type :=
| Ok (a : A)
| Oops (rc : PFrc_t) (msg : string)
| Fault.
Arguments Ok {A} a.
Arguments Oops {A} rc msg.
Arguments Fault {A}.

Definition M (A : Type) : Type := world -> result A * world.

Definition ret {A : Type} (a : A) : M A := fun w => (Ok a, w).

Definition bind {A B : Type} (m : M A) (k : A -> M B) : M B :=
  fun w =>
    match m w with
    | (Ok a, w') => k a w'
    | (Oops rc msg, w') => (Oops rc msg, w')
    | (Fault, w') => (Fault, w')
    end.

Notation "x <- m ;; k" := (bind m (fun x => k))
  (at level 61, m at next level, right associativity).
Notation "m ;; k" := (bind m (fun _ => k))
  (at level 61, right associativity).

Definition fault {A : Type} : M A := fun w => (Fault, w).

Definition PFoops {A : Type} (rc : PFrc_t) (msg : string) : M A :=
  fun w => (Oops rc msg, w).

Definition modify (g : world -> world) : M unit := fun w => (Ok tt, g w).

Definition get {A : Type} (g : world -> A) : M A := fun w => (Ok (g w), w).

Definition PFlog (msg : string) : M unit := modify (add_log msg).

(** [c->kind]. *)
Definition kind_of (c : PFcnode_t) : M PFctype_t :=
  match c with
  | NULL => fault
  | Cnode k _ _ _ _ _ => ret k
  end.

(** [c->sem.var], the descriptor a variable node points to. *)
Definition var_of (c : PFcnode_t) : M var_ptr :=
  match c with
  | Cnode _ (sem_var p) _ _ _ _ => ret p
  | _ => fault
  end.

(** [*c->sem.var]. *)
Definition deref_var (c : PFcnode_t) : M PFvar_t :=
  p <- var_of c ;; get (fun w => vars w p).

Definition num_of (s : sem_t) : M Z :=
  match s with sem_num n => ret n | _ => fault end.

Definition dec_of (s : sem_t) : M Q :=
  match s with sem_dec d => ret d | _ => fault end.

Definition dbl_of (s : sem_t) : M Q :=
  match s with sem_dbl d => ret d | _ => fault end.

Definition str_of (s : sem_t) : M string :=
  match s with sem_str x => ret x | _ => fault end.

Definition qname_of (s : sem_t) : M PFqname_t :=
  match s with sem_qname q => ret q | _ => fault end.

Definition fun_of (s : sem_t) : M PFfun_t :=
  match s with sem_fun fn => ret fn | _ => fault end.

(** [c->sem.type]. *)
Definition type_of (c : PFcnode_t) : M PFty_t :=
  match c with
  | Cnode _ (sem_type t) _ _ _ _ => ret t
  | _ => fault
  end.

(** A string handed to the s conversion must not be null. *)
Definition nonnull (s : option string) : M string :=
  match s with Some x => ret x | None => fault end.

(** ** The translator *)

(** What the file takes from other compilation units: printf's g
    conversion, the string escaping of [PFesc_string], the printed form of a
    type, the comparison of qualified names ([PFqname_eq] returns 0 on equal
    names, as the dispatch in [translateFunction] reads it) and the two
    predefined namespaces. *)
Record externals : Type := {
  fmt_g : Q -> string;
  PFesc_string : string -> string;
  PFty_str : PFty_t -> string;
  PFqname_eq : PFqname_t -> PFqname_t -> Z;
  PFns_fn : PFns_t;
  PFns_pf : PFns_t
}.

Section Translator.

Local Open Scope string_scope.

Variable E : externals.

Definition fprintf (f : FILE) (fmt : string) (args : list printf_arg) : M unit :=
  modify (write f (sprintf (fmt_g E) fmt args)).

Definition printf (fmt : string) (args : list printf_arg) : M unit :=
  fprintf stdout fmt args.

Definition init (f : FILE) : M unit :=
  fprintf f (cat ["# init ()\n";
       "# module(\042pathfinder\042);\n";
       "# module(\042pf_support\042);\n";
       "# module(\042aggrX3\042);\n";
       "# module(\042xtables\042);\n";
       "# module(\042malalgebra\042);\n";
       "var ws := create_ws();\n";
       "var loop000 := bat(void,oid).seqbase(0@0);\n";
       "loop000.insert(0@0, 1@0);\n";
       "var vu_fid;\n";
       "var vu_vid;\n";
       "var inner000 := loop000;\n";
       "var outer000 := loop000;\n";
       "var v_vid000 := bat(void,oid).access(BAT_APPEND).seqbase(0@0);\n";
       "var v_iter000 := bat(void,oid).access(BAT_APPEND).seqbase(0@0);\n";
       "var v_pos000 := bat(void,oid).access(BAT_APPEND).seqbase(0@0);\n";
       "var v_item000 := bat(void,oid).access(BAT_APPEND).seqbase(0@0);\n";
       "var v_kind000 := bat(void,int).access(BAT_APPEND).seqbase(0@0);\n";
       "var str_values := bat(void,str).seqbase(0@0).access(BAT_WRITE);\n";
       "str_values.reverse.key(true);\n";
       "var int_values := bat(void,int).seqbase(0@0).access(BAT_WRITE);\n";
       "int_values.reverse.key(true);\n";
       "var dbl_values := bat(void,dbl).seqbase(0@0).access(BAT_WRITE);\n";
       "dbl_values.reverse.key(true);\n";
       "var dec_values := bat(void,dbl).seqbase(0@0).access(BAT_WRITE);\n";
       "dec_values.reverse.key(true);\n";
       "str_values.insert(0@0,\042\042);\n";
       "const EMPTY_STRING := 0@0;\n";
       "var empty_bat := bat(void,oid).seqbase(0@0);\n";
       "var empty_kind_bat := bat(void,int).seqbase(0@0);\n";
       "var iter;\n";
       "var pos;\n";
       "var item;\n";
       "var kind;\n";
       "var empty_res_bat := bat(void,bat);\n";
       "var bool_map := bat(bit,oid).insert(false,0@0).insert(true,1@0);\n";
       "var bool_not := bat(oid,oid).insert(0@0,1@0).insert(1@0,0@0);\n"]) [].

Definition print_output (f : FILE) : M unit :=
  fprintf f (cat ["{ # print_output ()\n";
       "var output_item := bat(oid, str);\n";
       "var temp1_str := kind.get_type(STR);\n";
       "temp1_str := temp1_str.mirror.leftfetchjoin(item);\n";
       "temp1_str := temp1_str.leftfetchjoin(str_values);\n";
       "output_item.insert(temp1_str);\n";
       "temp1_str := nil;\n";
       "var temp1_node := kind.get_type(NODE).mark(0@0).reverse;\n";
       "var backup_oids := temp1_node.reverse;\n";
       "var temp1_frag := temp1_node.leftfetchjoin(kind).get_fragment;\n";
       "var oid_pre := temp1_node.leftfetchjoin(item);\n";
       "{\n";
       "var oid_kind := mposjoin(oid_pre, temp1_frag, ws.fetch(PRE_KIND));\n";
       "var oid_elems := oid_kind.ord_uselect(ELEMENT).mark(0@0).reverse;\n";
       "var oid_texts := oid_kind.ord_uselect(TEXT).mark(0@0).reverse;\n";
       "var e_pres := oid_elems.leftfetchjoin(oid_pre);\n";
       "var e_frags := oid_elems.leftfetchjoin(temp1_frag);\n";
       "var t_pres := oid_texts.leftfetchjoin(oid_pre);\n";
       "var t_frags := oid_texts.leftfetchjoin(temp1_frag);\n";
       "temp1_node := [str](e_pres);\n";
       "temp1_node := temp1_node.[+](\042 of frag: \042);\n";
       "temp1_node := temp1_node.[+](e_frags.[str]);\n";
       "temp1_node := temp1_node.[+](\042 (node) name: \042);\n";
       "temp1_node := temp1_node.[+](mposjoin(mposjoin(e_pres, e_frags, ws.fetch(PRE_PROP)), ";
       "mposjoin(e_pres, e_frags, ws.fetch(PRE_FRAG)), ";
       "ws.fetch(QN_LOC)));\n";
       "temp1_node := temp1_node.[+](\042; size: \042);\n";
       "temp1_node := temp1_node.[+](mposjoin(e_pres, e_frags, ws.fetch(PRE_SIZE)));\n";
       "temp1_node := temp1_node.[+](\042; level: \042);\n";
       "temp1_node := temp1_node.[+]([int](mposjoin(e_pres, e_frags, ws.fetch(PRE_LEVEL))));\n";
       "var temp2_node := [str](t_pres);\n";
       "temp2_node := temp2_node.[+](\042 of frag: \042);\n";
       "temp2_node := temp2_node.[+](t_frags.[str]);\n";
       "temp2_node := temp2_node.[+](\042 (text-node) value: '\042);\n";
       "temp2_node := temp2_node.[+](mposjoin(mposjoin(t_pres, t_frags, ws.fetch(PRE_PROP)), ";
       "mposjoin(t_pres, t_frags, ws.fetch(PRE_FRAG)), ";
       "ws.fetch(PROP_TEXT)));\n";
       "temp2_node := temp2_node.[+](\042'; level: \042);\n";
       "temp2_node := temp2_node.[+]([int](mposjoin(t_pres, t_frags, ws.fetch(PRE_LEVEL))));\n";
       "if (oid_elems.count = 0) temp1_node := temp2_node;\n";
       "else if (oid_texts.count != 0) ";
       "{\n";
       "var res_mu := merged_union(oid_elems, oid_texts, ";
       "temp1_node.reverse.mark(0@0).reverse, ";
       "temp2_node.reverse.mark(0@0).reverse);\n";
       "temp1_node := res_mu.fetch(1);\n";
       "}\n";
       "}\n";
       "oid_pre := nil;\n";
       "temp1_frag := nil;\n";
       "output_item.insert(backup_oids.leftfetchjoin(temp1_node));\n";
       "backup_oids := nil;\n";
       "temp1_node := nil;\n";
       "var temp1_attr := kind.get_type(ATTR).mark(0@0).reverse;\n";
       "backup_oids := temp1_attr.reverse;\n";
       "var temp1_frag := temp1_attr.leftfetchjoin(kind).get_fragment;\n";
       "var oid_attr := temp1_attr.leftfetchjoin(item);\n";
       "temp1_attr := [str](oid_attr);\n";
       "temp1_attr := temp1_attr.[+](\042 (attr) owned by: \042);\n";
       "var owner_str := oid_attr.mposjoin(temp1_frag, ws.fetch(ATTR_OWN)).[str];\n";
       "{\n";
       "var nil_bool := owner_str.[isnil];\n";
       "var no_owner_str := nil_bool.ord_uselect(true).mark(0@0).reverse;\n";
       "var with_owner_str := nil_bool.ord_uselect(false).mark(0@0).reverse;\n";
       "var res_mu := merged_union(with_owner_str, no_owner_str, ";
       "with_owner_str.leftfetchjoin(owner_str), ";
       "no_owner_str.project(\042nil\042));\n";
       "owner_str := res_mu.fetch(1);\n";
       "if (owner_str.count != temp1_attr.count) ";
       "ERROR (\042thinking error in attribute output printing\042);\n";
       "}\n";
       "temp1_attr := temp1_attr.[+](owner_str);\n";
       "temp1_attr := temp1_attr.[+](\042 of frag: \042);\n";
       "temp1_attr := temp1_attr.[+](oid_attr.mposjoin(temp1_frag, ws.fetch(ATTR_FRAG)));\n";
       "temp1_attr := temp1_attr.[+](\042; \042);\n";
       "temp1_attr := temp1_attr.[+](mposjoin(mposjoin(oid_attr, temp1_frag, ws.fetch(ATTR_QN)), ";
       "mposjoin(oid_attr, temp1_frag, ws.fetch(ATTR_FRAG)), ";
       "ws.fetch(QN_LOC)));\n";
       "temp1_attr := temp1_attr.[+](\042='\042);\n";
       "temp1_attr := temp1_attr.[+](mposjoin(mposjoin(oid_attr, temp1_frag, ws.fetch(ATTR_PROP)), ";
       "mposjoin(oid_attr, temp1_frag, ws.fetch(ATTR_FRAG)), ";
       "ws.fetch(PROP_VAL)));\n";
       "temp1_attr := temp1_attr.[+](\042'\042);\n";
       "oid_attr := nil;\n";
       "temp1_frag := nil;\n";
       "output_item.insert(backup_oids.leftfetchjoin(temp1_attr));\n";
       "backup_oids := nil;\n";
       "temp1_attr := nil;\n";
       "var temp1_qn := kind.get_type(QNAME).mirror;\n";
       "var oid_qnID := temp1_qn.leftfetchjoin(item);\n";
       "temp1_qn := [str](oid_qnID);\n";
       "temp1_qn := temp1_qn.[+](\042 (qname) '\042);\n";
       "temp1_qn := temp1_qn.[+](oid_qnID.leftfetchjoin(ws.fetch(QN_NS).fetch(WS)));\n";
       "temp1_qn := temp1_qn.[+](\042:\042);\n";
       "temp1_qn := temp1_qn.[+](oid_qnID.leftfetchjoin(ws.fetch(QN_LOC).fetch(WS)));\n";
       "temp1_qn := temp1_qn.[+](\042'\042);\n";
       "oid_qnID := nil;\n";
       "output_item.insert(temp1_qn);\n";
       "temp1_qn := nil;\n";
       "var bool_strings := bat(oid,str).insert(0@0,\042false\042).insert(1@0,\042true\042);\n";
       "var temp1_bool := kind.get_type(BOOL);\n";
       "temp1_bool := temp1_bool.mirror.leftfetchjoin(item);\n";
       "temp1_bool := temp1_bool.leftfetchjoin(bool_strings);\n";
       "bool_strings := nil;\n";
       "output_item.insert(temp1_bool);\n";
       "temp1_bool := nil;\n";
       "var temp1_int := kind.get_type(INT);\n";
       "temp1_int := temp1_int.mirror.leftfetchjoin(item);\n";
       "temp1_int := temp1_int.leftfetchjoin(int_values);\n";
       "temp1_int := [str](temp1_int);\n";
       "output_item.insert(temp1_int);\n";
       "temp1__int := nil;\n";
       "var temp1_dbl := kind.get_type(DBL);\n";
       "temp1_dbl := temp1_dbl.mirror.leftfetchjoin(item);\n";
       "temp1_dbl := temp1_dbl.leftfetchjoin(dbl_values);\n";
       "temp1_dbl := [str](temp1_dbl);\n";
       "output_item.insert(temp1_dbl);\n";
       "temp1_dbl := nil;\n";
       "var temp1_dec := kind.get_type(DEC);\n";
       "temp1_dec := temp1_dec.mirror.leftfetchjoin(item);\n";
       "temp1_dec := temp1_dec.leftfetchjoin(dec_values);\n";
       "temp1_dec := [str](temp1_dec);\n";
       "output_item.insert(temp1_dec);\n";
       "temp1_dec := nil;\n";
       "printf(\042====================\\n\042);\n";
       "printf(\042====== result ======\\n\042);\n";
       "printf(\042====================\\n\042);\n";
       "print (iter, pos, output_item);\n";
       "output_item := nil;\n";
       "printf(\042====================\\n\042);\n";
       "printf(\042=== working set ====\\n\042);\n";
       "printf(\042====================\\n\042);\n";
       "if (ws.fetch(PRE_SIZE).count < 5) {\n";
       "printf(\042- loaded documents -\\n\042);\n";
       "ws.fetch(DOC_LOADED).print;\n";
       "i := 0;\n";
       "while (i < ws.fetch(PRE_SIZE).count) {\n";
       "        if (i = 0) print(\042WS\042);\n";
       "        else ws.fetch(DOC_LOADED).fetch(oid(i)).print;\n";
       "        printf(\042---- attributes ----\\n\042);\n";
       "        if (ws.fetch(ATTR_OWN).fetch(i).count < 100) {\n";
       "                print(ws.fetch(ATTR_OWN).fetch(i), ";
       "mposjoin(ws.fetch(ATTR_QN).fetch(i), ";
       "ws.fetch(ATTR_FRAG).fetch(i), ";
       "ws.fetch(QN_LOC)));\n";
       "        } else {\n";
       "                print(ws.fetch(ATTR_OWN).fetch(i).count);\n";
       "        }\n";
       "        printf(\042----- elements -----\\n\042);\n";
       "        if (ws.fetch(PRE_SIZE).fetch(i).count < 100) {\n";
       "                ws.fetch(PRE_KIND).fetch(i).access(BAT_READ);\n";
       "                var elems := ws.fetch(PRE_KIND).fetch(i).ord_uselect(ELEMENT).mark(0@0).reverse;\n";
       "                var e_props := elems.leftfetchjoin(ws.fetch(PRE_PROP).fetch(i));\n";
       "                var e_frags := elems.leftfetchjoin(ws.fetch(PRE_FRAG).fetch(i));\n";
       "                var e_qns := mposjoin(e_props, e_frags, ws.fetch(QN_LOC));\n";
       "                e_props := nil;\n";
       "                e_frags := nil;\n";
       "                var texts := ws.fetch(PRE_KIND).fetch(i).ord_uselect(TEXT).mark(0@0).reverse;\n";
       "                t_names := texts.project(\042(TEXT)\042);\n";
       "                var res_mu := merged_union(elems, texts, e_qns, t_names);\n";
       "                elems := nil;\n";
       "                texts := nil;\n";
       "                ws.fetch(PRE_KIND).fetch(i).access(BAT_WRITE);\n";
       "                e_qns := nil;\n";
       "                t_names := nil;\n";
       "                var names := res_mu.fetch(0).reverse.leftfetchjoin(res_mu.fetch(1));\n";
       "                print(ws.fetch(PRE_SIZE).fetch(i), ";
       "ws.fetch(PRE_LEVEL).fetch(i).[int], ";
       "names);\n";
       "        } else {\n";
       "                print(ws.fetch(PRE_SIZE).fetch(i).count);\n";
       "        }\n";
       "i :+= 1;\n";
       "}\n";
       "} else {\n";
       "printf(\042to much content in the WS to print it for debugging purposes\\n\042);\n";
       "if (ws.fetch(DOC_LOADED).count > 25) \n";
       "printf(\042(number of loaded documents: %%i)\\n\042, ws.fetch(DOC_LOADED).count);\n";
       "else {\n";
       "printf(\042- loaded documents -\\n\042);\n";
       "ws.fetch(DOC_LOADED).print;\n";
       "}\n";
       "}\n";
       "} # end of print_output ()\n"]) [].

Definition translateEmpty (f : FILE) : M unit :=
  fprintf f (cat ["# translateEmpty ()\n";
       "iter := empty_bat;\n";
       "pos := empty_bat;\n";
       "item := empty_bat;\n";
       "kind := empty_kind_bat;\n"]) [].

Definition cleanUpLevel (f : FILE) (act_level : Z) : M unit :=
  fprintf f "# cleanUpLevel ()\n" [] ;;
  fprintf f "inner%03u := nil;\n" [I act_level] ;;
  fprintf f "outer%03u := nil;\n" [I act_level] ;;
  fprintf f "loop%03u := nil;\n" [I act_level] ;;
  fprintf f "v_vid%03u := nil;\n" [I act_level] ;;
  fprintf f "v_iter%03u := nil;\n" [I act_level] ;;
  fprintf f "v_pos%03u := nil;\n" [I act_level] ;;
  fprintf f "v_item%03u := nil;\n" [I act_level] ;;
  fprintf f "v_kind%03u := nil;\n" [I act_level].

Definition translateVar (f : FILE) (act_level : Z) (c : PFcnode_t) : M unit :=
  fprintf f "{ # translateVar (c)\n" [] ;;
  v <- deref_var c ;;
  fprintf f "var vid := v_vid%03u.ord_uselect(%i@0);\n" [I act_level; I (vid v)] ;;
  fprintf f "vid := vid.mark(0@0).reverse;\n" [] ;;
  fprintf f "iter := vid.leftfetchjoin(v_iter%03u);\n" [I act_level] ;;
  fprintf f "pos := vid.leftfetchjoin(v_pos%03u);\n" [I act_level] ;;
  fprintf f "item := vid.leftfetchjoin(v_item%03u);\n" [I act_level] ;;
  fprintf f "kind := vid.leftfetchjoin(v_kind%03u);\n" [I act_level] ;;
  fprintf f "vid := nil;\n" [] ;;
  fprintf f "} # end of translateVar (c)\n" [].

Definition saveResult (f : FILE) (counter : Z) : M unit :=
  modify (add_slot (Save counter)) ;;
  fprintf f "{ # saveResult%i () : int\n" [I counter] ;;
  fprintf f "iter%03u := iter;\n" [I counter] ;;
  fprintf f "pos%03u := pos;\n" [I counter] ;;
  fprintf f "item%03u := item;\n" [I counter] ;;
  fprintf f "kind%03u := kind;\n" [I counter] ;;
  fprintf f (cat ["iter := nil;\n";
       "pos := nil;\n";
       "item := nil;\n";
       "kind := nil;\n";
       "# end of saveResult%i () : int\n"]) [I counter].

Definition deleteResult (f : FILE) (counter : Z) : M unit :=
  modify (add_slot (Delete counter)) ;;
  fprintf f "# deleteResult%i ()\n" [I counter] ;;
  fprintf f "iter%03u := nil;\n" [I counter] ;;
  fprintf f "pos%03u := nil;\n" [I counter] ;;
  fprintf f "item%03u := nil;\n" [I counter] ;;
  fprintf f "kind%03u := nil;\n" [I counter] ;;
  fprintf f "} # end of deleteResult%i ()\n" [I counter].

Definition translateSeq (f : FILE) (i : Z) : M unit :=
  fprintf f (cat ["if (iter.count = 0) {\n";
       "        iter := iter%03u;\n";
       "        pos := pos%03u;\n";
       "        item := item%03u;\n";
       "        kind := kind%03u;\n"]) [I i; I i; I i; I i] ;;
  fprintf f "} else if (iter%03u.count != 0)\n" [I i] ;;
  fprintf f (cat ["{ # translateSeq (counter)\n";
       "iter%03u.chk_order(false);\n";
       "iter.chk_order(false);\n";
       "var merged_result := merged_union ";
       "(iter%03u, iter, item%03u, item, kind%03u, kind);\n"]) [I i; I i; I i; I i] ;;
  fprintf f (cat ["iter := merged_result.fetch(0);\n";
       "item := merged_result.fetch(1);\n";
       "kind := merged_result.fetch(2);\n";
       "merged_result := nil;\n";
       "pos := iter.mark_grp(iter.reverse.project(1@0));\n";
       "} # end of translateSeq (counter)\n"]) [].

Definition project (f : FILE) (act_level : Z) : M unit :=
  fprintf f "# project ()\n" [] ;;
  fprintf f "var outer%03u := iter;\n" [I act_level] ;;
  fprintf f "iter := iter.mark(1@0);\n" [] ;;
  fprintf f "var inner%03u := iter;\n" [I act_level] ;;
  fprintf f "pos := iter.project(1@0);\n" [] ;;
  fprintf f "var loop%03u := inner%03u;\n" [I act_level; I act_level] ;;
  fprintf f "var v_vid%03u;\n" [I act_level] ;;
  fprintf f "var v_iter%03u;\n" [I act_level] ;;
  fprintf f "var v_pos%03u;\n" [I act_level] ;;
  fprintf f "var v_item%03u;\n" [I act_level] ;;
  fprintf f "var v_kind%03u;\n" [I act_level].

Definition getExpanded (f : FILE) (act_level fid : Z) : M unit :=
  fprintf f (cat ["{ # getExpanded (fid)\n";
       "var vu_nil := vu_fid.ord_uselect(%i@0);\n"]) [I fid] ;;
  fprintf f (cat ["var vid_vu := vu_vid.reverse;\n";
       "var oid_nil := vid_vu.leftjoin(vu_nil);\n";
       "vid_vu := nil;\n";
       "expOid := v_vid%03u.leftjoin(oid_nil);\n"]) [I (act_level - 1)] ;;
  fprintf f (cat ["oid_nil := nil;\n";
       "expOid := expOid.mirror;\n";
       "} # end of getExpanded (fid)\n"]) [].

Definition expand (f : FILE) (act_level : Z) : M unit :=
  fprintf f (cat ["{ # expand ()\n";
       "var expOid_iter := expOid.leftfetchjoin(v_iter%03u);\n"]) [I (act_level - 1)] ;;
  fprintf f (cat ["var iter_expOid := expOid_iter.reverse;\n";
       "expOid_iter := nil;\n";
       "var oidMap_expOid := outer%03u.leftjoin(iter_expOid);\n"]) [I act_level] ;;
  fprintf f (cat ["iter_expOid := nil;\n";
       "var expOid_oidMap := oidMap_expOid.reverse;\n";
       "oidMap_expOid := nil;\n";
       "expOid_iter := expOid_oidMap.leftfetchjoin(inner%03u);\n"]) [I act_level] ;;
  fprintf f (cat ["expOid_oidMap := nil;\n";
       "v_iter%03u := expOid_iter;\n"]) [I act_level] ;;
  fprintf f (cat ["oidNew_expOid := expOid_iter.mark(0@0).reverse;\n";
       "expOid_iter := nil;\n";
       "} # end of expand ()\n"]) [].

Definition join (f : FILE) (act_level : Z) : M unit :=
  fprintf f "# join ()\n" [] ;;
  fprintf f "v_iter%03u := v_iter%03u.reverse.mark(0@0).reverse;\n" [I act_level; I act_level] ;;
  fprintf f "var new_v_iter := v_iter%03u;\n" [I act_level] ;;
  fprintf f "v_iter%03u := bat(void,oid,count(new_v_iter)*2);\n" [I act_level] ;;
  fprintf f "v_iter%03u.seqbase(0@0);\n" [I act_level] ;;
  fprintf f "v_iter%03u.access(BAT_APPEND);\n" [I act_level] ;;
  fprintf f "v_iter%03u.insert(new_v_iter);\n" [I act_level] ;;
  fprintf f "new_v_iter := nil;\n" [] ;;
  fprintf f "var new_v_vid := oidNew_expOid.leftjoin(v_vid%03u);\n" [I (act_level - 1)] ;;
  fprintf f "v_vid%03u := bat(void,oid,count(new_v_vid)*2);\n" [I act_level] ;;
  fprintf f "v_vid%03u.seqbase(0@0);\n" [I act_level] ;;
  fprintf f "v_vid%03u.access(BAT_APPEND);\n" [I act_level] ;;
  fprintf f "v_vid%03u.insert(new_v_vid);\n" [I act_level] ;;
  fprintf f "new_v_vid := nil;\n" [] ;;
  fprintf f "var new_v_pos := oidNew_expOid.leftjoin(v_pos%03u);\n" [I (act_level - 1)] ;;
  fprintf f "v_pos%03u := bat(void,oid,count(new_v_pos)*2);\n" [I act_level] ;;
  fprintf f "v_pos%03u.seqbase(0@0);\n" [I act_level] ;;
  fprintf f "v_pos%03u.access(BAT_APPEND);\n" [I act_level] ;;
  fprintf f "v_pos%03u.insert(new_v_pos);\n" [I act_level] ;;
  fprintf f "new_v_pos := nil;\n" [] ;;
  fprintf f "var new_v_item := oidNew_expOid.leftjoin(v_item%03u);\n" [I (act_level - 1)] ;;
  fprintf f "v_item%03u := bat(void,oid,count(new_v_item)*2);\n" [I act_level] ;;
  fprintf f "v_item%03u.seqbase(0@0);\n" [I act_level] ;;
  fprintf f "v_item%03u.access(BAT_APPEND);\n" [I act_level] ;;
  fprintf f "v_item%03u.insert(new_v_item);\n" [I act_level] ;;
  fprintf f "new_v_item := nil;\n" [] ;;
  fprintf f "var new_v_kind := oidNew_expOid.leftjoin(v_kind%03u);\n" [I (act_level - 1)] ;;
  fprintf f "v_kind%03u := bat(void,int,count(new_v_kind)*2);\n" [I act_level] ;;
  fprintf f "v_kind%03u.seqbase(0@0);\n" [I act_level] ;;
  fprintf f "v_kind%03u.access(BAT_APPEND);\n" [I act_level] ;;
  fprintf f "v_kind%03u.insert(new_v_kind);\n" [I act_level] ;;
  fprintf f "new_v_kind := nil;\n" [].

Definition mapBack (f : FILE) (act_level : Z) : M unit :=
  fprintf f (cat ["{ # mapBack ()\n";
       "var iter_oidMap := inner%03u.reverse;\n"]) [I act_level] ;;
  fprintf f (cat ["var oid_oidMap := iter.leftfetchjoin(iter_oidMap);\n";
       "iter_oidMap := nil;\n";
       "iter := oid_oidMap.leftfetchjoin(outer%03u);\n"]) [I act_level] ;;
  fprintf f (cat ["oid_oidMap := nil;\n";
       "pos := iter.mark_grp(iter.reverse.project(1@0));\n";
       "item := item;\n";
       "kind := kind;\n";
       "} # end of mapBack ()\n"]) [].

Definition createNewVarTable (f : FILE) (act_level : Z) : M unit :=
  fprintf f "# createNewVarTable ()\n" [] ;;
  fprintf f "v_iter%03u := bat(void,oid).seqbase(0@0).access(BAT_APPEND);\n" [I act_level] ;;
  fprintf f "v_vid%03u := bat(void,oid).seqbase(0@0).access(BAT_APPEND);\n" [I act_level] ;;
  fprintf f "v_pos%03u := bat(void,oid).seqbase(0@0).access(BAT_APPEND);\n" [I act_level] ;;
  fprintf f "v_item%03u := bat(void,oid).seqbase(0@0).access(BAT_APPEND);\n" [I act_level] ;;
  fprintf f "v_kind%03u := bat(void,int).seqbase(0@0).access(BAT_APPEND);\n" [I act_level].

Definition append (f : FILE) (name : string) (level : Z) : M unit :=
  fprintf f "{ # append (%s, level)\n" [S name] ;;
  fprintf f "var seqb := oid(v_%s%03u.count);\n" [S name; I level] ;;
  fprintf f "var temp_%s := %s.reverse.mark(seqb).reverse;\n" [S name; S name] ;;
  fprintf f "seqb := nil;\n" [] ;;
  fprintf f "v_%s%03u.insert(temp_%s);\n" [S name; I level; S name] ;;
  fprintf f "temp_%s := nil;\n" [S name] ;;
  fprintf f "} # append (%s, level)\n" [S name].

Definition insertVar (f : FILE) (act_level vid : Z) : M unit :=
  fprintf f (cat ["{ # insertVar (vid)\n";
       "var vid := iter.project(%i@0);\n"]) [I vid] ;;
  append f "vid" act_level ;;
  append f "iter" act_level ;;
  append f "pos" act_level ;;
  append f "item" act_level ;;
  append f "kind" act_level ;;
  fprintf f "vid := nil;\n" [] ;;
  fprintf f "} # insertVar (vid)\n" [].

Definition translateConst (f : FILE) (act_level : Z) (kind : string) : M unit :=
  fprintf f (cat ["# translateConst (kind)\n";
       "iter := loop%03u;\n";
       "iter := iter.reverse.mark(0@0).reverse;\n";
       "pos := iter.project(1@0);\n";
       "item := iter.project(itemID);\n";
       "kind := iter.project(%s);\n"]) [I act_level; S kind].

Definition loop_liftedSCJ (f : FILE) (axis : string) (kind ns loc : option string) : M unit :=
  fprintf f "# loop_liftedSCJ (axis, kind, ns, loc)\n" [] ;;
  if String.eqb axis "attribute" then
    fprintf f (cat ["{ # attribute axis\n";
         "var unq := CTgroup(iter).CTgroup(item)";
         ".CTgroup(kind).tunique.mark(0@0).reverse;\n";
         "var oid_iter := unq.leftfetchjoin(iter);\n";
         "var oid_item := unq.leftfetchjoin(item);\n";
         "var oid_frag := unq.leftfetchjoin(kind.get_fragment);\n";
         "unq := nil;\n";
         "var temp1 := mvaljoin (oid_item, oid_frag, ws.fetch(ATTR_OWN));\n";
         "oid_item := nil;\n";
         "oid_frag := temp1.mark(0@0).reverse.leftfetchjoin(oid_frag);\n";
         "var oid_attr := temp1.reverse.mark(0@0).reverse;\n";
         "oid_iter := temp1.mark(0@0).reverse.leftfetchjoin(oid_iter);\n";
         "temp1 := nil;\n"]) [] ;;
    (match ns with
     | Some ns =>
       fprintf f (cat ["temp1 := mposjoin(mposjoin(oid_attr, oid_frag, ws.fetch(ATTR_QN)), ";
            "mposjoin(oid_attr, oid_frag, ws.fetch(ATTR_FRAG)), ";
            "ws.fetch(QN_NS));\n";
            "temp1 := temp1.ord_uselect(\042%s\042);\n"]) [S ns] ;;
       fprintf f (cat ["temp1 := temp1.mark(0@0).reverse;\n";
            "oid_attr := temp1.leftfetchjoin(oid_attr);\n";
            "oid_frag := temp1.leftfetchjoin(oid_frag);\n";
            "oid_iter := temp1.leftfetchjoin(oid_iter);\n";
            "temp1 := nil;\n"]) []
     | None => ret tt
     end) ;;
    (match loc with
     | Some loc =>
       fprintf f (cat ["temp1 := mposjoin(mposjoin(oid_attr, oid_frag, ws.fetch(ATTR_QN)), ";
            "mposjoin(oid_attr, oid_frag, ws.fetch(ATTR_FRAG)), ";
            "ws.fetch(QN_LOC));\n";
            "temp1 := temp1.ord_uselect(\042%s\042);\n"]) [S loc] ;;
       fprintf f (cat ["temp1 := temp1.mark(0@0).reverse;\n";
            "oid_attr := temp1.leftfetchjoin(oid_attr);\n";
            "oid_frag := temp1.leftfetchjoin(oid_frag);\n";
            "oid_iter := temp1.leftfetchjoin(oid_iter);\n";
            "temp1 := nil;\n"]) []
     | None => ret tt
     end) ;;
    fprintf f (cat ["res_scj := bat(void,bat).seqbase(0@0);\n";
         "res_scj.insert(nil, oid_iter.reverse.mark(0@0).reverse);\n";
         "oid_iter := nil;\n";
         "res_scj.insert(nil, oid_attr.reverse.mark(0@0).reverse);\n";
         "oid_attr := nil;\n";
         "res_scj.insert(nil, oid_frag.reverse.mark(0@0).reverse);\n";
         "oid_frag := nil;\n";
         "temp1 := nil;\n";
         "} # end of attribute axis\n"]) []
  else
    match kind with
    | Some kind =>
      fprintf f (cat ["res_scj := loop_lifted_%s_step_with_kind_test_joined";
           "(iter, item, kind.get_fragment, ws, %s);\n"]) [S axis; S kind]
    | None =>
      match ns, loc with
      | Some ns, Some loc =>
        fprintf f (cat ["res_scj := loop_lifted_%s_step_with_nsloc_test_joined";
             "(iter, item, kind.get_fragment, ws, \042%s\042, \042%s\042);\n"]) [S axis; S ns; S loc]
      | _, Some loc =>
        fprintf f (cat ["res_scj := loop_lifted_%s_step_with_loc_test_joined";
             "(iter, item, kind.get_fragment, ws, \042%s\042);\n"]) [S axis; S loc]
      | Some ns, None =>
        fprintf f (cat ["res_scj := loop_lifted_%s_step_with_ns_test_joined";
             "(iter, item, kind.get_fragment, ws, \042%s\042);\n"]) [S axis; S ns]
      | None, None =>
        fprintf f (cat ["res_scj := loop_lifted_%s_step_joined";
             "(iter, item, kind.get_fragment, ws);\n"]) [S axis]
      end
    end.

Definition translateLocsteps (f : FILE) (c : PFcnode_t) : M unit :=
  fprintf f (cat ["{ # translateLocsteps (c)\n";
       "var res_scj := empty_res_bat;";
       "var sel_ls := kind.get_type(NODE);\n";
       "sel_ls := sel_ls.mark(0@0).reverse;\n";
       "item := sel_ls.leftfetchjoin(item);\n";
       "iter := sel_ls.leftfetchjoin(iter);\n";
       "kind := sel_ls.leftfetchjoin(kind);\n";
       "sel_ls := nil;\n"]) [] ;;
  match c with
  | NULL => fault
  | Cnode kind _ child0 _ _ _ =>
    axis <- match kind with
            | c_ancestor => ret "ancestor"%string
            | c_ancestor_or_self => ret "ancestor_or_self"%string
            | c_attribute => ret "attribute"%string
            | c_child => ret "child"%string
            | c_descendant => ret "descendant"%string
            | c_descendant_or_self => ret "descendant_or_self"%string
            | c_following => ret "following"%string
            | c_following_sibling => ret "following_sibling"%string
            | c_parent => ret "parent"%string
            | c_preceding => ret "preceding"%string
            | c_preceding_sibling => ret "preceding_sibling"%string
            | c_self => ret "attribute"%string
            | _ => PFoops OOPS_FATAL "illegal XPath axis in MIL-translation"
            end ;;
    match child0 with
    | NULL => fault
    | Cnode test tsem _ _ _ _ =>
      match test with
      | c_namet =>
        q <- qname_of tsem ;;
        let ns := ns_uri (qn_ns q) in
        let loc := qn_loc q in
        (* translate wildcard '*' as 0 and missing ns as the empty string *)
        let ns := match ns with
                  | None => Some EmptyString
                  | Some n => if String.eqb n "*" then None else Some n
                  end in
        (* translate wildcard '*' as 0 *)
        let loc := match loc with
                   | Some l => if String.eqb l "*" then None else Some l
                   | None => None
                   end in
        loop_liftedSCJ f axis None ns loc
      | c_kind_node => loop_liftedSCJ f axis None None None
      | c_kind_comment => loop_liftedSCJ f axis (Some "COMMENT"%string) None None
      | c_kind_text => loop_liftedSCJ f axis (Some "TEXT"%string) None None
      | c_kind_pi => loop_liftedSCJ f axis (Some "PI"%string) None None
      | c_kind_doc => loop_liftedSCJ f axis (Some "DOCUMENT"%string) None None
      | c_kind_elem => loop_liftedSCJ f axis (Some "ELEMENT"%string) None None
      | c_kind_attr => loop_liftedSCJ f axis (Some "ATTRIBUTE"%string) None None
      | _ => PFoops OOPS_FATAL "illegal node test in MIL-translation"
      end ;;
      (* res_scj = iter|item bat *)
      fprintf f (cat ["iter := res_scj.fetch(0);\n";
           "pos := iter.mark_grp(iter.tunique.project(1@0));\n";
           "item := res_scj.fetch(1);\n"]) [] ;;
      (if String.eqb axis "attribute"
       then fprintf f "kind := res_scj.fetch(2).get_kind(ATTR);\n" []
       else fprintf f "kind := res_scj.fetch(2).get_kind(NODE);\n" []) ;;
      fprintf f (cat ["res_scj := nil;\n";
           "} # end of translateLocsteps (c)\n"]) []
    end
  end.

Definition addValues (f : FILE) (tablename varname : string) : M unit :=
  fprintf f "%s.seqbase(nil);\n" [S tablename] ;;
  fprintf f "%s := %s.reverse.mark(nil).reverse;\n" [S varname; S varname] ;;
  fprintf f "%s.insert(%s);\n" [S tablename; S varname] ;;
  fprintf f "%s.seqbase(0@0);\n" [S tablename] ;;
  fprintf f "%s := %s.leftjoin(%s.reverse);\n" [S varname; S varname; S tablename].

Definition createEnumeration (f : FILE) : M unit :=
  fprintf f (cat ["{ # createEnumeration ()\n";
       "var ints_cE := item.mirror.[int];\n"]) [] ;;
  addValues f "int_values" "ints_cE" ;;
  fprintf f (cat ["item := ints_cE.reverse.mark(0@0).reverse;\n";
       "ints_cE := nil;\n";
       "kind := kind.project(INT);\n";
       "} # end of createEnumeration ()\n"]) [].

Definition castQName (f : FILE) : M unit :=
  fprintf f (cat ["{ # castQName ()\n";
       "var qnames := kind.get_type(QNAME);\n";
       "var counted_items := kind.count;\n";
       "var counted_qn := qnames.count;\n";
       "if (counted_items != counted_qn)\n";
       "{\n";
       "var strings := kind.ord_uselect(STR);\n";
       "if (counted_items != (strings.count + counted_qn)) ";
       "ERROR (\042only strings and qnames can be";
       "casted to qnames\042);\n";
       "counted_items := nil;\n";
       "var oid_oid := strings.mark(0@0).reverse;\n";
       "strings := nil;\n";
       "var oid_item := oid_oid.leftfetchjoin(item);\n";
       "strings := oid_item.tunique.mark(0@0).reverse;\n";
       "var oid_str := strings.leftfetchjoin(str_values);\n";
       "strings := nil;\n";
       "var prop_name := ws.fetch(QN_NS).fetch(WS).ord_uselect(\042\042);\n";
       "prop_name := prop_name.mirror.leftfetchjoin(ws.fetch(QN_LOC).fetch(WS));\n";
       "var str_oid := oid_str.reverse.kdiff(prop_name.reverse);\n";
       "oid_str := nil;\n";
       "prop_name := nil;\n";
       "oid_str := str_oid.mark(oid(ws.fetch(QN_LOC).fetch(WS).count)).reverse;\n";
       "str_oid := nil;\n";
       "ws.fetch(QN_LOC).fetch(WS).insert(oid_str);\n";
       "oid_str := oid_str.project(\042\042);\n";
       "ws.fetch(QN_NS).fetch(WS).insert(oid_str);\n";
       "oid_str := nil;\n";
       "prop_name := ws.fetch(QN_NS).fetch(WS).ord_uselect(\042\042);\n";
       "prop_name := prop_name.mirror.leftfetchjoin(ws.fetch(QN_LOC).fetch(WS));\n";
       "oid_str := oid_item.leftfetchjoin(str_values);\n";
       "oid_item := nil;\n";
       "var oid_prop := oid_str.leftjoin(prop_name.reverse);\n";
       "oid_str := nil;\n";
       "prop_name := nil;\n";
       "if (counted_qn = 0)\n";
       "    item := oid_prop;\n";
       "else {\n";
       "    var res_mu := merged_union";
       "(oid_oid, ";
       "qnames.mark(0@0).reverse, ";
       "oid_prop.reverse.mark(0@0).reverse, ";
       "qnames.mark(0@0).reverse.leftfetchjoin(item));\n";
       "    item := res_mu.fetch(1);\n";
       "}\n";
       "oid_oid := nil;\n";
       "oid_prop := nil;\n";
       "qnames := nil;\n";
       "counted_qn := nil;\n";
       "kind := item.project(QNAME);\n";
       "}\n";
       "} # end of castQName ()\n"]) [].

Definition loop_liftedElemConstr (f : FILE) (i : Z) : M unit :=
  fprintf f (cat ["{ # loop_liftedElemConstr (counter)\n";
       "var root_level;\n";
       "var root_size;\n";
       "var root_kind;\n";
       "var root_frag;\n";
       "var root_prop;\n";
       "var preNew_preOld;\n";
       "var preNew_frag;\n";
       "var attr := kind.get_type(ATTR).mark(0@0).reverse;\n";
       "var attr_iter := attr.leftfetchjoin(iter);\n";
       "var attr_item := attr.leftfetchjoin(item);\n";
       "var attr_frag := attr.leftfetchjoin(kind).get_fragment;\n";
       "attr := nil;\n";
       "if (kind.count != ";
       "(kind.get_type(NODE).count + kind.get_type(ATTR).count))\n";
       "    ERROR (\042there can be only nodes and attributes in element ";
       "construction\042);\n";
       "var nodes := kind.get_type(NODE);\n";
       "if (nodes.count != 0) {\n";
       "var oid_oid := nodes.mark(0@0).reverse;\n";
       "nodes := nil;\n";
       "var node_items := oid_oid.leftfetchjoin(item);\n";
       "var node_frags := oid_oid.leftfetchjoin(kind).get_fragment;\n";
       "var iter_input := oid_oid.mirror;\n";
       "var res_scj := loop_lifted_descendant_or_self_step_unjoined";
       "(iter_input, node_items, node_frags, ws);\n";
       "iter_input := nil;\n";
       "var pruned_input := res_scj.fetch(0);\n";
       "var ctx_dn_item := res_scj.fetch(1);\n";
       "var ctx_dn_frag := res_scj.fetch(2);\n";
       "res_scj := nil;\n";
       "var res_item := pruned_input.reverse.leftjoin(ctx_dn_item);\n";
       "var content_void := res_item.mark(0@0).reverse;\n";
       "var content_iter := content_void.leftfetchjoin(oid_oid).leftfetchjoin(iter);\n";
       "content_void := nil;\n";
       "res_item := res_item.reverse.mark(0@0).reverse;\n";
       "var res_frag := pruned_input.reverse.leftjoin(ctx_dn_frag);\n";
       "res_frag := res_frag.reverse.mark(0@0).reverse;\n";
       "var content_size := mposjoin(res_item, res_frag, ";
       "ws.fetch(PRE_SIZE));\n";
       "var content_prop := mposjoin(res_item, res_frag, ";
       "ws.fetch(PRE_PROP));\n";
       "var content_kind := mposjoin(res_item, res_frag, ";
       "ws.fetch(PRE_KIND));\n";
       "var content_frag := mposjoin(res_item, res_frag, ";
       "ws.fetch(PRE_FRAG));\n";
       "var content_pre := res_item;\n";
       "res_item := nil;\n";
       "res_frag := nil;\n";
       "nodes := pruned_input.kunique;\n";
       "var temp_ec_item := nodes.reverse.mark(0@0).reverse;\n";
       "temp_ec_item := temp_ec_item.leftfetchjoin(node_items);\n";
       "var temp_ec_frag := nodes.reverse.mark(0@0).reverse;\n";
       "temp_ec_frag := temp_ec_frag.leftfetchjoin(node_frags);\n";
       "nodes := nodes.mark(0@0);\n";
       "var contentRoot_level := mposjoin(temp_ec_item, ";
       "temp_ec_frag, ";
       "ws.fetch(PRE_LEVEL));\n";
       "contentRoot_level := nodes.leftfetchjoin(contentRoot_level);\n";
       "temp_ec_item := nil;\n";
       "temp_ec_frag := nil;\n";
       "nodes := nil;\n";
       "temp_ec_item := ctx_dn_item.reverse.mark(0@0).reverse;\n";
       "temp_ec_frag := ctx_dn_frag.reverse.mark(0@0).reverse;\n";
       "nodes := ctx_dn_item.mark(0@0);\n";
       "var content_level := mposjoin(temp_ec_item, temp_ec_frag, ";
       "ws.fetch(PRE_LEVEL));\n";
       "content_level := nodes.leftfetchjoin(content_level);\n";
       "content_level := content_level.[-](contentRoot_level);\n";
       "contentRoot_level := nil;\n";
       "content_level := content_level.[+](chr(1));\n";
       "content_level := pruned_input.reverse.leftjoin(content_level);\n";
       "content_level := content_level.reverse.mark(0@0).reverse;\n";
       "{\n";
       "var height := int(content_level.max) + 1;\n";
       "ws.fetch(HEIGHT).replace(WS, max(ws.fetch(HEIGHT).fetch(WS), height));\n";
       "height := nil;\n";
       "}\n";
       "var contentRoot_size := mposjoin(node_items, node_frags, ";
       "ws.fetch(PRE_SIZE)).[+](1);\n";
       "var size_oid := contentRoot_size.reverse;\n";
       "contentRoot_size := nil;\n";
       "size_oid := size_oid.leftfetchjoin(oid_oid);\n";
       "oid_oid := nil;\n";
       "var size_iter := size_oid.leftfetchjoin(iter);\n";
       "size_oid := nil;\n";
       "var iter_size := size_iter.reverse;\n";
       "size_iter := nil;\n";
       "iter_size := {sum}(iter_size, iter%03u.tunique);\n"]) [I i] ;;
  fprintf f (cat ["root_level := iter_size.project(chr(0));\n";
       "root_size := iter_size;\n";
       "root_kind := iter_size.project(ELEMENT);\n";
       "root_prop := iter%03u.reverse.leftfetchjoin(item%03u);\n";
       "root_frag := iter_size.project(WS);\n"]) [I i; I i] ;;
  fprintf f (cat ["root_level := root_level.reverse.mark(0@0).reverse;\n";
       "root_size := root_size.reverse.mark(0@0).reverse;\n";
       "root_kind := root_kind.reverse.mark(0@0).reverse;\n";
       "root_prop := root_prop.reverse.mark(0@0).reverse;\n";
       "root_frag := root_frag.reverse.mark(0@0).reverse;\n";
       "var root_iter := iter_size.mark(0@0).reverse;\n";
       "iter_size := nil;\n";
       "var root_pre := root_iter.project(nil);\n";
       "{\n";
       "root_iter.chk_order(false);\n";
       "content_iter.chk_order(false);\n";
       "var merged_result := merged_union (";
       "root_iter, content_iter, root_size, content_size, ";
       "root_level, content_level, root_kind, content_kind, ";
       "root_prop, content_prop, root_frag, content_frag, ";
       "root_pre, content_pre);\n";
       "root_iter := nil;\n";
       "content_iter := nil;\n";
       "root_size := merged_result.fetch(1);\n";
       "content_size := nil;\n";
       "root_level := merged_result.fetch(2);\n";
       "content_level := nil;\n";
       "root_kind := merged_result.fetch(3);\n";
       "content_kind := nil;\n";
       "root_prop := merged_result.fetch(4);\n";
       "content_prop := nil;\n";
       "root_frag := merged_result.fetch(5);\n";
       "content_frag := nil;\n";
       "root_pre := merged_result.fetch(6);\n";
       "content_pre := nil;\n";
       "merged_result := nil;\n";
       "}\n";
       "preNew_preOld := root_pre;\n";
       "root_pre := nil;\n";
       "} else { # if (nodes.count != 0) ...\n"]) [] ;;
  fprintf f "root_level := item%03u.project(chr(0));\n" [I i] ;;
  fprintf f "root_size := item%03u.project(0);\n" [I i] ;;
  fprintf f "root_kind := item%03u.project(ELEMENT);\n" [I i] ;;
  fprintf f "root_prop := item%03u;\n" [I i] ;;
  fprintf f "root_frag := item%03u.project(WS);\n" [I i] ;;
  fprintf f "preNew_preOld := item%03u.project(nil);\n" [I i] ;;
  fprintf f (cat ["preNew_preOld := preNew_preOld.reverse.mark(0@0).reverse;\n";
       "root_level := root_level.reverse.mark(0@0).reverse;\n";
       "root_size := root_size.reverse.mark(0@0).reverse;\n";
       "root_kind := root_kind.reverse.mark(0@0).reverse;\n";
       "root_prop := root_prop.reverse.mark(0@0).reverse;\n";
       "root_frag := root_frag.reverse.mark(0@0).reverse;\n";
       "} # end of else in 'if (nodes.count != 0)'\n";
       "{\n";
       "var seqb := count(ws.fetch(PRE_SIZE).fetch(WS));\n";
       "seqb := oid(seqb);\n";
       "root_level.seqbase(seqb);\n";
       "root_size.seqbase(seqb);\n";
       "root_kind.seqbase(seqb);\n";
       "root_prop.seqbase(seqb);\n";
       "root_frag.seqbase(seqb);\n";
       "preNew_preOld.seqbase(seqb);\n";
       "preNew_frag := root_frag;\n";
       "}\n";
       "ws.fetch(PRE_LEVEL).fetch(WS).insert(root_level);\n";
       "ws.fetch(PRE_SIZE).fetch(WS).insert(root_size);\n";
       "ws.fetch(PRE_KIND).fetch(WS).insert(root_kind);\n";
       "ws.fetch(PRE_PROP).fetch(WS).insert(root_prop);\n";
       "ws.fetch(PRE_FRAG).fetch(WS).insert(root_frag);\n";
       "var roots := root_level.ord_uselect(chr(0));\n";
       "roots := roots.mark(0@0).reverse;\n";
       "root_level := nil;\n";
       "root_size := nil;\n";
       "root_prop := nil;\n";
       "root_kind := nil;\n";
       "root_frag := nil;\n";
       "{ # adding new fragments to the WS_FRAG bat\n";
       "var seqb := ws.fetch(WS_FRAG).count;\n";
       "seqb := oid(seqb);\n";
       "var new_pres := roots.reverse.mark(seqb).reverse;\n";
       "seqb := nil;\n";
       "ws.fetch(WS_FRAG).insert(new_pres);\n";
       "new_pres := nil;\n";
       "}\n"]) [] ;;
  fprintf f (cat ["iter := iter%03u;\n";
       "pos := roots.mark(0@0);\n";
       "item := roots;\n";
       "kind := roots.project(NODE);\n"]) [I i] ;;
  fprintf f (cat ["{ # create attribute subtree copies\n";
       "var content_preNew_preOld := preNew_preOld.ord_select(nil,nil);\n";
       "var oid_preOld := content_preNew_preOld.reverse.mark(0@0).reverse;\n";
       "var oid_preNew := content_preNew_preOld.mark(0@0).reverse;\n";
       "var oid_frag := oid_preNew.leftfetchjoin(preNew_frag);\n";
       "var temp_attr := mvaljoin(oid_preOld, oid_frag, ws.fetch(ATTR_OWN));\n";
       "oid_preOld := nil;\n";
       "oid_attr := temp_attr.reverse.mark(0@0).reverse;\n";
       "oid_frag := temp_attr.mark(0@0).reverse.leftfetchjoin(oid_frag);\n";
       "oid_preNew := temp_attr.mark(0@0).reverse.leftfetchjoin(oid_preNew);\n";
       "temp_attr := nil;\n";
       "var seqb := oid(ws.fetch(ATTR_QN).fetch(WS).count);\n";
       "var attr_qn := mposjoin(oid_attr, oid_frag, ws.fetch(ATTR_QN));\n";
       "attr_qn.seqbase(seqb);\n";
       "var attr_oid := mposjoin(oid_attr, oid_frag, ws.fetch(ATTR_PROP));\n";
       "attr_oid.seqbase(seqb);\n";
       "oid_preNew.seqbase(seqb);\n";
       "oid_frag.seqbase(seqb);\n";
       "seqb := nil;\n";
       "ws.fetch(ATTR_QN).fetch(WS).insert(attr_qn);\n";
       "ws.fetch(ATTR_PROP).fetch(WS).insert(attr_oid);\n";
       "ws.fetch(ATTR_OWN).fetch(WS).insert(oid_preNew);\n";
       "ws.fetch(ATTR_FRAG).fetch(WS).insert(oid_frag);\n";
       "} # end of create attribute subtree copies\n"]) [] ;;
  fprintf f (cat ["{ # create attribute root entries\n";
       "var unq_attrs := CTgroup(attr_iter)";
       ".CTgroup(mposjoin(attr_item, attr_frag, ws.fetch(ATTR_QN)))";
       ".CTgroup(mposjoin(attr_item, attr_frag, ws.fetch(ATTR_FRAG)))";
       ".tunique;\n";
       "if (unq_attrs.count != attr_iter.count)\n";
       "{\n";
       "   if (item%03u.count > 0)\n";
       "      ERROR (\042attributes are not unique in element";
       " construction of '%%s' within each iter\042,\n";
       "             item%03u.leftfetchjoin(ws.fetch(QN_LOC).fetch(WS)).fetch(0));\n";
       "   else\n";
       "     ERROR (\042attributes are not unique in element";
       " construction within each iter\042);\n";
       "}\n"]) [I i; I i] ;;
  fprintf f (cat ["var seqb := oid(ws.fetch(ATTR_QN).fetch(WS).count);\n";
       "var attr_qn := mposjoin(attr_item, attr_frag, ws.fetch(ATTR_QN));\n";
       "attr_qn.seqbase(seqb);\n";
       "var attr_oid := mposjoin(attr_item, attr_frag, ws.fetch(ATTR_PROP));\n";
       "attr_oid.seqbase(seqb);\n";
       "var attr_own := iter%03u.reverse.leftfetchjoin(roots);\n";
       "roots := nil;\n";
       "attr_own := attr_iter.leftjoin(attr_own);\n";
       "attr_iter := nil;\n";
       "attr_own := attr_own.reverse.mark(seqb).reverse;\n"]) [I i] ;;
  fprintf f (cat ["attr_frag.seqbase(seqb);\n";
       "seqb := nil;\n";
       "ws.fetch(ATTR_QN).fetch(WS).insert(attr_qn);\n";
       "attr_qn := nil;\n";
       "ws.fetch(ATTR_PROP).fetch(WS).insert(attr_oid);\n";
       "attr_oid := nil;\n";
       "ws.fetch(ATTR_OWN).fetch(WS).insert(attr_own);\n";
       "attr_own := nil;\n";
       "ws.fetch(ATTR_FRAG).fetch(WS).insert(attr_frag);\n";
       "attr_frag := nil;\n";
       "} # end of create attribute root entries\n";
       "} # end of loop_liftedElemConstr (counter)\n"]) [].

Definition loop_liftedAttrConstr (f : FILE) (act_level i : Z) : M unit :=
  fprintf f (cat ["{ # loop_liftedAttrConstr (int i)\n";
       "var test := iter.tunique;\n";
       "if (test.count != kind.ord_uselect(STR).count)\n";
       "    ERROR (\042there can be only one string for each iter in ";
       "attribute construction\042);\n";
       "test := {count}(iter.reverse,test);\n";
       "if (test.count != test.sum)\n";
       "    ERROR (\042more than 1 argument in attribute constructor\042);\n"]) [] ;;
  fprintf f (cat ["if (iter%03u.count != loop%03u.count)\n";
       "    ERROR (\042empty tagname is not allowed in ";
       "attribute construction\042);\n";
       "if (iter.count != loop%03u.count)\n";
       "{\n";
       "var difference := loop%03u.reverse.kdiff(iter.reverse);\n";
       "difference := difference.mark(0@0).reverse;\n";
       "var res_mu := merged_union(iter, difference, item, ";
       "difference.project(EMPTY_STRING));\n";
       "item := res_mu.fetch(1);\n";
       "}\n"]) [I i; I act_level; I act_level; I act_level] ;;
  fprintf f (cat ["var ws_prop_val := ws.fetch(PROP_VAL).fetch(WS);\n";
       "var unq_str := item.tunique.mark(0@0).reverse;\n";
       "unq_str := unq_str.leftfetchjoin(str_values);\n";
       "unq_str := unq_str.reverse.kdiff(ws_prop_val.reverse);\n";
       "var seqb := oid(int(ws_prop_val.seqbase) + ws_prop_val.count);\n";
       "unq_str := unq_str.mark(seqb).reverse;\n";
       "seqb := nil;\n";
       "ws_prop_val.insert(unq_str);\n";
       "var strings := item.leftfetchjoin(str_values);\n";
       "strings := strings.leftjoin(ws_prop_val.reverse);\n";
       "seqb := oid(ws.fetch(ATTR_OWN).fetch(WS).count);\n";
       "var attr_oid := strings.reverse.mark(seqb).reverse;\n";
       "strings := nil;\n";
       "ws.fetch(ATTR_PROP).fetch(WS).insert(attr_oid);\n";
       "var qn := item%03u.reverse.mark(seqb).reverse;\n";
       "ws.fetch(ATTR_QN).fetch(WS).insert(qn);\n";
       "ws.fetch(ATTR_FRAG).fetch(WS).insert(qn.project(WS));\n";
       "ws.fetch(ATTR_OWN).fetch(WS).insert(qn.mark(nil));\n";
       "iter := iter%03u;\n";
       "pos := pos%03u;\n";
       "item := iter%03u.mark(seqb);\n";
       "kind := kind%03u.project(ATTR);\n";
       "} # end of loop_liftedAttrConstr (int i)\n"]) [I i; I i; I i; I i; I i].

Definition loop_liftedTextConstr (f : FILE) : M unit :=
  fprintf f (cat ["if (iter.tunique.count != kind.uselect(STR).count)\n";
       "   ERROR (\042Text Constructor awaits exactly one string ";
       "for each iter\042);\n"]) [] ;;
  fprintf f (cat ["{ # adding new strings to text node content and create new nodes\n";
       "var ws_prop_text := ws.fetch(PROP_TEXT).fetch(WS);\n";
       "var unq_str := item.tunique.mark(0@0).reverse;\n";
       "unq_str := unq_str.leftfetchjoin(str_values);\n";
       "unq_str := unq_str.reverse.kdiff(ws_prop_text.reverse);\n";
       "var seqb := oid(int(ws_prop_text.seqbase) + ws_prop_text.count);\n";
       "unq_str := unq_str.mark(seqb).reverse;\n";
       "seqb := nil;\n";
       "ws_prop_text.insert(unq_str);\n";
       "var strings := item.leftfetchjoin(str_values);\n";
       "strings := strings.leftjoin(ws_prop_text.reverse);\n";
       "seqb := oid(ws.fetch(PRE_KIND).fetch(WS).count);\n";
       "var newPre_prop := strings.reverse.mark(seqb).reverse;\n";
       "strings := nil;\n";
       "ws.fetch(PRE_PROP).fetch(WS).insert(newPre_prop);\n";
       "ws.fetch(PRE_SIZE).fetch(WS).insert(newPre_prop.project(0));\n";
       "ws.fetch(PRE_LEVEL).fetch(WS).insert(newPre_prop.project(chr(0)));\n";
       "ws.fetch(PRE_KIND).fetch(WS).insert(newPre_prop.project(TEXT));\n";
       "ws.fetch(PRE_FRAG).fetch(WS).insert(newPre_prop.project(WS));\n";
       "newPre_prop := nil;\n";
       "item := item.mark(seqb);\n";
       "seqb := nil;\n";
       "kind := kind.project(NODE);\n";
       "}\n";
       "{ # adding new fragments to the WS_FRAG bat\n";
       "var seqb := ws.fetch(WS_FRAG).count;\n";
       "seqb := oid(seqb);\n";
       "var new_pres := item.reverse.mark(seqb).reverse;\n";
       "seqb := nil;\n";
       "ws.fetch(WS_FRAG).insert(new_pres);\n";
       "new_pres := nil;\n";
       "ws.fetch(HEIGHT).replace(WS, max(ws.fetch(HEIGHT).fetch(WS), 1));\n";
       "}\n"]) [].

Section Recursion.

(** [translateFunction] and [translateIfThen] call back into
    [translate2MIL], which is defined after them by recursion on the tree. *)
Variable translate2MIL : FILE -> Z -> Z -> PFcnode_t -> M unit.

(** [translate2MIL (f, act_level, counter, args->child[0])]. *)
Definition translate_child0 (f : FILE) (act_level counter : Z) (args : PFcnode_t) : M unit :=
  match args with
  | NULL => fault
  | Cnode _ _ child0 _ _ _ => translate2MIL f act_level counter child0
  end.

Definition translateFunction (f : FILE) (act_level counter : Z)
    (fnQname : PFqname_t) (args : PFcnode_t) : M unit :=
  if (PFqname_eq E fnQname (PFqname (PFns_fn E) "doc") =? 0)%Z then
    translate_child0 f act_level counter args ;;
    fprintf f (cat ["{ # translate fn:doc (string?) as document?\n";
         "var docs := item.tunique.mark(0@0).reverse;\n";
         "docs := docs.leftfetchjoin(str_values);\n";
         "docs := docs.reverse.kdiff(ws.fetch(DOC_LOADED).reverse)";
         ".mark(0@0).reverse;\n";
         "docs@batloop () {\n";
         "ws := add_doc(ws, $t);\n";
         "}\n";
         "docs := nil;\n";
         "var frag := item.leftfetchjoin(str_values);\n";
         "frag := frag.leftjoin(ws.fetch(DOC_LOADED).reverse);\n";
         "frag := frag.reverse.mark(0@0).reverse;\n";
         "kind := get_kind(frag, NODE);\n";
         "item := kind.project(0@0);\n";
         "} # end of translate fn:doc (string?) as document?\n"]) []
  else if (PFqname_eq E fnQname (PFqname (PFns_pf E) "distinct-doc-order") =? 0)%Z then
    translate_child0 f act_level counter args ;;
    fprintf f (cat ["{ # translate pf:distinct-doc-order (node*) as node*\n";
         "if (kind.count != kind.get_type(NODE).count) ";
         "ERROR (\042function pf:distinct-doc-order expects only nodes\042);\n";
         "var temp_ddo := CTgroup(iter).CTgroup(item).CTgroup(kind);\n";
         "temp_ddo := temp_ddo.tunique.mark(0@0).reverse;\n";
         "iter := temp_ddo.leftfetchjoin(iter);\n";
         "item := temp_ddo.leftfetchjoin(item);\n";
         "kind := temp_ddo.leftfetchjoin(kind);\n";
         "temp_ddo := nil;\n";
         "var sorting := iter.reverse.sort.reverse;\n";
         "sorting := sorting.CTrefine(kind);";
         "sorting := sorting.CTrefine(item);";
         "sorting := sorting.mark(0@0).reverse;\n";
         "iter := sorting.leftfetchjoin(iter);\n";
         "pos := iter.mark(1@0);\n";
         "item := sorting.leftfetchjoin(item);\n";
         "kind := sorting.leftfetchjoin(kind);\n";
         "sorting := nil;\n";
         "} # end of translate pf:distinct-doc-order (node*) as node*\n"]) []
  else if (PFqname_eq E fnQname (PFqname (PFns_fn E) "count") =? 0)%Z then
    translate_child0 f act_level counter args ;;
    fprintf f (cat ["{ # translate fn:count (item*) as integer\n";
         "var iter_count := {count}(iter.reverse,loop%03u.reverse);\n";
         "iter_count := iter_count.reverse.mark(0@0).reverse;\n"]) [I act_level] ;;
    addValues f "int_values" "iter_count" ;;
    fprintf f (cat ["item := iter_count.reverse.mark(0@0).reverse;\n";
         "iter_count := nil;\n";
         "iter := loop%03u.reverse.mark(0@0).reverse;\n";
         "pos := iter.project(1@0);\n";
         "kind := iter.project(INT);\n";
         "} # end of translate fn:count (item*) as integer\n"]) [I act_level]
  else if (PFqname_eq E fnQname (PFqname (PFns_fn E) "empty") =? 0)%Z then
    translate_child0 f act_level counter args ;;
    fprintf f (cat ["{ # translate fn:empty (item*) as boolean\n";
         "var iter_count := {count}(iter.reverse,loop%03u.reverse);\n";
         "var iter_bool := iter_count.[=](0);\n";
         "iter_count := nil;\n";
         "iter_bool := iter_bool.leftjoin(bool_map);\n";
         "iter := iter_bool.mark(0@0).reverse;\n";
         "pos := iter.project(1@0);\n";
         "item := iter_bool.reverse.mark(0@0).reverse;\n";
         "kind := iter.project(BOOL);\n";
         "iter_bool := nil;\n";
         "} # end of translate fn:empty (item*) as boolean\n"]) [I act_level]
  else if (PFqname_eq E fnQname (PFqname (PFns_fn E) "not") =? 0)%Z then
    translate_child0 f act_level counter args ;;
    fprintf f (cat ["# translate fn:not (boolean) as boolean\n";
         "item := item.leftfetchjoin(bool_not);\n"]) []
  else if (PFqname_eq E fnQname (PFqname (PFns_fn E) "boolean") =? 0)%Z then
    translate_child0 f act_level counter args ;;
    fprintf f (cat ["{ # translate fn:boolean (item*) as boolean\n";
         "iter := iter.reverse;\n";
         "var iter_count := {count}(iter,loop%03u.reverse);\n"]) [I act_level] ;;
    fprintf f (cat ["var test := iter_count.ord_uselect(1);\n";
         "var trues := iter_count.[!=](0);\n";
         "trues.access(BAT_WRITE);\n";
         "iter_count := nil;\n";
         "item := iter.leftfetchjoin(item);\n";
         "kind := iter.leftfetchjoin(kind);\n";
         "test := test.mirror;\n";
         "test := test.leftjoin(kind);\n";
         "var str_test := test.ord_uselect(STR);\n";
         "var int_test := test.ord_uselect(INT);\n";
         "var dbl_test := test.ord_uselect(DBL);\n";
         "var dec_test := test.ord_uselect(DEC);\n";
         "var bool_test := test.ord_uselect(BOOL);\n";
         "test := nil;\n";
         "str_test := str_test.mirror;\n";
         "int_test := int_test.mirror;\n";
         "dbl_test := dbl_test.mirror;\n";
         "dec_test := dec_test.mirror;\n";
         "bool_test := bool_test.mirror;\n";
         "str_test := str_test.leftjoin(item);\n";
         "int_test := int_test.leftjoin(item);\n";
         "dec_test := dec_test.leftjoin(item);\n";
         "dbl_test := dbl_test.leftjoin(item);\n";
         "bool_test := bool_test.leftjoin(item);\n";
         "str_test := str_test.leftfetchjoin(str_values);\n";
         "int_test := int_test.leftfetchjoin(int_values);\n";
         "dec_test := dec_test.leftfetchjoin(dec_values);\n";
         "dbl_test := dbl_test.leftfetchjoin(dbl_values);\n";
         "bool_test := bool_test.ord_uselect(0@0);\n";
         "str_test := str_test.ord_uselect(\042\042);\n";
         "int_test := int_test.ord_uselect(0);\n";
         "dec_test := dec_test.ord_uselect(dbl(0));\n";
         "dbl_test := dbl_test.ord_uselect(dbl(0));\n";
         "str_test := str_test.project(false);\n";
         "int_test := int_test.project(false);\n";
         "dec_test := dec_test.project(false);\n";
         "dbl_test := dbl_test.project(false);\n";
         "bool_test := bool_test.project(false);\n";
         "trues.replace(str_test);\n";
         "str_test := nil;\n";
         "trues.replace(int_test);\n";
         "int_test := nil;\n";
         "trues.replace(dec_test);\n";
         "dec_test := nil;\n";
         "trues.replace(dbl_test);\n";
         "dbl_test := nil;\n";
         "trues.replace(bool_test);\n";
         "bool_test := nil;\n";
         "trues := trues.leftjoin(bool_map);\n";
         "iter := trues.mark(0@0).reverse;\n";
         "pos := iter.project(1@0);\n";
         "item := trues.reverse.mark(0@0).reverse;\n";
         "kind := iter.project(BOOL);\n";
         "trues := nil;\n";
         "} # end of translate fn:boolean (item*) as boolean\n"]) []
  else translateEmpty f.

Definition translateIfThen (f : FILE) (act_level counter : Z) (c : PFcnode_t)
    (then_ bool_res : Z) : M unit :=
  let act_level := act_level + 1 in
  fprintf f "{ # translateIfThen\n" [] ;;
  (* initial setting of new 'scope' *)
  fprintf f "var loop%03u := loop%03u;\n" [I act_level; I (act_level - 1)] ;;
  fprintf f "var inner%03u := inner%03u;\n" [I act_level; I (act_level - 1)] ;;
  fprintf f "var outer%03u := outer%03u;\n" [I act_level; I (act_level - 1)] ;;
  fprintf f "var v_vid%03u := v_vid%03u;\n" [I act_level; I (act_level - 1)] ;;
  fprintf f "var v_iter%03u := v_iter%03u;\n" [I act_level; I (act_level - 1)] ;;
  fprintf f "var v_pos%03u := v_pos%03u;\n" [I act_level; I (act_level - 1)] ;;
  fprintf f "var v_item%03u := v_item%03u;\n" [I act_level; I (act_level - 1)] ;;
  fprintf f "var v_kind%03u := v_kind%03u;\n" [I act_level; I (act_level - 1)] ;;
  (* 1. PHASE: create all mapping stuff to next 'scope' *)
  fprintf f "if (skip = 0)\n{\n" [] ;;
  (if (then_ =? 0)%Z
   then fprintf f "selected := item%03u.ord_uselect(0@0);\n" [I bool_res]
   else ret tt) ;;
  fprintf f "iter := selected.mirror.join(iter%03u);\n" [I bool_res] ;;
  fprintf f "iter := iter.reverse.mark(0@0).reverse;\n" [] ;;
  fprintf f "outer%03u := iter;\n" [I act_level] ;;
  fprintf f "iter := iter.mark(1@0);\n" [] ;;
  fprintf f "inner%03u := iter;\n" [I act_level] ;;
  fprintf f "loop%03u := inner%03u;\n" [I act_level; I act_level] ;;
  fprintf f "iter := nil;\n" [] ;;
  fprintf f "var expOid := v_iter%03u.mirror;\n" [I act_level] ;;
  fprintf f "var oidNew_expOid;\n" [] ;;
  expand f act_level ;;
  join f act_level ;;
  fprintf f "expOid := nil;\n" [] ;;
  fprintf f "}\n" [] ;;
  (* 2. PHASE: execute then/else expression *)
  (if negb (then_ =? 0)%Z
   then fprintf f "if (skip != 1)\n{\n" []
   else fprintf f "if (skip != 2)\n{\n" []) ;;
  translate2MIL f act_level counter c ;;
  fprintf f "}\n" [] ;;
  fprintf f "else\n{\n" [] ;;
  translateEmpty f ;;
  fprintf f "}\n" [] ;;
  (* 3. PHASE: create all mapping stuff from to actual 'scope' *)
  fprintf f "if (skip = 0)\n{\n" [] ;;
  mapBack f act_level ;;
  fprintf f "}\n" [] ;;
  cleanUpLevel f act_level ;;
  fprintf f "} # end of translateIfThen\n" [].

End Recursion.

Fixpoint translate2MIL (f : FILE) (act_level counter : Z) (c : PFcnode_t) {struct c} : M unit :=
  match c with
  | NULL => fault
  | Cnode kind sem child0 child1 child2 child3 =>
    match kind with
    | c_var => translateVar f act_level c
    | c_seq =>
      k0 <- kind_of child0 ;;
      k1 <- kind_of child1 ;;
      if is_c_empty k0 && negb (is_c_empty k1) then
        translateEmpty f
      else if is_c_empty k0 then
        translate2MIL f act_level counter child1
      else if is_c_empty k1 then
        translate2MIL f act_level counter child0
      else
        translate2MIL f act_level counter child0 ;;
        let counter := counter + 1 in
        saveResult f counter ;;
        translate2MIL f act_level counter child1 ;;
        translateSeq f counter ;;
        deleteResult f counter
    | c_let =>
      translate2MIL f act_level counter child1 ;;
      v <- deref_var child0 ;;
      (if used v then insertVar f act_level (vid v) else ret tt) ;;
      translate2MIL f act_level counter child2
    | c_for =>
      translate2MIL f act_level counter child2 ;;
      (* not allowed to overwrite iter,pos,item *)
      let act_level := act_level + 1 in
      fprintf f "{ # for-translation\n" [] ;;
      project f act_level ;;
      fprintf f "var expOid;\n" [] ;;
      num <- num_of sem ;;
      getExpanded f act_level num ;;
      fprintf f (cat ["if (expOid.count != 0) {\n";
           "var oidNew_expOid;\n"]) [] ;;
      expand f act_level ;;
      join f act_level ;;
      fprintf f "} else {\n" [] ;;
      createNewVarTable f act_level ;;
      fprintf f (cat ["} # end if\n";
           "expOid := nil;\n"]) [] ;;
      v0 <- deref_var child0 ;;
      (if used v0 then insertVar f act_level (vid v0) else ret tt) ;;
      k1 <- kind_of child1 ;;
      (if is_c_var k1 then
         v1 <- deref_var child1 ;;
         if used v1 then
           (* changes item and kind and inserts if needed
              new int values to 'int_values' bat *)
           createEnumeration f ;;
           insertVar f act_level (vid v1)
         else ret tt
       else ret tt) ;;
      (* end of not allowed to overwrite iter,pos,item *)
      translate2MIL f act_level counter child3 ;;
      mapBack f act_level ;;
      cleanUpLevel f act_level ;;
      fprintf f "} # end of for-translation\n" []
    | c_ifthenelse =>
      translate2MIL f act_level counter child0 ;;
      let counter := counter + 1 in
      saveResult f counter ;;
      let bool_res := counter in
      fprintf f "{ # ifthenelse-translation\n" [] ;;
      fprintf f (cat ["var selected := item%03u.ord_uselect(1@0);\n";
           "var skip := 0;\n";
           "if (selected.count = item%03u.count) ";
           "skip := 2;\n";
           "else if (selected.count = 0) ";
           "skip := 1;\n"]) [I bool_res; I bool_res] ;;
      (* if at compile time one argument is already known to
         be empty don't do the other *)
      k2 <- kind_of child2 ;;
      (if is_c_empty k2 then
         translateIfThen translate2MIL f act_level counter child1 1 bool_res
       else
         k1 <- kind_of child1 ;;
         if is_c_empty k1 then
           translateIfThen translate2MIL f act_level counter child2 0 bool_res
         else
           translateIfThen translate2MIL f act_level counter child1 1 bool_res ;;
           let counter := counter + 1 in
           saveResult f counter ;;
           translateIfThen translate2MIL f act_level counter child2 0 bool_res ;;
           translateSeq f counter ;;
           deleteResult f counter) ;;
      printf "} # end of ifthenelse-translation\n" [] ;;
      deleteResult f counter
    | c_locsteps =>
      translate2MIL f act_level counter child1 ;;
      translateLocsteps f child0
    | c_elem =>
      translate2MIL f act_level counter child0 ;;
      k0 <- kind_of child0 ;;
      (if negb (is_c_tag k0) then castQName f else ret tt) ;;
      let counter := counter + 1 in
      saveResult f counter ;;
      translate2MIL f act_level counter child1 ;;
      loop_liftedElemConstr f counter ;;
      deleteResult f counter
    | c_attr =>
      translate2MIL f act_level counter child0 ;;
      k0 <- kind_of child0 ;;
      (if negb (is_c_tag k0) then castQName f else ret tt) ;;
      let counter := counter + 1 in
      saveResult f counter ;;
      translate2MIL f act_level counter child1 ;;
      loop_liftedAttrConstr f act_level counter ;;
      deleteResult f counter
    | c_tag =>
      q <- qname_of sem ;;
      let ns := ns_uri (qn_ns q) in
      (* translate missing ns as the empty string *)
      let ns := match ns with Some n => n | None => EmptyString end in
      loc <- nonnull (qn_loc q) ;;
      fprintf f (cat ["{ # tagname-translation\n";
           "var propID := ws.fetch(QN_NS).fetch(WS)";
           ".ord_uselect(\042%s\042).mirror;\n";
           "propID := propID";
           ".leftfetchjoin(ws.fetch(QN_LOC).fetch(WS));\n";
           "propID := propID.ord_uselect(\042%s\042);\n";
           "var itemID;\n"]) [S ns; S loc] ;;
      fprintf f (cat ["if (propID.count = 0)\n";
           "{\n";
           "itemID := oid(ws.fetch(QN_LOC).fetch(WS).count);\n";
           "ws.fetch(QN_NS).fetch(WS).insert (itemID,\042%s\042);\n";
           "ws.fetch(QN_LOC).fetch(WS).insert (itemID,\042%s\042);\n";
           "} else ";
           "itemID := propID.reverse.fetch(0);\n"]) [S ns; S loc] ;;
      (* translateConst needs a bound variable itemID *)
      translateConst f act_level "QNAME" ;;
      fprintf f (cat ["propID := nil;\n";
           "itemID := nil;\n";
           "} # end of tagname-translation\n"]) []
    | c_text =>
      translate2MIL f act_level counter child0 ;;
      loop_liftedTextConstr f
    | c_lit_str =>
      s <- str_of sem ;;
      fprintf f (cat ["{\n";
           "str_values.seqbase(nil);\n";
           "str_values.insert (nil,\042%s\042);\n";
           "str_values.seqbase(0@0);\n";
           "var itemID := str_values.ord_uselect(\042%s\042);\n";
           "itemID := itemID.reverse.fetch(0);\n"]) [S (PFesc_string E s); S (PFesc_string E s)] ;;
      translateConst f act_level "STR" ;;
      fprintf f (cat ["itemID := nil;\n";
           "}\n"]) []
    | c_lit_int =>
      n <- num_of sem ;;
      fprintf f (cat ["{\n";
           "int_values.seqbase(nil);\n";
           "int_values.insert (nil,%u);\n";
           "int_values.seqbase(0@0);\n";
           "var itemID := int_values.ord_uselect(%u);\n";
           "itemID := itemID.reverse.fetch(0);\n"]) [I n; I n] ;;
      translateConst f act_level "INT" ;;
      fprintf f (cat ["itemID := nil;\n";
           "}\n"]) []
    | c_lit_dec =>
      d <- dec_of sem ;;
      fprintf f (cat ["{\n";
           "dec_values.seqbase(nil);\n";
           "dec_values.insert (nil,dbl(%g));\n";
           "dec_values.seqbase(0@0);\n";
           "var itemID := dec_values.ord_uselect(dbl(%g));\n";
           "itemID := itemID.reverse.fetch(0);\n"]) [G d; G d] ;;
      translateConst f act_level "DEC" ;;
      fprintf f (cat ["itemID := nil;\n";
           "}\n"]) []
    | c_lit_dbl =>
      d <- dbl_of sem ;;
      fprintf f (cat ["{\n";
           "dbl_values.seqbase(nil);\n";
           "dbl_values.insert (nil,dbl(%g));\n";
           "dbl_values.seqbase(0@0);\n";
           "var itemID := dbl_values.ord_uselect(dbl(%g));\n";
           "itemID := itemID.reverse.fetch(0);\n"]) [G d; G d] ;;
      translateConst f act_level "DBL" ;;
      fprintf f (cat ["itemID := nil;\n";
           "}\n"]) []
    | c_true =>
      fprintf f (cat ["{\n";
           "var itemID := 1@0;\n"]) [] ;;
      translateConst f act_level "BOOL" ;;
      fprintf f (cat ["itemID := nil;\n";
           "}\n"]) []
    | c_false =>
      fprintf f (cat ["{\n";
           "var itemID := 0@0;\n"]) [] ;;
      translateConst f act_level "BOOL" ;;
      fprintf f (cat ["itemID := nil;\n";
           "}\n"]) []
    | c_root =>
      fprintf f (cat ["{\n";
           "var itemID := 0@0;\n"]) [] ;;
      translateConst f act_level "NODE" ;;
      fprintf f (cat ["kind := kind.project(ws.fetch(FRAG).fetch(0))";
           ".get_kind(NODE);\n";
           "itemID := nil;\n";
           "}\n"]) []
    | c_empty => translateEmpty f
    | c_seqcast =>
      (* seqcast just ignores the cast *)
      t <- type_of child0 ;;
      PFlog (sprintf (fmt_g E) "cast to '%s' ignored" [S (PFty_str E t)]) ;;
      translate2MIL f act_level counter child1
    | c_apply =>
      fn <- fun_of sem ;;
      translateFunction translate2MIL f act_level counter (fun_qname fn) child0
    | _ => PFoops OOPS_WARNING "not supported feature is translated"
    end
  end.

(** ** The scope annotator *)

(** [PFarray_top (way)]: the last element. *)
Definition PFarray_top : M Z :=
  fun w => match rev (way w) with
           | top :: _ => (Ok top, w)
           | [] => (Fault, w)
           end.

(** [PFarray_del (way)]. *)
Definition PFarray_del : M unit :=
  modify (fun w => set_way (removelast (way w)) w).

(** [*(int * ) PFarray_add (way) = fid]. *)
Definition PFarray_add (fid : Z) : M unit :=
  modify (fun w => set_way ((way w ++ [fid])%list) w).

Definition set_base (p : var_ptr) (b : Z) : M unit :=
  modify (fun w => set_var p {| base := b; vid := vid (vars w p); used := used (vars w p) |} w).

Definition set_vid (p : var_ptr) (n : Z) : M unit :=
  modify (fun w => set_var p {| base := base (vars w p); vid := n; used := used (vars w p) |} w).

Definition set_used (p : var_ptr) (u : bool) : M unit :=
  modify (fun w => set_var p {| base := base (vars w p); vid := vid (vars w p); used := u |} w).

(** The loop of [update_expansion]: [m] runs from the top of [way] down
    while the entry is greater than [var->base]; [top_down] holds the
    entries in that order. *)
Fixpoint update_expansion_loop (f : FILE) (var : PFvar_t) (top_down : list Z) : M unit :=
  match top_down with
  | [] => ret tt
  | fid :: below =>
    if fid >? base var then
      fprintf f "var_usage.insert(%i@0,%i@0);\n" [I (vid var); I fid] ;;
      modify (add_usage (vid var, fid)) ;;
      update_expansion_loop f var below
    else ret tt
  end.

Definition update_expansion (f : FILE) (c : PFcnode_t) : M unit :=
  var <- deref_var c ;;
  way_now <- get way ;;
  update_expansion_loop f var (rev way_now).

(** [append_lev] returns the tree it has annotated (the C code stores the
    scope id into the [for] node in place). *)
Fixpoint append_lev (f : FILE) (c : PFcnode_t) {struct c} : M PFcnode_t :=
  match c with
  | NULL => fault
  | Cnode kind sem child0 child1 child2 child3 =>
    match kind with
    | c_var =>
      (* inserts fid|vid combinations into var_usage bat *)
      update_expansion f c ;;
      p <- var_of c ;;
      set_used p true ;;
      ret c
    (* only in for and let variables can be bound *)
    | c_for =>
      child2' <- match child2 with
                 | NULL => ret NULL
                 | Cnode _ _ _ _ _ _ => append_lev f child2
                 end ;;
      old_fid <- get (fun w => counter w FID) ;;
      modify (set_counter FID (old_fid + 1)) ;;
      fid <- get (fun w => counter w FID) ;;
      PFarray_add fid ;;
      let act_fid := fid in
      new_vid <- get (fun w => counter w VID) ;;
      p0 <- var_of child0 ;;
      set_base p0 act_fid ;;
      set_vid p0 new_vid ;;
      set_used p0 false ;;
      modify (set_counter VID (new_vid + 1)) ;;
      k1 <- kind_of child1 ;;
      (if is_c_var k1 then
         new_vid <- get (fun w => counter w VID) ;;
         p1 <- var_of child1 ;;
         set_base p1 act_fid ;;
         set_vid p1 new_vid ;;
         set_used p1 false ;;
         modify (set_counter VID (new_vid + 1))
       else ret tt) ;;
      child3' <- match child3 with
                 | NULL => ret NULL
                 | Cnode _ _ _ _ _ _ => append_lev f child3
                 end ;;
      top <- PFarray_top ;;
      modify (set_counter ACT_FID top) ;;
      PFarray_del ;;
      ret (Cnode kind (sem_num fid) child0 child1 child2' child3')
    | c_let =>
      child1' <- match child1 with
                 | NULL => ret NULL
                 | Cnode _ _ _ _ _ _ => append_lev f child1
                 end ;;
      act_fid <- get (fun w => counter w ACT_FID) ;;
      new_vid <- get (fun w => counter w VID) ;;
      p0 <- var_of child0 ;;
      set_base p0 act_fid ;;
      set_vid p0 new_vid ;;
      set_used p0 false ;;
      modify (set_counter VID (new_vid + 1)) ;;
      child2' <- match child2 with
                 | NULL => ret NULL
                 | Cnode _ _ _ _ _ _ => append_lev f child2
                 end ;;
      ret (Cnode kind sem child0 child1' child2' child3)
    | _ =>
      (* for (i = 0; i < PFCNODE_MAXCHILD && c->child[i]; i++) *)
      match child0 with
      | NULL => ret c
      | Cnode _ _ _ _ _ _ =>
        child0' <- append_lev f child0 ;;
        match child1 with
        | NULL => ret (Cnode kind sem child0' child1 child2 child3)
        | Cnode _ _ _ _ _ _ =>
          child1' <- append_lev f child1 ;;
          match child2 with
          | NULL => ret (Cnode kind sem child0' child1' child2 child3)
          | Cnode _ _ _ _ _ _ =>
            child2' <- append_lev f child2 ;;
            match child3 with
            | NULL => ret (Cnode kind sem child0' child1' child2' child3)
            | Cnode _ _ _ _ _ _ =>
              child3' <- append_lev f child3 ;;
              ret (Cnode kind sem child0' child1' child2' child3')
            end
          end
        end
      end
    end
  end.

(** ** The driver *)

Definition PFprintMILtemp (f : FILE) (c : PFcnode_t) : M unit :=
  modify (set_way []) ;;
  modify (set_counter FID 0) ;;
  modify (set_counter ACT_FID 0) ;;
  modify (set_counter VID 0) ;;
  (* some bats and module get initialized, variables get bound *)
  init f ;;
  (* append_lev appends information to the core nodes and creates a
     var_usage table, which is later split in vu_fid and vu_vid *)
  fprintf f (cat ["{\n";
       "var_usage := bat(oid,oid);\n"]) [] ;;
  modify (fun w => {| files := files w; vars := vars w; way := way w;
                      counter := counter w; log := log w; slots := slots w;
                      var_usage := [] |}) ;;
  c' <- append_lev f c ;;
  (* the contents of var_usage will be sorted by fid and then refined
     (sorted) by vid *)
  fprintf f (cat ["var_usage := var_usage.unique.reverse;\n";
       "var_usage.access(BAT_READ);\n";
       "vu_fid := var_usage.mark(1000@0).reverse;\n";
       "vu_vid := var_usage.reverse.mark(1000@0).reverse;\n";
       "var_usage := nil;\n";
       "var sorting := vu_fid.reverse.sort.reverse;\n";
       "sorting := sorting.CTrefine(vu_vid);\n";
       "sorting := sorting.mark(1000@0).reverse;\n";
       "vu_vid := sorting.leftfetchjoin(vu_vid);\n";
       "vu_fid := sorting.leftfetchjoin(vu_fid);\n";
       "sorting := nil;\n";
       "}\n"]) [] ;;
  (* recursive translation of the core tree *)
  translate2MIL f 0 0 c' ;;
  (* print result in iter|pos|item representation *)
  print_output f ;;
  fprintf f "printf(\042mil-programm without crash finished :)\\n\042);\n" [].

End Translator.

(** ** The MIL fragments the translator emits, read as functions

    The claims on the generated code (effective boolean value, the checks of
    the attribute and element constructors, the order of the usage table)
    are about what the emitted MIL statements compute. The MIL operators are
    primitives of the execution engine, not part of the translator; they are
    modelled here over association lists, and each emitted fragment is
    transcribed statement by statement ([let x := ...] for [x := ...]). *)

Module MIL.

(** An object identifier. *)
Abbreviation oid := Z (only parsing).

(** A BAT is a list of BUNs (head, tail) in storage order. *)
Definition BAT (H T : Type) : Type := list (H * T).

(** Value equality as the engine tests it in selections and joins. *)
Class EqType (T : Type) : Type := same : T -> T -> bool.

Class Lawful (T : Type) {eq : EqType T} : Prop :=
  same_spec : forall x y : T, same x y = true <-> x = y.

#[global] Instance Z_EqType : EqType Z := Z.eqb.
#[global] Instance string_EqType : EqType string := String.eqb.
#[global] Instance bool_EqType : EqType bool := Bool.eqb.
#[global] Instance unit_EqType : EqType unit := fun _ _ => true.
(** Doubles: [dbl] values are read as rationals, compared by value. *)
#[global] Instance Q_EqType : EqType Q := Qeq_bool.
#[global] Instance prod_EqType {A B : Type} {ea : EqType A} {eb : EqType B} : EqType (A * B) :=
  fun x y => same (fst x) (fst y) && same (snd x) (snd y).

(** The kind column: the type tag of an item; for nodes and attributes it
    carries the fragment ([get_kind], [get_type], [get_fragment]). *)
Inductive kind_t : Type :=
| STR | INT | DBL | DEC | BOOL | QNAME
| NODE (frag : oid)
| ATTR (frag : oid).

Definition kind_eqb (a b : kind_t) : bool :=
  match a, b with
  | STR, STR | INT, INT | DBL, DBL | DEC, DEC | BOOL, BOOL | QNAME, QNAME => true
  | NODE x, NODE y => Z.eqb x y
  | ATTR x, ATTR y => Z.eqb x y
  | _, _ => false
  end.

#[global] Instance kind_EqType : EqType kind_t := kind_eqb.

(** [bat(void,T).seqbase(b)] holding the values [l]. *)
Fixpoint void {T : Type} (seqbase : oid) (l : list T) : BAT oid T :=
  match l with
  | [] => []
  | x :: r => (seqbase, x) :: void (seqbase + 1) r
  end.

Definition reverse {H T : Type} (b : BAT H T) : BAT T H :=
  map (fun x => (snd x, fst x)) b.

Definition mirror {H T : Type} (b : BAT H T) : BAT H H :=
  map (fun x => (fst x, fst x)) b.

Definition project {H T U : Type} (b : BAT H T) (v : U) : BAT H U :=
  map (fun x => (fst x, v)) b.

Definition count {H T : Type} (b : BAT H T) : Z := Z.of_nat (List.length b).

Definition sum {H : Type} (b : BAT H Z) : Z :=
  fold_right Z.add 0 (map snd b).

(** [b.mark(base)]: the tails become [base], [base + 1], ... *)
Fixpoint mark {H T : Type} (b : BAT H T) (seqbase : oid) : BAT H oid :=
  match b with
  | [] => []
  | x :: r => (fst x, seqbase) :: mark r (seqbase + 1)
  end.

(** The multiplex [[g](b)]: [g] on every tail. *)
Definition multiplex {H T U : Type} (g : T -> U) (b : BAT H T) : BAT H U :=
  map (fun x => (fst x, g (snd x))) b.

(** [b.ord_uselect(v)] (and [uselect]): the BUNs whose tail is [v], their
    tail dropped. *)
Definition ord_uselect {H T : Type} {eq : EqType T} (b : BAT H T) (v : T) : BAT H unit :=
  map (fun x => (fst x, tt)) (filter (fun x => same (snd x) v) b).

(** [l.leftjoin(r)] (and [join]): every match of a tail of [l] with a head
    of [r], in the order of [l]. *)
Definition leftjoin {A B C : Type} {eq : EqType B} (l : BAT A B) (r : BAT B C) : BAT A C :=
  flat_map (fun x => map (fun y => (fst x, snd y))
                         (filter (fun y => same (snd x) (fst y)) r)) l.

(** Positional lookup of one head. *)
Definition fetch {B C : Type} {eq : EqType B} (r : BAT B C) (k : B) : option C :=
  match find (fun y => same k (fst y)) r with
  | Some y => Some (snd y)
  | None => None
  end.

(** [l.leftfetchjoin(r)]: each tail of [l] looked up in [r]. *)
Definition leftfetchjoin {A B C : Type} {eq : EqType B} (l : BAT A B) (r : BAT B C) : BAT A C :=
  flat_map (fun x => match fetch r (snd x) with
                     | Some c => [(fst x, c)]
                     | None => []
                     end) l.

(** The first occurrence of every value. *)
Fixpoint distinct {T : Type} {eq : EqType T} (l : list T) : list T :=
  match l with
  | [] => []
  | x :: r => x :: filter (fun y => negb (same x y)) (distinct r)
  end.

(** [b.tunique]: the distinct tails, in the head column. *)
Definition tunique {H T : Type} {eq : EqType T} (b : BAT H T) : BAT T unit :=
  map (fun t => (t, tt)) (distinct (map snd b)).

(** [b.unique]: the distinct BUNs. *)
Definition unique {H T : Type} {eh : EqType H} {et : EqType T} (b : BAT H T) : BAT H T :=
  distinct b.

(** The pump [{count}(b, e)]: for every head of [e], the number of BUNs of
    [b] with that head. *)
Definition pump_count {H T U : Type} {eq : EqType H} (b : BAT H T) (e : BAT H U) : BAT H Z :=
  map (fun x => (fst x, Z.of_nat (List.length (filter (fun y => same (fst y) (fst x)) b)))) e.

(** [b.replace(r)]: the tail of a BUN of [b] whose head is in [r] becomes
    the tail [r] gives. *)
Definition replace {H T : Type} {eq : EqType H} (b : BAT H T) (r : BAT H T) : BAT H T :=
  map (fun x => match fetch r (fst x) with
                | Some t => (fst x, t)
                | None => x
                end) b.

(** [a.kdiff(b)]: the BUNs of [a] whose head is no head of [b]. *)
Definition kdiff {H T U : Type} {eq : EqType H} (a : BAT H T) (b : BAT H U) : BAT H T :=
  filter (fun x => negb (existsb (fun y => same (fst x) (fst y)) b)) a.

(** [merged_union (k1, k2, v1, v2)]: the two key columns merged in
    ascending order (the left one first on ties), each value column
    following its keys; the result is the pair of merged columns. *)
Fixpoint merge_rows {V : Type} (l1 : list (oid * V)) : list (oid * V) -> list (oid * V) :=
  fix inner (l2 : list (oid * V)) : list (oid * V) :=
    match l1, l2 with
    | [], _ => l2
    | _, [] => l1
    | x :: r1, y :: r2 =>
      if fst x <=? fst y then x :: merge_rows r1 l2 else y :: inner r2
    end.

Definition merged_union {V : Type} (k1 k2 : BAT oid oid) (v1 v2 : BAT oid V)
  : BAT oid oid * BAT oid V :=
  let rows := merge_rows (combine (map snd k1) (map snd v1))
                         (combine (map snd k2) (map snd v2)) in
  (void 0 (map fst rows), void 0 (map snd rows)).

(** Stable insertion of a BUN by a key, and the sort it gives. *)
Fixpoint insert_by {X : Type} (le : X -> X -> bool) (x : X) (l : list X) : list X :=
  match l with
  | [] => [x]
  | y :: r => if le x y then x :: l else y :: insert_by le x r
  end.

Definition sort_by {X : Type} (le : X -> X -> bool) (l : list X) : list X :=
  fold_right (insert_by le) [] l.

(** [b.sort]: ascending on the head. *)
Definition sort {T : Type} (b : BAT oid T) : BAT oid T :=
  sort_by (fun x y => fst x <=? fst y) b.

(** [b.CTrefine(a)]: [b] is ordered on its tail; the order is refined by
    the tail [a] gives to each head, and the new tail identifies the pair
    (it is modelled by the pair itself). *)
Definition CTrefine (b : BAT oid oid) (a : BAT oid oid) : BAT oid (oid * oid) :=
  let keyed := flat_map (fun x => match fetch a (fst x) with
                                  | Some v => [(fst x, (snd x, v))]
                                  | None => []
                                  end) b in
  sort_by (fun x y => (fst (snd x) <? fst (snd y))
                      || ((fst (snd x) =? fst (snd y)) && (snd (snd x) <=? snd (snd y))))
          keyed.

(** [CTgroup(b)] and [g.CTgroup(b)]: a group per distinct value (per
    distinct pair of an earlier group and a value). A group identifier is
    modelled by the values it stands for. *)
Definition CTgroup {T : Type} (b : BAT oid T) : BAT oid T := b.

Definition CTgroup2 {G T : Type} (g : BAT oid G) (b : BAT oid T) : BAT oid (G * T) :=
  flat_map (fun x => match fetch b (fst x) with
                     | Some v => [(fst x, (snd x, v))]
                     | None => []
                     end) g.

(** A table of the working set, [ws.fetch(T)]: one BAT per fragment,
    read as the lookup fragment, position to value. *)
Definition ws_table (T : Type) : Type := oid -> oid -> T.

(** [mposjoin(pos, frag, ws.fetch(T))]: row by row, the entry of the table
    of fragment [frag] at position [pos]. *)
Definition mposjoin {T : Type} (pos frag : BAT oid oid) (table : ws_table T) : BAT oid T :=
  flat_map (fun x => match fetch frag (fst x) with
                     | Some fr => [(fst x, table fr (snd x))]
                     | None => []
                     end) pos.

(** A raised [ERROR] ends the run of the generated program. *)
Inductive outcome (A : Type) : Type :=
| Done (a : A)
| ERROR (msg : string).
Arguments Done {A} a.
Arguments ERROR {A} msg.

(** The four literal tables the prelude declares. *)
Record values : Type := {
  str_values : BAT oid string;
  int_values : BAT oid Z;
  dbl_values : BAT oid Q;
  dec_values : BAT oid Q
}.

(** [bool_map] and [EMPTY_STRING] of [init]. *)
Definition bool_map : BAT bool oid := [(false, 0); (true, 1)].
Definition EMPTY_STRING : oid := 0.

(** *** fn:boolean ([translateFunction])

    The statements emitted after the argument has been translated; [loop]
    is the loop relation of the current level, [iter], [item], [kind] the
    result of the argument. *)
Definition fn_boolean (v : values) (loop iter item : BAT oid oid) (kind : BAT oid kind_t)
  : BAT oid oid * BAT oid oid * BAT oid oid * BAT oid kind_t :=
  let iter := reverse iter in
  let iter_count := pump_count iter (reverse loop) in
  let test := ord_uselect iter_count 1 in
  let trues := multiplex (fun c => negb (c =? 0)) iter_count in
  let item := leftfetchjoin iter item in
  let kind := leftfetchjoin iter kind in
  let test := mirror test in
  let test := leftjoin test kind in
  let str_test := ord_uselect test STR in
  let int_test := ord_uselect test INT in
  let dbl_test := ord_uselect test DBL in
  let dec_test := ord_uselect test DEC in
  let bool_test := ord_uselect test BOOL in
  let str_test := mirror str_test in
  let int_test := mirror int_test in
  let dbl_test := mirror dbl_test in
  let dec_test := mirror dec_test in
  let bool_test := mirror bool_test in
  let str_test := leftjoin str_test item in
  let int_test := leftjoin int_test item in
  let dec_test := leftjoin dec_test item in
  let dbl_test := leftjoin dbl_test item in
  let bool_test := leftjoin bool_test item in
  let str_test := leftfetchjoin str_test (str_values v) in
  let int_test := leftfetchjoin int_test (int_values v) in
  let dec_test := leftfetchjoin dec_test (dec_values v) in
  let dbl_test := leftfetchjoin dbl_test (dbl_values v) in
  let bool_test := ord_uselect bool_test 0 in
  let str_test := ord_uselect str_test EmptyString in
  let int_test := ord_uselect int_test 0 in
  let dec_test := ord_uselect dec_test 0%Q in
  let dbl_test := ord_uselect dbl_test 0%Q in
  let str_test := project str_test false in
  let int_test := project int_test false in
  let dec_test := project dec_test false in
  let dbl_test := project dbl_test false in
  let bool_test := project bool_test false in
  let trues := replace trues str_test in
  let trues := replace trues int_test in
  let trues := replace trues dec_test in
  let trues := replace trues dbl_test in
  let trues := replace trues bool_test in
  let trues := leftjoin trues bool_map in
  let iter := reverse (mark trues 0) in
  let pos := project iter 1 in
  let item := reverse (mark (reverse trues) 0) in
  let kind := project iter BOOL in
  (iter, pos, item, kind).

(** *** The content checks of [loop_liftedAttrConstr] *)

Definition attr_content_check (iter : BAT oid oid) (kind : BAT oid kind_t) : outcome unit :=
  let test := tunique iter in
  if negb (count test =? count (ord_uselect kind STR)) then
    ERROR "there can be only one string for each iter in attribute construction"
  else
    let test := pump_count (reverse iter) test in
    if negb (count test =? sum test) then
      ERROR "more than 1 argument in attribute constructor"
    else Done tt.

(** The statements of [loop_liftedAttrConstr] up to the completed [item]
    column: the two content checks, the test of the name result ([iter_i]
    is the saved [iter] of the name) and the empty string for every
    iteration that has no content. *)
Definition attr_content (loop iter item : BAT oid oid) (kind : BAT oid kind_t)
    (iter_i : BAT oid oid) : outcome (BAT oid oid) :=
  match attr_content_check iter kind with
  | ERROR msg => ERROR msg
  | Done _ =>
    if negb (count iter_i =? count loop) then
      ERROR "empty tagname is not allowed in attribute construction"
    else if negb (count iter =? count loop) then
      let difference := kdiff (reverse loop) (reverse iter) in
      let difference := reverse (mark difference 0) in
      let res_mu := merged_union iter difference item (project difference EMPTY_STRING) in
      let item := snd res_mu in
      Done item
    else Done item
  end.

(** *** The uniqueness test of [loop_liftedElemConstr]

    [attr_iter], [attr_item], [attr_frag] are the attribute items of the
    content; [names] says whether the name result is non-empty (it selects
    the message). *)
Definition attr_unique_check (ATTR_QN ATTR_FRAG : ws_table oid)
    (attr_iter attr_item attr_frag : BAT oid oid) (names : bool) : outcome unit :=
  let unq_attrs :=
    tunique (CTgroup2 (CTgroup2 (CTgroup attr_iter)
                                (mposjoin attr_item attr_frag ATTR_QN))
                      (mposjoin attr_item attr_frag ATTR_FRAG)) in
  if negb (count unq_attrs =? count attr_iter) then
    if names then
      ERROR "attributes are not unique in element construction of '%s' within each iter"
    else
      ERROR "attributes are not unique in element construction within each iter"
  else Done tt.

(** The qualified name of an attribute, as [print_output] and
    [loop_liftedSCJ] look it up: the entry [ATTR_QN] names, in the name
    tables of the fragment [ATTR_FRAG] names. *)
Definition attr_name (ATTR_QN ATTR_FRAG : ws_table oid) (QN_NS QN_LOC : ws_table string)
    (frag attr : oid) : string * string :=
  (QN_NS (ATTR_FRAG frag attr) (ATTR_QN frag attr),
   QN_LOC (ATTR_FRAG frag attr) (ATTR_QN frag attr)).

(** *** The usage table after [append_lev] ([PFprintMILtemp])

    [var_usage] holds the inserted (vid, fid) BUNs; the result is the pair
    ([vu_fid], [vu_vid]). *)
Definition vu_tables (var_usage : BAT oid oid) : BAT oid oid * BAT oid oid :=
  let var_usage := reverse (unique var_usage) in
  let vu_fid := reverse (mark var_usage 1000) in
  let vu_vid := reverse (mark (reverse var_usage) 1000) in
  let sorting := reverse (sort (reverse vu_fid)) in
  let sorting := CTrefine sorting vu_vid in
  let sorting := reverse (mark sorting 1000) in
  let vu_vid := leftfetchjoin sorting vu_vid in
  let vu_fid := leftfetchjoin sorting vu_fid in
  (vu_fid, vu_vid).

End MIL.

(** ** Properties of annotated trees and of traces *)

(** The children of a node are stored from slot 0 on. *)
Definition contiguous (c0 c1 c2 c3 : PFcnode_t) : bool :=
  match c0, c1, c2, c3 with
  | NULL, NULL, NULL, NULL => true
  | Cnode _ _ _ _ _ _, NULL, NULL, NULL => true
  | Cnode _ _ _ _ _ _, Cnode _ _ _ _ _ _, NULL, NULL => true
  | Cnode _ _ _ _ _ _, Cnode _ _ _ _ _ _, Cnode _ _ _ _ _ _, _ => true
  | _, _, _, _ => false
  end.

(** A variable (or, for the positional variable of a [for], a [nil]) node
    without children. *)
Definition var_leaf (c : PFcnode_t) : bool :=
  match c with
  | Cnode c_var _ NULL NULL NULL NULL => true
  | Cnode c_nil _ NULL NULL NULL NULL => true
  | _ => false
  end.

(** The shape of a Core tree: a [for] node binds in slots 0 and 1, a [let]
    node in slot 0, variables are leaves and other nodes store their
    children contiguously. *)
Fixpoint wf_core (c : PFcnode_t) : bool :=
  match c with
  | NULL => true
  | Cnode kind _ c0 c1 c2 c3 =>
    match kind with
    | c_var => var_leaf c
    | c_for => var_leaf c0 && var_leaf c1 && wf_core c2 && wf_core c3
    | c_let =>
      var_leaf c0 && wf_core c1 && wf_core c2
      && match c3 with NULL => true | _ => false end
    | _ => contiguous c0 c1 c2 c3 && wf_core c0 && wf_core c1 && wf_core c2 && wf_core c3
    end
  end.

(** The scope-id ordering as the claim states it: the id of every [for]
    node is greater than the ids of all [for] nodes above it in the tree
    ([above] holds them). *)
Fixpoint ancestor_order (above : list Z) (c : PFcnode_t) : bool :=
  match c with
  | NULL => true
  | Cnode kind sem c0 c1 c2 c3 =>
    match kind with
    | c_for =>
      match sem with
      | sem_num fid =>
        forallb (fun a => a <? fid) above
        && ancestor_order (fid :: above) c0 && ancestor_order (fid :: above) c1
        && ancestor_order (fid :: above) c2 && ancestor_order (fid :: above) c3
      | _ => false
      end
    | _ =>
      ancestor_order above c0 && ancestor_order above c1
      && ancestor_order above c2 && ancestor_order above c3
    end
  end.

(** The ordering the annotator gives: the id of every [for] node is greater
    than the ids of the [for] nodes whose body (slot 3) it lies in; the
    source expression of a [for] (slot 2) is outside the scope the node
    opens. *)
Fixpoint scope_order (inside : list Z) (c : PFcnode_t) : bool :=
  match c with
  | NULL => true
  | Cnode kind sem c0 c1 c2 c3 =>
    match kind with
    | c_for =>
      match sem with
      | sem_num fid =>
        forallb (fun a => a <? fid) inside
        && scope_order inside c0 && scope_order inside c1
        && scope_order inside c2 && scope_order (fid :: inside) c3
      | _ => false
      end
    | _ =>
      scope_order inside c0 && scope_order inside c1
      && scope_order inside c2 && scope_order inside c3
    end
  end.

(** The slots that are live after a trace of [saveResult] and
    [deleteResult] calls, the most recent first; [None] when a call breaks
    the stack discipline: a slot is saved at a number that is not greater
    than every live one, or a slot is deleted that is not the most recent
    live one. *)
Definition slot_step (live : list Z) (e : slot_event) : option (list Z) :=
  match e with
  | Save n => if forallb (fun l => l <? n) live then Some (n :: live) else None
  | Delete n =>
    match live with
    | top :: rest => if top =? n then Some rest else None
    | [] => None
    end
  end.

Fixpoint slot_run (live : list Z) (trace : list slot_event) : option (list Z) :=
  match trace with
  | [] => Some live
  | e :: rest =>
    match slot_step live e with
    | Some live' => slot_run live' rest
    | None => None
    end
  end.

Definition live_slots (w : world) : option (list Z) := slot_run [] (slots w).

(** The usage relation as the claim states it, read off an annotated tree:
    for a reference to a variable, one pair (vid, fid) for every [for]
    scope opened between the binding and the reference. [env] gives, for
    each visible variable, the scopes opened since its binding. *)
Definition env_t : Type := list (var_ptr * list Z).

Definition env_bind (c : PFcnode_t) (env : env_t) : env_t :=
  match c with
  | Cnode c_var (sem_var p) _ _ _ _ => (p, []) :: env
  | _ => env
  end.

Definition env_enter (fid : Z) (env : env_t) : env_t :=
  map (fun e => (fst e, fid :: snd e)) env.

Fixpoint env_find (p : var_ptr) (env : env_t) : option (list Z) :=
  match env with
  | [] => None
  | e :: rest => if Nat.eqb (fst e) p then Some (snd e) else env_find p rest
  end.

Fixpoint expected_usage (heap : var_ptr -> PFvar_t) (env : env_t) (c : PFcnode_t)
  : list (Z * Z) :=
  match c with
  | NULL => []
  | Cnode kind sem c0 c1 c2 c3 =>
    match kind with
    | c_var =>
      match sem with
      | sem_var p =>
        match env_find p env with
        | Some scopes => map (fun s => (vid (heap p), s)) scopes
        | None => []
        end
      | _ => []
      end
    | c_for =>
      (expected_usage heap env c2
       ++ match sem with
          | sem_num fid =>
            expected_usage heap (env_bind c1 (env_bind c0 (env_enter fid env))) c3
          | _ => []
          end)%list
    | c_let =>
      (expected_usage heap env c1 ++ expected_usage heap (env_bind c0 env) c2)%list
    | _ =>
      (expected_usage heap env c0 ++ expected_usage heap env c1
       ++ expected_usage heap env c2 ++ expected_usage heap env c3)%list
    end
  end.

(** The rows of a four-column result that belong to one iteration, as
    (item, kind) pairs. *)
Definition rows_of (i : Z) (rows : list (Z * Z * MIL.kind_t)) : list (Z * MIL.kind_t) :=
  map (fun r => (snd (fst r), snd r))
      (filter (fun r => Z.eqb (fst (fst r)) i) rows).

(** The number of rows of a four-column result that belong to the
    iterations listed in [D]. *)
Fixpoint rows_in (rows : list (Z * Z * MIL.kind_t)) (D : list Z) : nat :=
  match D with
  | [] => O
  | t :: D' => (List.length (rows_of t rows) + rows_in rows D')%nat
  end.

(** The effective boolean value of the items of one iteration, as the
    specification tabulates it: an empty sequence is false, a single
    boolean is itself, a single string, integer, double or decimal is false
    exactly when it is the empty string or zero, anything else is true. *)
Definition ebv (v : MIL.values) (items : list (Z * MIL.kind_t)) : bool :=
  match items with
  | [] => false
  | [(x, k)] =>
    match k with
    | MIL.BOOL => negb (x =? 0)
    | MIL.STR =>
      match MIL.fetch (MIL.str_values v) x with
      | Some s => negb (String.eqb s EmptyString)
      | None => true
      end
    | MIL.INT =>
      match MIL.fetch (MIL.int_values v) x with
      | Some n => negb (n =? 0)
      | None => true
      end
    | MIL.DBL =>
      match MIL.fetch (MIL.dbl_values v) x with
      | Some d => negb (Qeq_bool d 0)
      | None => true
      end
    | MIL.DEC =>
      match MIL.fetch (MIL.dec_values v) x with
      | Some d => negb (Qeq_bool d 0)
      | None => true
      end
    | _ => true
    end
  | _ => true
  end.

(** ** A sample environment and sample trees *)

Definition option_string_eqb (a b : option string) : bool :=
  match a, b with
  | Some x, Some y => String.eqb x y
  | None, None => true
  | _, _ => false
  end.

(** One choice of the external functions, to run the translator on
    examples: names are compared by URI and local part. *)
Definition sample_externals : externals :=
  {| fmt_g := fun d => (show_signed (Qnum d) ++ "/" ++ show_signed (Zpos (Qden d)))%string;
     PFesc_string := fun s => s;
     PFty_str := fun t => match t with PFty name => name end;
     PFqname_eq := fun a b =>
       if option_string_eqb (ns_uri (qn_ns a)) (ns_uri (qn_ns b))
          && option_string_eqb (qn_loc a) (qn_loc b)
       then 0 else 1;
     PFns_fn := {| ns_ns := Some "fn"%string;
                   ns_uri := Some "http://www.w3.org/2002/11/xquery-functions"%string |};
     PFns_pf := {| ns_ns := Some "pf"%string;
                   ns_uri := Some "http://www.inf.uni-konstanz.de/Pathfinder"%string |} |}.

(** The world before anything is written. *)
Definition world0 : world :=
  {| files := fun _ => EmptyString;
     vars := fun _ => {| base := 0; vid := 0; used := false |};
     way := []; counter := fun _ => 0; log := []; slots := []; var_usage := [] |}.

Definition leaf (kind : PFctype_t) (sem : sem_t) : PFcnode_t :=
  Cnode kind sem NULL NULL NULL NULL.

Definition node_empty : PFcnode_t := leaf c_empty sem_none.
Definition node_true : PFcnode_t := leaf c_true sem_none.
Definition node_var (p : var_ptr) : PFcnode_t := leaf c_var (sem_var p).

(** [(empty, true)] and [(true, empty)]. *)
Definition seq_empty_true : PFcnode_t := Cnode c_seq sem_none node_empty node_true NULL NULL.
Definition seq_true_empty : PFcnode_t := Cnode c_seq sem_none node_true node_empty NULL NULL.

(** [if (true) then true else empty]. *)
Definition if_true_true_empty : PFcnode_t :=
  Cnode c_ifthenelse sem_none node_true node_true node_empty NULL.

(** [for $v0 in (for $v1 in () return ()) return ()]. *)
Definition for_in_source : PFcnode_t :=
  Cnode c_for sem_none (node_var 0%nat) (leaf c_nil sem_none)
    (Cnode c_for sem_none (node_var 1%nat) (leaf c_nil sem_none) node_empty node_empty)
    node_empty.

(** [for $v0 in () return (for $v1 in () return ())]. *)
Definition for_in_body : PFcnode_t :=
  Cnode c_for sem_none (node_var 0%nat) (leaf c_nil sem_none) node_empty
    (Cnode c_for sem_none (node_var 1%nat) (leaf c_nil sem_none) node_empty node_empty).

(** [for $v0 in () return let $v1 := () return for $v2 in () return $v1]. *)
Definition let_inside_for : PFcnode_t :=
  Cnode c_for sem_none (node_var 0%nat) (leaf c_nil sem_none) node_empty
    (Cnode c_let sem_none (node_var 1%nat) node_empty
       (Cnode c_for sem_none (node_var 2%nat) (leaf c_nil sem_none) node_empty (node_var 1%nat))
       NULL).

(** [fn:doc] applied to nothing the translator knows: a function named
    [local:f]. *)
Definition unknown_function : PFqname_t :=
  {| qn_ns := {| ns_ns := Some "local"%string; ns_uri := Some "urn:local"%string |};
     qn_loc := Some "f"%string |}.

Definition apply_unknown : PFcnode_t :=
  Cnode c_apply (sem_fun {| fun_qname := unknown_function |}) node_true NULL NULL NULL.

(** [(true, true)]: a sequence that needs a saved slot. *)
Definition seq_true_true : PFcnode_t := Cnode c_seq sem_none node_true node_true NULL NULL.

(** The function names [translateFunction] has a translation for. *)
Definition builtin_names (E : externals) : list PFqname_t :=
  [ PFqname (PFns_fn E) "doc";
    PFqname (PFns_pf E) "distinct-doc-order";
    PFqname (PFns_fn E) "count";
    PFqname (PFns_fn E) "empty";
    PFqname (PFns_fn E) "not";
    PFqname (PFns_fn E) "boolean" ].

Definition recognized (E : externals) (fnQname : PFqname_t) : bool :=
  existsb (fun b => PFqname_eq E fnQname b =? 0) (builtin_names E).

(** The abort of [translateLocsteps] on an axis it does not know. *)
Definition illegal_axis {A : Type} : result A :=
  Oops OOPS_FATAL "illegal XPath axis in MIL-translation".

(** A run that does not end in the illegal-axis abort. *)
Definition legal_axis {A : Type} (m : M A) : Prop :=
  forall w, fst (m w) <> illegal_axis.

(** A run that calls neither [saveResult] nor [deleteResult]. *)
Definition quiet {A : Type} (m : M A) : Prop :=
  forall w r w', m w = (r, w') -> slots w' = slots w.

(** A run that starts with the live slots [before] keeps the discipline
    (the trace stays valid, also when the run is cut short by an abort) and,
    when it returns, leaves the live slots [after]. *)
Definition slot_triple {A : Type} (before : list Z) (m : M A) (after : list Z) : Prop :=
  forall w r w',
    live_slots w = Some before -> m w = (r, w') ->
    (exists l, live_slots w' = Some l)
    /\ (forall a, r = Ok a -> live_slots w' = Some after).

(** What the proof needs of the translation of a subtree. *)
Definition keeps_slots (tr : FILE -> Z -> Z -> PFcnode_t -> M unit) (c : PFcnode_t) : Prop :=
  forall f l cnt live,
    Forall (fun x => x <= cnt) live -> slot_triple live (tr f l cnt c) live.

(** What [append_lev] does to the world on a subtree, and the order of the
    scope ids it stores there. *)
Definition annotated (E : externals) (f : FILE) (c : PFcnode_t) : Prop :=
  forall w c' w',
    wf_core c = true ->
    append_lev E f c w = (Ok c', w') ->
    way w' = way w
    /\ counter w FID <= counter w' FID
    /\ forall inside,
         Forall (fun a => a <= counter w FID) inside -> scope_order inside c' = true.


(** ** What a run leaves alone *)

(** Every run of [m] relates the world it starts in to the world it ends
    in by [R], also when it is cut short by an abort. *)
Definition respects {A : Type} (R : world -> world -> Prop) (m : M A) : Prop :=
  forall w r w', m w = (r, w') -> R w w'.

(** The annotation of [append_lev] is the same in both worlds: the variable
    descriptors, the two arrays and the usage pairs. *)
Definition same_annotation (w w' : world) : Prop :=
  vars w' = vars w /\ way w' = way w /\ counter w' = counter w
  /\ var_usage w' = var_usage w.

(** Every stream of [w'] starts with the text it holds in [w]. *)
Definition extends (w w' : world) : Prop :=
  forall g, exists s, files w' g = (files w g ++ s)%string.

Definition is_c_ifthenelse (k : PFctype_t) : bool :=
  match k with c_ifthenelse => true | _ => false end.

(** A tree without a conditional. *)
Fixpoint ifthenelse_free (c : PFcnode_t) : bool :=
  match c with
  | NULL => true
  | Cnode kind _ c0 c1 c2 c3 =>
    negb (is_c_ifthenelse kind)
    && ifthenelse_free c0 && ifthenelse_free c1
    && ifthenelse_free c2 && ifthenelse_free c3
  end.

(** The twelve axis kinds of a location step. *)
Definition is_axis (k : PFctype_t) : bool :=
  match k with
  | c_ancestor | c_ancestor_or_self | c_attribute | c_child | c_descendant
  | c_descendant_or_self | c_following | c_following_sibling | c_parent
  | c_preceding | c_preceding_sibling | c_self => true
  | _ => false
  end.

(** The number of [for] nodes of a tree. *)
Fixpoint count_for (c : PFcnode_t) : Z :=
  match c with
  | NULL => 0
  | Cnode kind _ c0 c1 c2 c3 =>
    (match kind with c_for => 1 | _ => 0 end)
    + count_for c0 + count_for c1 + count_for c2 + count_for c3
  end.

(** The number of variables a tree binds: one per [let], one per [for] and
    one more for a [for] with a positional variable. *)
Fixpoint count_binders (c : PFcnode_t) : Z :=
  match c with
  | NULL => 0
  | Cnode kind _ c0 c1 c2 c3 =>
    (match kind with
     | c_let => 1
     | c_for => match c1 with
                | Cnode c_var _ _ _ _ _ => 2
                | _ => 1
                end
     | _ => 0
     end)
    + count_binders c0 + count_binders c1 + count_binders c2 + count_binders c3
  end.

(** What [append_lev] does to its two counters and to the stack of scope
    ids on a subtree. *)
Definition counted (E : externals) (f : FILE) (c : PFcnode_t) : Prop :=
  forall w c' w',
    wf_core c = true ->
    append_lev E f c w = (Ok c', w') ->
    counter w' FID = counter w FID + count_for c
    /\ counter w' VID = counter w VID + count_binders c
    /\ way w' = way w.

(** A list of scope ids read from the top of the stack down: every id is
    greater than the ids below it. *)
Fixpoint descending (l : list Z) : bool :=
  match l with
  | [] => true
  | x :: below => forallb (fun y => y <? x) below && descending below
  end.

(** The order of the usage table: by scope id, then by variable id. *)
Definition fid_vid_le (a b : Z * Z) : Prop :=
  fst a < fst b \/ (fst a = fst b /\ snd a <= snd b).

Definition is_c_for (k : PFctype_t) : bool :=
  match k with c_for => true | _ => false end.

(** Two trees that differ at most in what the [for] nodes store. *)
Fixpoint same_shape (c c' : PFcnode_t) : Prop :=
  match c, c' with
  | NULL, NULL => True
  | Cnode k s c0 c1 c2 c3, Cnode k' s' d0 d1 d2 d3 =>
    k = k' /\ (is_c_for k = false -> s = s')
    /\ same_shape c0 d0 /\ same_shape c1 d1 /\ same_shape c2 d2 /\ same_shape c3 d3
  | _, _ => False
  end.

(** What the proof of the shape needs of a subtree. *)
Definition shaped (E : externals) (f : FILE) (c : PFcnode_t) : Prop :=
  forall w c' w', append_lev E f c w = (Ok c', w') -> same_shape c c'.

(** * Facts *)

Arguments sprintf : simpl never.

(** ** The monad *)

Lemma bind_ok {A B : Type} (m : M A) (k : A -> M B) (w w1 : world) (a : A) :
  m w = (Ok a, w1) -> bind m k w = k a w1.
Proof. intros H. unfold bind. rewrite H. reflexivity. Qed.

Lemma bind_inv {A B : Type} (m : M A) (k : A -> M B) (w w' : world) (r : result B) :
  bind m k w = (r, w') ->
  (exists a w1, m w = (Ok a, w1) /\ k a w1 = (r, w'))
  \/ (m w = (Fault, w') /\ r = Fault)
  \/ (exists rc msg, m w = (Oops rc msg, w') /\ r = Oops rc msg).
Proof.
  unfold bind. destruct (m w) as [[a | rc msg | ] w1]; intros H.
  - left. exists a, w1. split; [reflexivity | exact H].
  - right. right. inversion H; subst. exists rc, msg. split; reflexivity.
  - right. left. inversion H; subst. split; reflexivity.
Qed.

Lemma bind_ok_inv {A B : Type} (m : M A) (k : A -> M B) (w w' : world) (b : B) :
  bind m k w = (Ok b, w') ->
  exists a w1, m w = (Ok a, w1) /\ k a w1 = (Ok b, w').
Proof.
  intros H. destruct (bind_inv _ _ _ _ _ H) as [H1 | [[_ H1] | [rc [msg [_ H1]]]]].
  - exact H1.
  - discriminate H1.
  - discriminate H1.
Qed.

(** ** Sequence concatenation with a statically empty operand *)

Section SeqFacts.

Variable E : externals.

Lemma translate2MIL_seq (f : FILE) (l cnt : Z) (s : sem_t) (c0 c1 c2 c3 : PFcnode_t) :
  translate2MIL E f l cnt (Cnode c_seq s c0 c1 c2 c3) =
  (k0 <- kind_of c0 ;;
   k1 <- kind_of c1 ;;
   if is_c_empty k0 && negb (is_c_empty k1) then translateEmpty E f
   else if is_c_empty k0 then translate2MIL E f l cnt c1
   else if is_c_empty k1 then translate2MIL E f l cnt c0
   else
     translate2MIL E f l cnt c0 ;;
     saveResult E f (cnt + 1) ;;
     translate2MIL E f l (cnt + 1) c1 ;;
     translateSeq E f (cnt + 1) ;;
     deleteResult E f (cnt + 1)).
Proof. reflexivity. Qed.

(** A sequence whose right operand is the empty sequence translates as its
    left operand. *)
Lemma seq_empty_right (f : FILE) (l cnt : Z) (s se : sem_t) (k : PFctype_t) (sx : sem_t)
    (x0 x1 x2 x3 e0 e1 e2 e3 c2 c3 : PFcnode_t) (w : world) :
  translate2MIL E f l cnt
    (Cnode c_seq s (Cnode k sx x0 x1 x2 x3) (Cnode c_empty se e0 e1 e2 e3) c2 c3) w
  = translate2MIL E f l cnt (Cnode k sx x0 x1 x2 x3) w.
Proof.
  rewrite translate2MIL_seq.
  remember (Cnode k sx x0 x1 x2 x3) as X eqn:HX.
  remember (Cnode c_empty se e0 e1 e2 e3) as Y eqn:HY.
  assert (HkX : kind_of X = ret k) by (subst X; reflexivity).
  assert (HkY : kind_of Y = ret c_empty) by (subst Y; reflexivity).
  rewrite HkX, HkY.
  unfold bind, ret. cbn [is_c_empty negb andb].
  rewrite andb_false_r.
  destruct (is_c_empty k) eqn:Hk.
  - destruct k; try discriminate Hk.
    subst X Y. reflexivity.
  - reflexivity.
Qed.

(** A sequence whose left operand is the empty sequence and whose right
    operand is not translates as the empty sequence: the right operand is
    not translated. *)
Lemma seq_empty_left (f : FILE) (l cnt : Z) (s se : sem_t) (k : PFctype_t) (sx : sem_t)
    (x0 x1 x2 x3 e0 e1 e2 e3 c2 c3 : PFcnode_t) (w : world) :
  is_c_empty k = false ->
  translate2MIL E f l cnt
    (Cnode c_seq s (Cnode c_empty se e0 e1 e2 e3) (Cnode k sx x0 x1 x2 x3) c2 c3) w
  = translateEmpty E f w.
Proof.
  intros Hk. rewrite translate2MIL_seq.
  remember (Cnode k sx x0 x1 x2 x3) as X eqn:HX.
  remember (Cnode c_empty se e0 e1 e2 e3) as Y eqn:HY.
  assert (HkX : kind_of X = ret k) by (subst X; reflexivity).
  assert (HkY : kind_of Y = ret c_empty) by (subst Y; reflexivity).
  rewrite HkX, HkY.
  unfold bind, ret. cbn [is_c_empty negb andb]. rewrite Hk. reflexivity.
Qed.

End SeqFacts.

(** C1 (code defect): for X the literal [true], the node (X, empty)
    translates to the text of X, but the node (empty, X) translates to the
    text of the empty sequence, which is not the text of X. *)
Theorem seq_empty_left_drops_operand :
  files (snd (translate2MIL sample_externals (stream 0) 0 0 seq_true_empty world0)) (stream 0)
    = files (snd (translate2MIL sample_externals (stream 0) 0 0 node_true world0)) (stream 0)
  /\ translate2MIL sample_externals (stream 0) 0 0 seq_empty_true world0
    = translateEmpty sample_externals (stream 0) world0
  /\ files (snd (translate2MIL sample_externals (stream 0) 0 0 seq_empty_true world0)) (stream 0)
    <> files (snd (translate2MIL sample_externals (stream 0) 0 0 node_true world0)) (stream 0).
Proof.
  split; [| split].
  - unfold seq_true_empty, node_true, node_empty, leaf.
    rewrite seq_empty_right. reflexivity.
  - unfold seq_empty_true, node_true, node_empty, leaf.
    apply seq_empty_left. reflexivity.
  - intros H. vm_compute in H. discriminate H.
Qed.

(** C2 (code defect): translating [if (true) then true else empty] to the
    stream 0 leaves the line that closes the block of the if-then-else on
    standard output; it is not part of the text written to the stream. *)
Theorem ifthenelse_end_marker_on_stdout :
  fst (translate2MIL sample_externals (stream 0) 0 0 if_true_true_empty world0) = Ok tt
  /\ files (snd (translate2MIL sample_externals (stream 0) 0 0 if_true_true_empty world0)) stdout
     = sprintf (fmt_g sample_externals) "} # end of ifthenelse-translation\n" []
  /\ files world0 stdout = EmptyString.
Proof.
  split; [| split]; vm_compute; reflexivity.
Qed.

(** ** Function application *)

Section ApplyFacts.

Variable E : externals.

Lemma recognized_false (fn : PFqname_t) :
  recognized E fn = false ->
  (PFqname_eq E fn (PFqname (PFns_fn E) "doc") =? 0) = false
  /\ (PFqname_eq E fn (PFqname (PFns_pf E) "distinct-doc-order") =? 0) = false
  /\ (PFqname_eq E fn (PFqname (PFns_fn E) "count") =? 0) = false
  /\ (PFqname_eq E fn (PFqname (PFns_fn E) "empty") =? 0) = false
  /\ (PFqname_eq E fn (PFqname (PFns_fn E) "not") =? 0) = false
  /\ (PFqname_eq E fn (PFqname (PFns_fn E) "boolean") =? 0) = false.
Proof.
  unfold recognized, builtin_names. cbn [existsb].
  intros H.
  repeat (apply orb_false_elim in H; destruct H as [? H]).
  repeat split; assumption.
Qed.


End ApplyFacts.


(** ** Location steps *)

Section StepFacts.

Variable E : externals.

Lemma legal_axis_bind {A B : Type} (m : M A) (k : A -> M B) :
  legal_axis m -> (forall a, legal_axis (k a)) -> legal_axis (bind m k).
Proof.
  unfold legal_axis, bind. intros Hm Hk w. specialize (Hm w).
  destruct (m w) as [[a | rc msg | ] w1]; cbn in *.
  - apply Hk.
  - intros H. apply Hm. unfold illegal_axis in *. inversion H. reflexivity.
  - discriminate.
Qed.

Lemma legal_axis_modify (g : world -> world) : legal_axis (modify g).
Proof. intros w. cbn. discriminate. Qed.

Lemma legal_axis_fprintf (f : FILE) (fmt : string) (args : list printf_arg) :
  legal_axis (fprintf E f fmt args).
Proof. apply legal_axis_modify. Qed.

Lemma legal_axis_ret {A : Type} (a : A) : legal_axis (ret a).
Proof. intros w. cbn. discriminate. Qed.

Lemma legal_axis_fault {A : Type} : legal_axis (@fault A).
Proof. intros w. cbn. discriminate. Qed.

Lemma legal_axis_node_test {A : Type} :
  legal_axis (@PFoops A OOPS_FATAL "illegal node test in MIL-translation").
Proof. intros w. cbn. unfold illegal_axis. discriminate. Qed.

Ltac legal :=
  repeat first
    [ apply legal_axis_fprintf
    | apply legal_axis_ret
    | apply legal_axis_fault
    | apply legal_axis_node_test
    | apply legal_axis_bind; [| intros ? ]
    | match goal with
      | |- legal_axis (match ?x with _ => _ end) => destruct x
      | |- legal_axis (if ?b then _ else _) => destruct b
      end ].

Lemma legal_axis_SCJ (f : FILE) (axis : string) (kind ns loc : option string) :
  legal_axis (loop_liftedSCJ E f axis kind ns loc).
Proof. unfold loop_liftedSCJ. legal. Qed.


End StepFacts.

(** ** Saved-result slots *)

Lemma slot_run_app (t1 t2 : list slot_event) (live : list Z) :
  slot_run live (t1 ++ t2) =
  match slot_run live t1 with
  | Some live1 => slot_run live1 t2
  | None => None
  end.
Proof.
  revert live. induction t1 as [| e t1 IH]; intros live; cbn [app slot_run].
  - reflexivity.
  - destruct (slot_step live e) as [live' |]; [apply IH | reflexivity].
Qed.

Lemma live_slots_add (e : slot_event) (w : world) (live : list Z) :
  live_slots w = Some live ->
  live_slots (add_slot e w) = slot_step live e.
Proof.
  unfold live_slots. cbn [slots add_slot]. intros H.
  rewrite slot_run_app, H. cbn [slot_run].
  destruct (slot_step live e); reflexivity.
Qed.

Section SlotFacts.

Variable E : externals.

Lemma quiet_bind {A B : Type} (m : M A) (k : A -> M B) :
  quiet m -> (forall a, quiet (k a)) -> quiet (bind m k).
Proof.
  unfold quiet. intros Hm Hk w r w' H.
  destruct (bind_inv _ _ _ _ _ H) as [(a & w1 & H1 & H2) | [[H1 _] | (rc & msg & H1 & _)]].
  - rewrite (Hk _ _ _ _ H2). exact (Hm _ _ _ H1).
  - exact (Hm _ _ _ H1).
  - exact (Hm _ _ _ H1).
Qed.

Lemma quiet_ret {A : Type} (a : A) : quiet (ret a).
Proof. intros w r w' H. inversion H. reflexivity. Qed.

Lemma quiet_fault {A : Type} : quiet (@fault A).
Proof. intros w r w' H. inversion H. reflexivity. Qed.

Lemma quiet_PFoops {A : Type} (rc : PFrc_t) (msg : string) : quiet (@PFoops A rc msg).
Proof. intros w r w' H. inversion H. reflexivity. Qed.

Lemma quiet_get {A : Type} (g : world -> A) : quiet (get g).
Proof. intros w r w' H. inversion H. reflexivity. Qed.

Lemma quiet_fprintf (f : FILE) (fmt : string) (args : list printf_arg) :
  quiet (fprintf E f fmt args).
Proof. intros w r w' H. inversion H. reflexivity. Qed.

Lemma quiet_PFlog (msg : string) : quiet (PFlog msg).
Proof. intros w r w' H. inversion H. reflexivity. Qed.

Ltac quiet_step :=
  lazymatch goal with
  | |- quiet (fprintf _ _ _ _) => apply quiet_fprintf
  | |- quiet (printf _ _ _) => apply quiet_fprintf
  | |- quiet (ret _) => apply quiet_ret
  | |- quiet fault => apply quiet_fault
  | |- quiet (PFoops _ _) => apply quiet_PFoops
  | |- quiet (get _) => apply quiet_get
  | |- quiet (PFlog _) => apply quiet_PFlog
  | |- quiet (bind _ _) => apply quiet_bind; [| intros ? ]
  | |- quiet (match ?x with _ => _ end) => destruct x
  | |- quiet (let _ := _ in _) => cbv zeta
  end.

Ltac quiet_tac := repeat quiet_step.

Lemma quiet_kind_of (c : PFcnode_t) : quiet (kind_of c).
Proof. unfold kind_of. quiet_tac. Qed.

Lemma quiet_deref_var (c : PFcnode_t) : quiet (deref_var c).
Proof. unfold deref_var, var_of. quiet_tac. Qed.

Lemma quiet_translateEmpty (f : FILE) : quiet (translateEmpty E f).
Proof. unfold translateEmpty. quiet_tac. Qed.

Lemma quiet_cleanUpLevel (f : FILE) (l : Z) : quiet (cleanUpLevel E f l).
Proof. unfold cleanUpLevel. quiet_tac. Qed.

Lemma quiet_translateVar (f : FILE) (l : Z) (c : PFcnode_t) : quiet (translateVar E f l c).
Proof.
  unfold translateVar.
  repeat first [ lazymatch goal with |- quiet (deref_var _) => apply quiet_deref_var end
               | quiet_step ].
Qed.

Lemma quiet_translateSeq (f : FILE) (i : Z) : quiet (translateSeq E f i).
Proof. unfold translateSeq. quiet_tac. Qed.

Lemma quiet_project (f : FILE) (l : Z) : quiet (project E f l).
Proof. unfold project. quiet_tac. Qed.

Lemma quiet_getExpanded (f : FILE) (l fid : Z) : quiet (getExpanded E f l fid).
Proof. unfold getExpanded. quiet_tac. Qed.

Lemma quiet_expand (f : FILE) (l : Z) : quiet (expand E f l).
Proof. unfold expand. quiet_tac. Qed.

Lemma quiet_join (f : FILE) (l : Z) : quiet (join E f l).
Proof. unfold join. quiet_tac. Qed.

Lemma quiet_mapBack (f : FILE) (l : Z) : quiet (mapBack E f l).
Proof. unfold mapBack. quiet_tac. Qed.

Lemma quiet_createNewVarTable (f : FILE) (l : Z) : quiet (createNewVarTable E f l).
Proof. unfold createNewVarTable. quiet_tac. Qed.

Lemma quiet_insertVar (f : FILE) (l v : Z) : quiet (insertVar E f l v).
Proof. unfold insertVar, append. quiet_tac. Qed.

Lemma quiet_translateConst (f : FILE) (l : Z) (k : string) : quiet (translateConst E f l k).
Proof. unfold translateConst. quiet_tac. Qed.

Lemma quiet_loop_liftedSCJ (f : FILE) (axis : string) (kind ns loc : option string) :
  quiet (loop_liftedSCJ E f axis kind ns loc).
Proof. unfold loop_liftedSCJ. quiet_tac. Qed.

Lemma quiet_translateLocsteps (f : FILE) (c : PFcnode_t) : quiet (translateLocsteps E f c).
Proof.
  unfold translateLocsteps, qname_of.
  repeat first [ lazymatch goal with
                 | |- quiet (loop_liftedSCJ _ _ _ _ _ _) => apply quiet_loop_liftedSCJ
                 end
               | quiet_step ].
Qed.

Lemma quiet_addValues (f : FILE) (t v : string) : quiet (addValues E f t v).
Proof. unfold addValues. quiet_tac. Qed.

Lemma quiet_createEnumeration (f : FILE) : quiet (createEnumeration E f).
Proof.
  unfold createEnumeration.
  repeat first [ lazymatch goal with |- quiet (addValues _ _ _ _) => apply quiet_addValues end
               | quiet_step ].
Qed.

Lemma quiet_castQName (f : FILE) : quiet (castQName E f).
Proof. unfold castQName. quiet_tac. Qed.

Lemma quiet_loop_liftedElemConstr (f : FILE) (i : Z) : quiet (loop_liftedElemConstr E f i).
Proof. unfold loop_liftedElemConstr. quiet_tac. Qed.

Lemma quiet_loop_liftedAttrConstr (f : FILE) (l i : Z) : quiet (loop_liftedAttrConstr E f l i).
Proof. unfold loop_liftedAttrConstr. quiet_tac. Qed.

Lemma quiet_loop_liftedTextConstr (f : FILE) : quiet (loop_liftedTextConstr E f).
Proof. unfold loop_liftedTextConstr. quiet_tac. Qed.

Lemma triple_quiet {A : Type} (m : M A) (live : list Z) :
  quiet m -> slot_triple live m live.
Proof.
  intros Hq w r w' Hl H. unfold live_slots in *. rewrite (Hq _ _ _ H).
  split; [exists live; exact Hl | intros _ _; exact Hl].
Qed.

Lemma triple_bind {A B : Type} (m : M A) (k : A -> M B) (l0 l1 l2 : list Z) :
  slot_triple l0 m l1 -> (forall a, slot_triple l1 (k a) l2) ->
  slot_triple l0 (bind m k) l2.
Proof.
  intros Hm Hk w r w' Hl H.
  destruct (bind_inv _ _ _ _ _ H) as [(a & w1 & H1 & H2) | [[H1 Hr] | (rc & msg & H1 & Hr)]].
  - destruct (Hm _ _ _ Hl H1) as [_ Hok].
    exact (Hk a _ _ _ (Hok a eq_refl) H2).
  - destruct (Hm _ _ _ Hl H1) as [Hex _].
    split; [exact Hex | intros a Ha; subst r; discriminate Ha].
  - destruct (Hm _ _ _ Hl H1) as [Hex _].
    split; [exact Hex | intros a Ha; subst r; discriminate Ha].
Qed.

Lemma triple_saveResult (f : FILE) (n : Z) (live : list Z) :
  Forall (fun x => x < n) live ->
  slot_triple live (saveResult E f n) (n :: live).
Proof.
  intros Hlt. unfold saveResult.
  eapply triple_bind with (l1 := n :: live).
  - intros w r w' Hl H. inversion H; subst.
    rewrite (live_slots_add _ _ _ Hl). cbn [slot_step].
    assert (Hall : forallb (fun l => l <? n) live = true).
    { apply forallb_forall. intros x Hx. apply Z.ltb_lt.
      rewrite Forall_forall in Hlt. exact (Hlt x Hx). }
    rewrite Hall. split; [eexists; reflexivity | intros _ _; reflexivity].
  - intros _. apply triple_quiet. quiet_tac.
Qed.

Lemma triple_deleteResult (f : FILE) (n : Z) (live : list Z) :
  slot_triple (n :: live) (deleteResult E f n) live.
Proof.
  unfold deleteResult.
  eapply triple_bind with (l1 := live).
  - intros w r w' Hl H. inversion H; subst.
    rewrite (live_slots_add _ _ _ Hl). cbn [slot_step].
    rewrite Z.eqb_refl. split; [eexists; reflexivity | intros _ _; reflexivity].
  - intros _. apply triple_quiet. quiet_tac.
Qed.

Lemma Forall_le_lt_succ (cnt : Z) (live : list Z) :
  Forall (fun x => x <= cnt) live -> Forall (fun x => x < cnt + 1) live.
Proof. apply Forall_impl. intros x Hx. lia. Qed.

Lemma Forall_le_push (cnt : Z) (live : list Z) :
  Forall (fun x => x <= cnt) live -> Forall (fun x => x <= cnt + 1) (cnt + 1 :: live).
Proof.
  intros H. constructor; [lia |].
  revert H. apply Forall_impl. intros x Hx. lia.
Qed.

Ltac quiet_known :=
  lazymatch goal with
  | |- quiet (translateEmpty _ _) => apply quiet_translateEmpty
  | |- quiet (cleanUpLevel _ _ _) => apply quiet_cleanUpLevel
  | |- quiet (translateVar _ _ _ _) => apply quiet_translateVar
  | |- quiet (translateSeq _ _ _) => apply quiet_translateSeq
  | |- quiet (project _ _ _) => apply quiet_project
  | |- quiet (getExpanded _ _ _ _) => apply quiet_getExpanded
  | |- quiet (expand _ _ _) => apply quiet_expand
  | |- quiet (join _ _ _) => apply quiet_join
  | |- quiet (mapBack _ _ _) => apply quiet_mapBack
  | |- quiet (createNewVarTable _ _ _) => apply quiet_createNewVarTable
  | |- quiet (insertVar _ _ _ _) => apply quiet_insertVar
  | |- quiet (translateConst _ _ _ _) => apply quiet_translateConst
  | |- quiet (translateLocsteps _ _ _) => apply quiet_translateLocsteps
  | |- quiet (addValues _ _ _ _) => apply quiet_addValues
  | |- quiet (createEnumeration _ _) => apply quiet_createEnumeration
  | |- quiet (castQName _ _) => apply quiet_castQName
  | |- quiet (loop_liftedElemConstr _ _ _) => apply quiet_loop_liftedElemConstr
  | |- quiet (loop_liftedAttrConstr _ _ _ _) => apply quiet_loop_liftedAttrConstr
  | |- quiet (loop_liftedTextConstr _ _) => apply quiet_loop_liftedTextConstr
  | |- quiet (loop_liftedSCJ _ _ _ _ _ _) => apply quiet_loop_liftedSCJ
  | |- quiet (kind_of _) => apply quiet_kind_of
  | |- quiet (deref_var _) => apply quiet_deref_var
  end.

Ltac quiet_all := repeat first [ quiet_known | quiet_step ].

(** One step of a chain of binds whose head is quiet. *)
Ltac skip_quiet :=
  eapply triple_bind; [ apply triple_quiet; solve [ quiet_all ] | intros ? ].

Ltac split_if :=
  match goal with
  | |- slot_triple _ (if ?b then _ else _) _ => destruct b
  end.

Lemma translateIfThen_slots (tr : FILE -> Z -> Z -> PFcnode_t -> M unit) (c : PFcnode_t)
    (f : FILE) (l cnt then_ bool_res : Z) (live : list Z) :
  keeps_slots tr c ->
  Forall (fun x => x <= cnt) live ->
  slot_triple live (translateIfThen E tr f l cnt c then_ bool_res) live.
Proof.
  intros Htr Hlive. unfold translateIfThen. cbv zeta.
  repeat skip_quiet.
  eapply triple_bind; [apply Htr; exact Hlive | intros ?].
  repeat skip_quiet.
  apply triple_quiet. quiet_all.
Qed.

Lemma translateFunction_slots (tr : FILE -> Z -> Z -> PFcnode_t -> M unit)
    (args : PFcnode_t) (f : FILE) (l cnt : Z) (fn : PFqname_t) (live : list Z) :
  (forall k s a0 a1 a2 a3, args = Cnode k s a0 a1 a2 a3 -> keeps_slots tr a0) ->
  Forall (fun x => x <= cnt) live ->
  slot_triple live (translateFunction E tr f l cnt fn args) live.
Proof.
  intros Htr Hlive.
  assert (Harg : slot_triple live (translate_child0 tr f l cnt args) live).
  { unfold translate_child0. destruct args as [| k s a0 a1 a2 a3].
    - apply triple_quiet. quiet_all.
    - apply (Htr k s a0 a1 a2 a3 eq_refl). exact Hlive. }
  unfold translateFunction.
  repeat match goal with
         | |- slot_triple _ (if ?b then _ else _) _ => destruct b
         end;
    try (eapply triple_bind; [exact Harg | intros ?]);
    repeat skip_quiet; apply triple_quiet; quiet_all.
Qed.

Lemma translate2MIL_slots_children (c : PFcnode_t) :
  keeps_slots (translate2MIL E) c
  /\ (forall k s a0 a1 a2 a3, c = Cnode k s a0 a1 a2 a3 -> keeps_slots (translate2MIL E) a0).
Proof.
  induction c as [| kind sem c0 [IH0 IH00] c1 [IH1 _] c2 [IH2 _] c3 [IH3 _]].
  - split; [| discriminate].
    intros f l cnt live Hlive. apply triple_quiet. cbn [translate2MIL]. quiet_all.
  - split; [| intros k s a0 a1 a2 a3 Heq; inversion Heq; subst; exact IH0].
    intros f l cnt live Hlive.
    destruct kind; cbn [translate2MIL];
      try (apply triple_quiet; solve [quiet_all]).
    + (* c_lit_str *) apply triple_quiet. unfold str_of. quiet_all.
    + (* c_lit_int *) apply triple_quiet. unfold num_of. quiet_all.
    + (* c_lit_dec *) apply triple_quiet. unfold dec_of. quiet_all.
    + (* c_lit_dbl *) apply triple_quiet. unfold dbl_of. quiet_all.
    + (* c_seq *)
      do 2 skip_quiet.
      split_if; [apply triple_quiet; quiet_all |].
      split_if; [apply IH1; exact Hlive |].
      split_if; [apply IH0; exact Hlive |].
      eapply triple_bind; [apply IH0; exact Hlive | intros ?].
      eapply triple_bind;
        [apply triple_saveResult; apply Forall_le_lt_succ; exact Hlive | intros ?].
      eapply triple_bind; [apply IH1; apply Forall_le_push; exact Hlive | intros ?].
      skip_quiet.
      apply triple_deleteResult.
    + (* c_let *)
      eapply triple_bind; [apply IH1; exact Hlive | intros ?].
      do 2 skip_quiet.
      apply IH2. exact Hlive.
    + (* c_for *)
      eapply triple_bind; [apply IH2; exact Hlive | intros ?].
      cbv zeta.
      do 3 skip_quiet.
      eapply triple_bind; [apply triple_quiet; unfold num_of; quiet_all | intros ?].
      repeat skip_quiet.
      eapply triple_bind; [apply IH3; exact Hlive | intros ?].
      repeat skip_quiet.
      apply triple_quiet. quiet_all.
    + (* c_apply *)
      eapply triple_bind; [apply triple_quiet; unfold fun_of; quiet_all | intros ?].
      apply translateFunction_slots; [exact IH00 | exact Hlive].
    + (* c_seqcast *)
      eapply triple_bind; [apply triple_quiet; unfold type_of; quiet_all | intros ?].
      skip_quiet.
      apply IH1. exact Hlive.
    + (* c_ifthenelse *)
      eapply triple_bind; [apply IH0; exact Hlive | intros ?].
      cbv zeta.
      eapply triple_bind;
        [apply triple_saveResult; apply Forall_le_lt_succ; exact Hlive | intros ?].
      do 3 skip_quiet.
      eapply triple_bind with (l1 := cnt + 1 :: live); [| intros ?].
      { pose proof (Forall_le_push _ _ Hlive) as Hpush.
        split_if.
        - apply translateIfThen_slots; [exact IH1 | exact Hpush].
        - skip_quiet.
          split_if.
          + apply translateIfThen_slots; [exact IH2 | exact Hpush].
          + eapply triple_bind;
              [apply translateIfThen_slots; [exact IH1 | exact Hpush] | intros ?].
            eapply triple_bind;
              [apply triple_saveResult; apply Forall_le_lt_succ; exact Hpush | intros ?].
            eapply triple_bind;
              [apply translateIfThen_slots;
               [exact IH2 | apply Forall_le_push; exact Hpush] | intros ?].
            skip_quiet.
            apply triple_deleteResult. }
      skip_quiet.
      apply triple_deleteResult.
    + (* c_locsteps *)
      eapply triple_bind; [apply IH1; exact Hlive | intros ?].
      apply triple_quiet. quiet_all.
    + (* c_elem *)
      eapply triple_bind; [apply IH0; exact Hlive | intros ?].
      do 2 skip_quiet.
      eapply triple_bind;
        [apply triple_saveResult; apply Forall_le_lt_succ; exact Hlive | intros ?].
      eapply triple_bind; [apply IH1; apply Forall_le_push; exact Hlive | intros ?].
      skip_quiet.
      apply triple_deleteResult.
    + (* c_attr *)
      eapply triple_bind; [apply IH0; exact Hlive | intros ?].
      do 2 skip_quiet.
      eapply triple_bind;
        [apply triple_saveResult; apply Forall_le_lt_succ; exact Hlive | intros ?].
      eapply triple_bind; [apply IH1; apply Forall_le_push; exact Hlive | intros ?].
      skip_quiet.
      apply triple_deleteResult.
    + (* c_text *)
      eapply triple_bind; [apply IH0; exact Hlive | intros ?].
      apply triple_quiet. quiet_all.
    + (* c_tag *)
      apply triple_quiet. unfold qname_of, nonnull. quiet_all.
Qed.

(** C9: saved-result slots obey stack discipline. From any world whose
    trace of [saveResult] and [deleteResult] calls is valid with live slots
    [live], all at most [counter], the translation of any tree keeps the
    trace valid (every slot is saved above all live ones, every delete frees
    the most recently saved live slot), also when the run is cut short; and
    when the translation returns, the live slots are again [live]. The
    counter itself is an argument passed by value. *)
Theorem saved_slots_stack_discipline
    (f : FILE) (act_level counter : Z) (c : PFcnode_t) (w : world)
    (r : result unit) (w' : world) (live : list Z) :
  live_slots w = Some live ->
  Forall (fun x => x <= counter) live ->
  translate2MIL E f act_level counter c w = (r, w') ->
  (exists live', live_slots w' = Some live')
  /\ (r = Ok tt -> live_slots w' = Some live).
Proof.
  intros Hl Hall H.
  destruct (translate2MIL_slots_children c) as [Hc _].
  destruct (Hc f act_level counter live Hall w r w' Hl H) as [Hex Hok].
  split; [exact Hex | intros Hr; exact (Hok tt Hr)].
Qed.

End SlotFacts.

(** The sequence [(true, true)] saves slot 1 and frees it again. *)
Lemma saved_slots_witness :
  slots (snd (translate2MIL sample_externals (stream 0) 0 0 seq_true_true world0))
    = [Save 1; Delete 1]
  /\ ((exists live',
         live_slots (snd (translate2MIL sample_externals (stream 0) 0 0 seq_true_true world0))
         = Some live')
      /\ (fst (translate2MIL sample_externals (stream 0) 0 0 seq_true_true world0) = Ok tt ->
          live_slots (snd (translate2MIL sample_externals (stream 0) 0 0 seq_true_true world0))
          = Some [])).
Proof.
  split; [vm_compute; reflexivity |].
  apply (saved_slots_stack_discipline sample_externals (stream 0) 0 0 seq_true_true world0
           (fst (translate2MIL sample_externals (stream 0) 0 0 seq_true_true world0))
           (snd (translate2MIL sample_externals (stream 0) 0 0 seq_true_true world0)) []).
  - reflexivity.
  - constructor.
  - apply surjective_pairing.
Defined.

(** ** The scope annotator *)

Lemma var_leaf_scope_order (inside : list Z) (c : PFcnode_t) :
  var_leaf c = true -> scope_order inside c = true.
Proof.
  destruct c as [| k s c0 c1 c2 c3]; [reflexivity |].
  cbn [var_leaf].
  destruct k; try discriminate;
    destruct c0; try discriminate; destruct c1; try discriminate;
    destruct c2; try discriminate; destruct c3; try discriminate;
    reflexivity.
Qed.

Lemma Forall_le_trans (a b : Z) (l : list Z) :
  a <= b -> Forall (fun x => x <= a) l -> Forall (fun x => x <= b) l.
Proof. intros Hab. apply Forall_impl. intros x Hx. lia. Qed.

Lemma forallb_lt_of_le (a fid : Z) (l : list Z) :
  a < fid -> Forall (fun x => x <= a) l -> forallb (fun x => x <? fid) l = true.
Proof.
  intros Hlt Hall. apply forallb_forall. intros x Hx. apply Z.ltb_lt.
  rewrite Forall_forall in Hall. specialize (Hall x Hx). lia.
Qed.

Ltac minv :=
  repeat match goal with
         | H : bind _ _ _ = (Ok _, _) |- _ =>
           apply bind_ok_inv in H; destruct H as (? & ? & ? & H)
         | H : ret _ _ = (Ok _, _) |- _ => inversion H; subst; clear H
         | H : get _ _ = (Ok _, _) |- _ => inversion H; subst; clear H
         | H : modify _ _ = (Ok _, _) |- _ => inversion H; subst; clear H
         | H : fault _ = (Ok _, _) |- _ => discriminate H
         | H : PFoops _ _ _ = (Ok _, _) |- _ => discriminate H
         end.

Section AnnotatorFacts.

Variable E : externals.
Variable f : FILE.

Lemma update_expansion_loop_frame (var : PFvar_t) (l : list Z) (w w' : world) (r : result unit) :
  update_expansion_loop E f var l w = (r, w') ->
  way w' = way w /\ counter w' = counter w /\ vars w' = vars w.
Proof.
  revert w. induction l as [| fid l IH]; intros w H; cbn [update_expansion_loop] in H.
  - inversion H. auto.
  - destruct (fid >? base var).
    + unfold bind in H. cbn in H. apply IH in H. cbn in H. exact H.
    + inversion H. auto.
Qed.

Lemma annotated_opt (c : PFcnode_t) (w : world) (c' : PFcnode_t) (w' : world) :
  annotated E f c ->
  wf_core c = true ->
  match c with
  | NULL => ret NULL
  | Cnode _ _ _ _ _ _ => append_lev E f c
  end w = (Ok c', w') ->
  way w' = way w
  /\ counter w FID <= counter w' FID
  /\ forall inside,
       Forall (fun a => a <= counter w FID) inside -> scope_order inside c' = true.
Proof.
  intros IH Hwf H. destruct c as [| k s c0 c1 c2 c3].
  - inversion H; subst. split; [reflexivity | split; [lia | reflexivity]].
  - exact (IH _ _ _ Hwf H).
Qed.

Lemma var_of_inv (c : PFcnode_t) (w w' : world) (p : var_ptr) :
  var_of c w = (Ok p, w') -> w' = w.
Proof.
  unfold var_of. destruct c as [| k s c0 c1 c2 c3]; [discriminate |].
  destruct s; try discriminate. intros H. inversion H. reflexivity.
Qed.

Lemma kind_of_inv (c : PFcnode_t) (w w' : world) (k : PFctype_t) :
  kind_of c w = (Ok k, w') -> w' = w.
Proof.
  unfold kind_of. destruct c; [discriminate |]. intros H. inversion H. reflexivity.
Qed.

Lemma annotated_generic (kind : PFctype_t) (sem : sem_t) (c0 c1 c2 c3 : PFcnode_t) :
  annotated E f c0 -> annotated E f c1 -> annotated E f c2 -> annotated E f c3 ->
  (forall inside s a b c d,
      scope_order inside (Cnode kind s a b c d)
      = scope_order inside a && scope_order inside b
        && scope_order inside c && scope_order inside d) ->
  contiguous c0 c1 c2 c3 && wf_core c0 && wf_core c1 && wf_core c2 && wf_core c3 = true ->
  forall w c' w',
    match c0 with
    | NULL => ret (Cnode kind sem c0 c1 c2 c3)
    | Cnode _ _ _ _ _ _ =>
      child0' <- append_lev E f c0 ;;
      match c1 with
      | NULL => ret (Cnode kind sem child0' c1 c2 c3)
      | Cnode _ _ _ _ _ _ =>
        child1' <- append_lev E f c1 ;;
        match c2 with
        | NULL => ret (Cnode kind sem child0' child1' c2 c3)
        | Cnode _ _ _ _ _ _ =>
          child2' <- append_lev E f c2 ;;
          match c3 with
          | NULL => ret (Cnode kind sem child0' child1' child2' c3)
          | Cnode _ _ _ _ _ _ =>
            child3' <- append_lev E f c3 ;;
            ret (Cnode kind sem child0' child1' child2' child3')
          end
        end
      end
    end w = (Ok c', w') ->
    way w' = way w
    /\ counter w FID <= counter w' FID
    /\ forall inside,
         Forall (fun a => a <= counter w FID) inside -> scope_order inside c' = true.
Proof.
  intros IH0 IH1 IH2 IH3 Hso Hwf w c' w' H.
  repeat (apply andb_prop in Hwf; destruct Hwf as [Hwf ?]).
  rename Hwf into Hcont.
  destruct c0 as [| k0 s0 a0 b0 d0 e0].
  { destruct c1, c2, c3; try discriminate Hcont.
    minv. split; [reflexivity | split; [lia |]].
    intros inside _. rewrite Hso. reflexivity. }
  cbv beta iota in H. minv.
  match goal with
  | H0 : append_lev E f (Cnode k0 _ _ _ _ _) _ = _ |- _ =>
    apply IH0 in H0; [destruct H0 as (Hw0 & Hc0 & Hs0) | assumption]
  end.
  destruct c1 as [| k1 s1 a1 b1 d1 e1].
  { destruct c2, c3; try discriminate Hcont.
    minv. split; [exact Hw0 | split; [exact Hc0 |]].
    intros inside Hin. rewrite Hso, (Hs0 inside Hin). reflexivity. }
  cbv beta iota in H. minv.
  match goal with
  | H1 : append_lev E f (Cnode k1 _ _ _ _ _) _ = _ |- _ =>
    apply IH1 in H1; [destruct H1 as (Hw1 & Hc1 & Hs1) | assumption]
  end.
  destruct c2 as [| k2 s2 a2 b2 d2 e2].
  { destruct c3; try discriminate Hcont.
    minv. split; [congruence | split; [lia |]].
    intros inside Hin. rewrite Hso, (Hs0 inside Hin).
    rewrite (Hs1 inside (Forall_le_trans _ _ _ Hc0 Hin)). reflexivity. }
  cbv beta iota in H. minv.
  match goal with
  | H2 : append_lev E f (Cnode k2 _ _ _ _ _) _ = _ |- _ =>
    apply IH2 in H2; [destruct H2 as (Hw2 & Hc2 & Hs2) | assumption]
  end.
  destruct c3 as [| k3 s3 a3 b3 d3 e3].
  { minv. split; [congruence | split; [lia |]].
    intros inside Hin. rewrite Hso, (Hs0 inside Hin).
    rewrite (Hs1 inside (Forall_le_trans _ _ _ Hc0 Hin)).
    rewrite (Hs2 inside (Forall_le_trans _ _ _ (Z.le_trans _ _ _ Hc0 Hc1) Hin)).
    reflexivity. }
  cbv beta iota in H. minv.
  match goal with
  | H3 : append_lev E f (Cnode k3 _ _ _ _ _) _ = _ |- _ =>
    apply IH3 in H3; [destruct H3 as (Hw3 & Hc3 & Hs3) | assumption]
  end.
  split; [congruence | split; [lia |]].
  intros inside Hin. rewrite Hso, (Hs0 inside Hin).
  rewrite (Hs1 inside (Forall_le_trans _ _ _ Hc0 Hin)).
  rewrite (Hs2 inside (Forall_le_trans _ _ _ (Z.le_trans _ _ _ Hc0 Hc1) Hin)).
  rewrite (Hs3 inside).
  - reflexivity.
  - apply (Forall_le_trans (counter w FID)); [lia | exact Hin].
Qed.

Ltac use_opt IH Hwf Hw Hc Hs :=
  match goal with
  | H : match ?c with
        | NULL => ret NULL
        | Cnode _ _ _ _ _ _ => append_lev _ _ ?c
        end _ = (Ok _, _) |- _ =>
    apply (annotated_opt _ _ _ _ IH Hwf) in H; destruct H as (Hw & Hc & Hs)
  end.

Ltac same_world :=
  repeat match goal with
         | Hv : var_of _ _ = (Ok _, _) |- _ => apply var_of_inv in Hv; subst
         | Hk : kind_of _ _ = (Ok _, _) |- _ => apply kind_of_inv in Hk; subst
         end.

Lemma append_lev_annotated (c : PFcnode_t) : annotated E f c.
Proof.
  induction c as [| kind sem c0 IH0 c1 IH1 c2 IH2 c3 IH3]; intros w c' w' Hwf H.
  - discriminate H.
  - destruct kind;
      try (cbn [wf_core] in Hwf; cbn [append_lev] in H;
           refine (annotated_generic _ _ _ _ _ _ IH0 IH1 IH2 IH3 _ Hwf _ _ _ H);
           intros; reflexivity).
    + (* c_var *)
      cbn [append_lev] in H. unfold update_expansion, deref_var, set_used in H.
      minv.
      repeat match goal with
             | Hv : var_of _ _ = (Ok _, _) |- _ => apply var_of_inv in Hv; subst
             end.
      match goal with
      | Hl : update_expansion_loop _ _ _ _ _ = _ |- _ =>
        apply update_expansion_loop_frame in Hl; destruct Hl as (Hw & Hc & _)
      end.
      cbn [way counter set_var]. rewrite Hw, Hc.
      split; [reflexivity | split; [lia |]].
      intros inside _. apply var_leaf_scope_order. exact Hwf.
    + (* c_let *)
      cbn [wf_core] in Hwf. cbn [append_lev] in H.
      unfold set_base, set_vid, set_used in H.
      apply andb_prop in Hwf; destruct Hwf as [Hwf Hwf3].
      apply andb_prop in Hwf; destruct Hwf as [Hwf Hwf2].
      apply andb_prop in Hwf; destruct Hwf as [Hwf0 Hwf1].
      minv. same_world.
      use_opt IH1 Hwf1 Hw1 Hc1 Hs1.
      use_opt IH2 Hwf2 Hw2 Hc2 Hs2.
      cbn [way counter set_counter set_var upd FID VID ACT_FID Nat.eqb] in Hw2, Hc2, Hs2.
      split; [congruence | split; [lia |]].
      intros inside Hin. cbn [scope_order].
      rewrite (var_leaf_scope_order _ _ Hwf0), (Hs1 inside Hin).
      rewrite (Hs2 inside (Forall_le_trans _ _ _ Hc1 Hin)).
      destruct c3; [reflexivity | discriminate Hwf3].
    + (* c_for *)
      cbn [wf_core] in Hwf. cbn [append_lev] in H.
      unfold set_base, set_vid, set_used, PFarray_add, PFarray_del in H.
      apply andb_prop in Hwf; destruct Hwf as [Hwf Hwf3].
      apply andb_prop in Hwf; destruct Hwf as [Hwf Hwf2].
      apply andb_prop in Hwf; destruct Hwf as [Hwf0 Hwf1].
      minv. same_world.
      use_opt IH2 Hwf2 Hw2 Hc2 Hs2.
      match goal with
      | Hif : (if is_c_var ?k then _ else _) _ = (Ok _, _) |- _ =>
        destruct (is_c_var k); minv; same_world
      end;
        use_opt IH3 Hwf3 Hw3 Hc3 Hs3;
        cbn [way counter vars set_way set_counter set_var upd FID VID ACT_FID Nat.eqb]
          in Hw3, Hc3, Hs3;
        (match goal with
         | Ht : PFarray_top _ = (Ok _, _) |- _ =>
           unfold PFarray_top in Ht; rewrite Hw3, rev_unit in Ht;
           inversion Ht; subst; clear Ht
         end);
        cbn [way counter vars set_way set_counter set_var upd FID VID ACT_FID Nat.eqb];
        rewrite Hw3, removelast_last;
        (split; [exact Hw2 | split; [lia |]]);
        intros inside Hin; cbn [scope_order];
        (rewrite (forallb_lt_of_le (counter x2 FID));
         [| lia | exact (Forall_le_trans _ _ _ Hc2 Hin)]);
        rewrite (var_leaf_scope_order _ _ Hwf0), (var_leaf_scope_order _ _ Hwf1);
        rewrite (Hs2 inside Hin);
        (rewrite Hs3;
         [ reflexivity
         | constructor; [lia | apply (Forall_le_trans (counter w FID)); [lia | exact Hin]] ]).
Qed.

(** C4 (as the code has it): in the tree [append_lev] returns for a
    well-formed Core tree, the scope id of every [for] node is greater than
    the scope ids of all [for] nodes whose body it lies in. *)
Theorem for_ids_above_enclosing_scopes (c : PFcnode_t) (w : world) (c' : PFcnode_t) (w' : world) :
  wf_core c = true ->
  append_lev E f c w = (Ok c', w') ->
  scope_order [] c' = true.
Proof.
  intros Hwf H.
  destruct (append_lev_annotated c w c' w' Hwf H) as (_ & _ & Hs).
  apply Hs. constructor.
Qed.

End AnnotatorFacts.

(** The nested loop [for $v0 in () return (for $v1 in () return ())] is
    annotated with the ids 1 (outer) and 2 (inner). *)
Lemma for_ids_witness :
  wf_core for_in_body = true
  /\ fst (append_lev sample_externals (stream 0) for_in_body world0)
     = Ok (Cnode c_for (sem_num 1) (node_var 0%nat) (leaf c_nil sem_none) node_empty
             (Cnode c_for (sem_num 2) (node_var 1%nat) (leaf c_nil sem_none)
                node_empty node_empty))
  /\ scope_order [] (Cnode c_for (sem_num 1) (node_var 0%nat) (leaf c_nil sem_none) node_empty
                       (Cnode c_for (sem_num 2) (node_var 1%nat) (leaf c_nil sem_none)
                          node_empty node_empty)) = true.
Proof.
  split; [vm_compute; reflexivity | split; [vm_compute; reflexivity |]].
  apply (for_ids_above_enclosing_scopes sample_externals (stream 0) for_in_body world0 _
           (snd (append_lev sample_externals (stream 0) for_in_body world0))).
  - vm_compute. reflexivity.
  - vm_compute. reflexivity.
Defined.

(** C4 (counterexample to the claim as stated): a [for] node in the source
    expression of another [for] node is a descendant of it, and gets the
    smaller id: in [for $v0 in (for $v1 in () return ()) return ()] the
    inner node gets 1 and the outer node 2. *)
Lemma for_in_source_gets_smaller_id :
  fst (append_lev sample_externals (stream 0) for_in_source world0)
    = Ok (Cnode c_for (sem_num 2) (node_var 0%nat) (leaf c_nil sem_none)
            (Cnode c_for (sem_num 1) (node_var 1%nat) (leaf c_nil sem_none)
               node_empty node_empty)
            node_empty)
  /\ wf_core for_in_source = true
  /\ ancestor_order []
       (Cnode c_for (sem_num 2) (node_var 0%nat) (leaf c_nil sem_none)
          (Cnode c_for (sem_num 1) (node_var 1%nat) (leaf c_nil sem_none)
             node_empty node_empty)
          node_empty) = false.
Proof.
  split; [vm_compute; reflexivity | split; vm_compute; reflexivity].
Qed.

(** ** The usage relation *)

(** C5 (code defect): in
    [for $v0 in () return let $v1 := () return for $v2 in () return $v1]
    the only scope opened between the binding of [$v1] (vid 1) and its
    reference is the inner [for] (fid 2), so the relation should hold the
    pair (1, 2) alone. [append_lev] gives [$v1] the base 0, not 1 (the
    active-scope counter is not set when a [for] is entered), and
    [update_expansion] also inserts (1, 1): the final tables hold two
    rows. The rows are deduplicated and ordered by fid, then vid. *)
Theorem usage_relation_has_extra_pair :
  var_usage (snd (PFprintMILtemp sample_externals (stream 0) let_inside_for world0))
    = [(1, 2); (1, 1)]
  /\ MIL.vu_tables
       (var_usage (snd (PFprintMILtemp sample_externals (stream 0) let_inside_for world0)))
     = (MIL.void 1000 [1; 2], MIL.void 1000 [1; 1])
  /\ base (vars (snd (append_lev sample_externals (stream 0) let_inside_for world0)) 1%nat) = 0
  /\ exists c',
       fst (append_lev sample_externals (stream 0) let_inside_for world0) = Ok c'
       /\ expected_usage
            (vars (snd (append_lev sample_externals (stream 0) let_inside_for world0))) [] c'
          = [(1, 2)].
Proof.
  split; [vm_compute; reflexivity |].
  split; [vm_compute; reflexivity |].
  split; [vm_compute; reflexivity |].
  eexists. split; vm_compute; reflexivity.
Qed.

(** ** The MIL operators *)

Section MILFacts.

Import MIL.

Lemma Z_Lawful : Lawful Z.
Proof. intros x y. apply Z.eqb_eq. Qed.

Lemma kind_Lawful : Lawful kind_t.
Proof.
  intros x y. unfold same, kind_EqType.
  destruct x, y; cbn; split; intros H; try discriminate; try reflexivity;
    try (apply Z.eqb_eq in H; subst; reflexivity);
    try (inversion H; apply Z.eqb_refl).
Qed.

Lemma void_heads_ge {T : Type} (l : list T) (b k : oid) (t : T) :
  In (k, t) (void b l) -> b <= k.
Proof.
  revert b. induction l as [| x l IH]; intros b H; cbn [void] in H.
  - destruct H.
  - destruct H as [H | H].
    + inversion H. lia.
    + apply IH in H. lia.
Qed.

(** A position of a void-headed column holds the value stored there. *)
Lemma fetch_void_in {R T : Type} (g : R -> T) (rows : list R) (b k : oid) (r : R) :
  In (k, r) (void b rows) -> fetch (void b (map g rows)) k = Some (g r).
Proof.
  revert b. induction rows as [| r0 rows IH]; intros b H; cbn [void map] in *.
  - destruct H.
  - unfold fetch. cbn [find fst snd]. destruct H as [H | H].
    + inversion H; subst. unfold same, Z_EqType. rewrite Z.eqb_refl. reflexivity.
    + pose proof (void_heads_ge _ _ _ _ H) as Hge.
      unfold same, Z_EqType. replace (k =? b) with false by (symmetry; apply Z.eqb_neq; lia).
      apply (IH _ H).
Qed.

Lemma flat_map_ext_in {A B : Type} (f g : A -> list B) (l : list A) :
  (forall a, In a l -> f a = g a) -> flat_map f l = flat_map g l.
Proof.
  induction l as [| a l IH]; intros H; cbn [flat_map].
  - reflexivity.
  - rewrite (H a (or_introl eq_refl)), IH; [reflexivity |].
    intros a' Ha'. apply H. right. exact Ha'.
Qed.

Lemma flat_map_singleton {A B : Type} (f : A -> B) (l : list A) :
  flat_map (fun a => [f a]) l = map f l.
Proof. induction l as [| a l IH]; cbn; [reflexivity | rewrite IH; reflexivity]. Qed.

Lemma void_map {R T : Type} (g : R -> T) (rows : list R) (b : oid) :
  void b (map g rows) = map (fun p => (fst p, g (snd p))) (void b rows).
Proof.
  revert b. induction rows as [| r rows IH]; intros b; cbn [void map].
  - reflexivity.
  - rewrite IH. reflexivity.
Qed.

Lemma map_snd_void {T : Type} (l : list T) (b : oid) : map snd (void b l) = l.
Proof.
  revert b. induction l as [| x l IH]; intros b; cbn [void map snd].
  - reflexivity.
  - rewrite IH. reflexivity.
Qed.

Lemma length_void {T : Type} (l : list T) (b : oid) : List.length (void b l) = List.length l.
Proof.
  revert b. induction l as [| x l IH]; intros b; cbn [void List.length].
  - reflexivity.
  - rewrite IH. reflexivity.
Qed.

(** Looking the positions of one column up in an aligned column pairs the
    two columns row by row. *)
Lemma leftfetchjoin_aligned {R A T : Type} (h : R -> A) (g : R -> T) (rows : list R) (b : oid) :
  leftfetchjoin (reverse (void b (map h rows))) (void b (map g rows))
  = map (fun r => (h r, g r)) rows.
Proof.
  unfold leftfetchjoin, reverse.
  rewrite (void_map h), map_map. cbn [fst snd].
  rewrite flat_map_concat_map, map_map, <- flat_map_concat_map.
  cbn [fst snd].
  rewrite (flat_map_ext_in _ (fun p => [(h (snd p), g (snd p))])).
  - rewrite flat_map_singleton.
    rewrite <- (map_map snd (fun r => (h r, g r))), map_snd_void. reflexivity.
  - intros [k r] Hin. cbn [fst snd]. rewrite (fetch_void_in g rows b k r Hin). reflexivity.
Qed.

(** [.reverse.mark(b).reverse] renumbers the head. *)
Lemma reverse_mark_reverse {H T : Type} (bat : BAT H T) (b : oid) :
  reverse (mark (reverse bat) b) = void b (map snd bat).
Proof.
  revert b. induction bat as [| x bat IH]; intros b; cbn [reverse map mark void fst snd].
  - reflexivity.
  - f_equal. apply IH.
Qed.

Lemma mark_reverse {H T : Type} (bat : BAT H T) (b : oid) :
  reverse (mark bat b) = void b (map fst bat).
Proof.
  revert b. induction bat as [| x bat IH]; intros b; cbn [reverse map mark void fst snd].
  - reflexivity.
  - f_equal. apply IH.
Qed.

Lemma in_ord_uselect {H T : Type} {eq : EqType T} (b : BAT H T) (v : T) (h : H) (u : unit) :
  In (h, u) (ord_uselect b v) <-> exists t, In (h, t) b /\ same t v = true.
Proof.
  unfold ord_uselect. rewrite in_map_iff. split.
  - intros [[h' t] [Heq Hin]]. apply filter_In in Hin. cbn [fst snd] in *.
    inversion Heq; subst. exists t. exact Hin.
  - intros [t [Hin Hs]]. exists (h, t). destruct u. split; [reflexivity |].
    apply filter_In. split; assumption.
Qed.

Lemma in_mirror {H T : Type} (b : BAT H T) (h h' : H) :
  In (h, h') (mirror b) <-> h' = h /\ exists t, In (h, t) b.
Proof.
  unfold mirror. rewrite in_map_iff. split.
  - intros [[h0 t] [Heq Hin]]. cbn [fst] in Heq. inversion Heq; subst.
    split; [reflexivity | exists t; exact Hin].
  - intros [Heq [t Hin]]. subst. exists (h, t). split; [reflexivity | exact Hin].
Qed.

Lemma in_project {H T U : Type} (b : BAT H T) (v v' : U) (h : H) :
  In (h, v') (project b v) <-> v' = v /\ exists t, In (h, t) b.
Proof.
  unfold project. rewrite in_map_iff. split.
  - intros [[h0 t] [Heq Hin]]. cbn [fst] in Heq. inversion Heq; subst.
    split; [reflexivity | exists t; exact Hin].
  - intros [Heq [t Hin]]. subst. exists (h, t). split; [reflexivity | exact Hin].
Qed.

Lemma in_leftjoin {A C : Type} (l : BAT A oid) (r : BAT oid C) (a : A) (c : C) :
  In (a, c) (leftjoin l r) <-> exists b, In (a, b) l /\ In (b, c) r.
Proof.
  unfold leftjoin. rewrite in_flat_map. split.
  - intros [[a0 b] [Hl Hin]]. apply in_map_iff in Hin.
    destruct Hin as [[b' c'] [Heq Hf]]. apply filter_In in Hf.
    cbn [fst snd] in *. inversion Heq; subst. destruct Hf as [Hr Hs].
    apply Z.eqb_eq in Hs. subst. exists b'. split; assumption.
  - intros [b [Hl Hr]]. exists (a, b). split; [exact Hl |].
    apply in_map_iff. exists (b, c). split; [reflexivity |].
    apply filter_In. split; [exact Hr |]. cbn [fst snd]. apply Z.eqb_refl.
Qed.

Lemma in_leftfetchjoin {A C : Type} (l : BAT A oid) (r : BAT oid C) (a : A) (c : C) :
  In (a, c) (leftfetchjoin l r) <-> exists b, In (a, b) l /\ fetch r b = Some c.
Proof.
  unfold leftfetchjoin. rewrite in_flat_map. split.
  - intros [[a0 b] [Hl Hin]]. cbn [fst snd] in Hin.
    destruct (fetch r b) as [c0 |] eqn:Hf; [| destruct Hin].
    destruct Hin as [Heq | []]. inversion Heq; subst. exists b. split; assumption.
  - intros [b [Hl Hf]]. exists (a, b). split; [exact Hl |].
    cbn [fst snd]. rewrite Hf. left. reflexivity.
Qed.

Lemma fetch_some_in {C : Type} (r : BAT oid C) (k : oid) (c : C) :
  fetch r k = Some c -> In (k, c) r.
Proof.
  unfold fetch. destruct (find (fun y => same k (fst y)) r) as [[k' c'] |] eqn:Hf;
    [| discriminate].
  intros H. inversion H; subst. apply find_some in Hf. destruct Hf as [Hin Hs].
  cbn [fst] in Hs. apply Z.eqb_eq in Hs. subst. exact Hin.
Qed.

Lemma fetch_none {C : Type} (r : BAT oid C) (k : oid) :
  fetch r k = None -> forall c, ~ In (k, c) r.
Proof.
  unfold fetch. destruct (find (fun y => same k (fst y)) r) as [[k' c'] |] eqn:Hf;
    [discriminate |].
  intros _ c Hin. pose proof (find_none _ _ Hf _ Hin) as Hn.
  cbn [fst] in Hn. unfold same, Z_EqType in Hn. rewrite Z.eqb_refl in Hn. discriminate.
Qed.

(** Replacing by a table whose tails are all [false]. *)
Lemma replace_false (b r : BAT oid bool) :
  (forall k t, In (k, t) r -> t = false) ->
  replace b r
  = map (fun x => (fst x, match fetch r (fst x) with
                          | Some _ => false
                          | None => snd x
                          end)) b.
Proof.
  intros Hr. unfold replace. apply map_ext. intros [k t]. cbn [fst snd].
  destruct (fetch r k) as [t' |] eqn:Hf; [| reflexivity].
  apply fetch_some_in in Hf. rewrite (Hr _ _ Hf). reflexivity.
Qed.

Lemma count_of_iteration (rows : list (Z * Z * kind_t)) (b i : oid) :
  List.length (filter (fun y => same (fst y) i)
                      (reverse (void b (map (fun r => fst (fst r)) rows))))
  = List.length (rows_of i rows).
Proof.
  unfold rows_of. rewrite length_map.
  revert b. induction rows as [| r rows IH]; intros b; cbn [map void reverse filter fst snd].
  - reflexivity.
  - unfold same at 1, Z_EqType at 1.
    destruct (fst (fst r) =? i); cbn [List.length]; rewrite <- (IH (b + 1)); reflexivity.
Qed.

Lemma pump_count_loop (rows : list (Z * Z * kind_t)) (iters : list Z) (b b' : oid) :
  pump_count (reverse (void b (map (fun r => fst (fst r)) rows))) (reverse (void b' iters))
  = map (fun i => (i, Z.of_nat (List.length (rows_of i rows)))) iters.
Proof.
  unfold pump_count.
  revert b'. induction iters as [| i iters IH]; intros b'; cbn [void reverse map fst snd].
  - reflexivity.
  - rewrite count_of_iteration. f_equal. apply IH.
Qed.

Lemma in_rows_of (rows : list (Z * Z * kind_t)) (i x : Z) (k : kind_t) :
  In (x, k) (rows_of i rows) <-> In (i, x, k) rows.
Proof.
  unfold rows_of. rewrite in_map_iff. split.
  - intros [[[i' x'] k'] [Heq Hin]]. apply filter_In in Hin. cbn [fst snd] in *.
    destruct Hin as [Hin Hi]. apply Z.eqb_eq in Hi. inversion Heq; subst. exact Hin.
  - intros Hin. exists (i, x, k). split; [reflexivity |].
    apply filter_In. split; [exact Hin | apply Z.eqb_refl].
Qed.

Lemma leftjoin_bool_map (g : Z -> bool) (l : list Z) :
  leftjoin (map (fun i => (i, g i)) l) bool_map
  = map (fun i => (i, if g i then 1 else 0)) l.
Proof.
  unfold leftjoin, bool_map.
  induction l as [| i l IH]; cbn [map flat_map]; [reflexivity |].
  rewrite IH. cbn [fst snd filter]. unfold same, bool_EqType.
  destruct (g i); reflexivity.
Qed.

Ltac in_inv :=
  repeat match goal with
         | H : In _ (project _ _) |- _ =>
           apply in_project in H; destruct H as [? [? H]]
         | H : In _ (ord_uselect _ _) |- _ =>
           apply in_ord_uselect in H; destruct H as [? [H ?]]
         | H : In _ (leftfetchjoin _ _) |- _ =>
           apply in_leftfetchjoin in H; destruct H as [? [H ?]]
         | H : In _ (leftjoin _ _) |- _ =>
           apply in_leftjoin in H; destruct H as [? [H ?]]
         | H : In _ (mirror _) |- _ =>
           apply in_mirror in H; destruct H as [? [? H]]
         end.

(** The iterations a test table of [fn_boolean] sets to false: those with
    one item, of the kind [K], whose value in the table [tab] is [zero]. *)
Lemma in_value_test {T : Type} {eq : EqType T} (tab : BAT oid T) (zero : T) (K : kind_t)
    (C : BAT oid Z) (KI : BAT oid kind_t) (IT : BAT oid oid) (i : oid) :
  (exists t,
      In (i, t)
         (project
            (ord_uselect
               (leftfetchjoin
                  (leftjoin (mirror (ord_uselect (leftjoin (mirror (ord_uselect C 1)) KI) K)) IT)
                  tab)
               zero)
            false))
  <-> (exists c, In (i, c) C /\ (c =? 1) = true)
      /\ (exists k, In (i, k) KI /\ same k K = true)
      /\ (exists x s, In (i, x) IT /\ fetch tab x = Some s /\ same s zero = true).
Proof.
  split.
  - intros [t H]. in_inv. subst.
    split; [eexists; split; eassumption |].
    split; [eexists; split; eassumption |].
    eexists. eexists. split; [eassumption | split; eassumption].
  - intros [[c [Hc Hc1]] [[k [Hk HkK]] [x [s0 [Hx [Hf Hs]]]]]].
    exists false. apply in_project. split; [reflexivity |]. exists tt.
    apply in_ord_uselect. exists s0. split; [| exact Hs].
    apply in_leftfetchjoin. exists x. split; [| exact Hf].
    apply in_leftjoin. exists i. split; [| exact Hx].
    apply in_mirror. split; [reflexivity |]. exists tt.
    apply in_ord_uselect. exists k. split; [| exact HkK].
    apply in_leftjoin. exists i. split; [| exact Hk].
    apply in_mirror. split; [reflexivity |]. exists tt.
    apply in_ord_uselect. exists c. split; [exact Hc | exact Hc1].
Qed.

Lemma in_bool_test (C : BAT oid Z) (KI : BAT oid kind_t) (IT : BAT oid oid) (i : oid) :
  (exists t,
      In (i, t)
         (project
            (ord_uselect
               (leftjoin (mirror (ord_uselect (leftjoin (mirror (ord_uselect C 1)) KI) BOOL)) IT)
               0)
            false))
  <-> (exists c, In (i, c) C /\ (c =? 1) = true)
      /\ (exists k, In (i, k) KI /\ same k BOOL = true)
      /\ (exists x, In (i, x) IT /\ (x =? 0) = true).
Proof.
  split.
  - intros [t H]. in_inv. subst.
    split; [eexists; split; eassumption |].
    split; [eexists; split; eassumption |].
    eexists. split; eassumption.
  - intros [[c [Hc Hc1]] [[k [Hk HkK]] [x [Hx Hx0]]]].
    exists false. apply in_project. split; [reflexivity |]. exists tt.
    apply in_ord_uselect. exists x. split; [| exact Hx0].
    apply in_leftjoin. exists i. split; [| exact Hx].
    apply in_mirror. split; [reflexivity |]. exists tt.
    apply in_ord_uselect. exists k. split; [| exact HkK].
    apply in_leftjoin. exists i. split; [| exact Hk].
    apply in_mirror. split; [reflexivity |]. exists tt.
    apply in_ord_uselect. exists c. split; [exact Hc | exact Hc1].
Qed.

Lemma project_tails_false {H T : Type} (b : BAT H T) (k : H) (t : bool) :
  In (k, t) (project b false) -> t = false.
Proof. intros Hin. apply in_project in Hin. destruct Hin as [Heq _]. exact Heq. Qed.

Lemma fetch_is_some {C : Type} (r : BAT oid C) (k : oid) :
  (exists c, In (k, c) r) -> exists c, fetch r k = Some c.
Proof.
  intros [c Hin]. destruct (fetch r k) as [c' |] eqn:Hf; [exists c'; reflexivity |].
  exfalso. exact (fetch_none _ _ Hf c Hin).
Qed.

Lemma in_count_table (rows : list (Z * Z * kind_t)) (iters : list Z) (i c : Z) :
  In (i, c) (map (fun j => (j, Z.of_nat (List.length (rows_of j rows)))) iters)
  <-> In i iters /\ c = Z.of_nat (List.length (rows_of i rows)).
Proof.
  rewrite in_map_iff. split.
  - intros [j [Heq Hin]]. inversion Heq; subst. split; [exact Hin | reflexivity].
  - intros [Hin Heq]. subst. exists i. split; [reflexivity | exact Hin].
Qed.

Lemma in_kind_column (rows : list (Z * Z * kind_t)) (i : Z) (k : kind_t) :
  In (i, k) (map (fun r => (fst (fst r), snd r)) rows)
  <-> exists x, In (x, k) (rows_of i rows).
Proof.
  rewrite in_map_iff. split.
  - intros [[[i' x] k'] [Heq Hin]]. cbn [fst snd] in Heq. inversion Heq; subst.
    exists x. apply in_rows_of. exact Hin.
  - intros [x Hin]. apply in_rows_of in Hin. exists (i, x, k). split; [reflexivity | exact Hin].
Qed.

Lemma in_item_column (rows : list (Z * Z * kind_t)) (i x : Z) :
  In (i, x) (map (fun r => (fst (fst r), snd (fst r))) rows)
  <-> exists k, In (x, k) (rows_of i rows).
Proof.
  rewrite in_map_iff. split.
  - intros [[[i' x'] k] [Heq Hin]]. cbn [fst snd] in Heq. inversion Heq; subst.
    exists k. apply in_rows_of. exact Hin.
  - intros [k Hin]. apply in_rows_of in Hin. exists (i, x, k). split; [reflexivity | exact Hin].
Qed.

Lemma length_one {A : Type} (l : list A) :
  (Z.of_nat (List.length l) =? 1) = true -> exists a, l = [a].
Proof.
  intros H. apply Z.eqb_eq in H.
  destruct l as [| a [| b l]]; cbn [List.length] in H; try lia.
  exists a. reflexivity.
Qed.

(** A value test of [fn_boolean] holds the iterations that have exactly one
    item, of the tested kind, with the zero value. *)
Lemma value_test_spec {T : Type} {eq : EqType T} (tab : BAT oid T) (zero : T) (K : kind_t)
    (rows : list (Z * Z * kind_t)) (iters : list Z) (i : Z) :
  In i iters ->
  (exists t,
      In (i, t)
         (project
            (ord_uselect
               (leftfetchjoin
                  (leftjoin
                     (mirror
                        (ord_uselect
                           (leftjoin
                              (mirror
                                 (ord_uselect
                                    (map (fun j => (j, Z.of_nat (List.length (rows_of j rows))))
                                         iters) 1))
                              (map (fun r => (fst (fst r), snd r)) rows)) K))
                     (map (fun r => (fst (fst r), snd (fst r))) rows))
                  tab)
               zero)
            false))
  <-> exists x s, rows_of i rows = [(x, K)] /\ fetch tab x = Some s /\ same s zero = true.
Proof.
  intros Hi. rewrite in_value_test. split.
  - intros [[c [Hc Hc1]] [[k [Hk HkK]] [x [s0 [Hx [Hf Hs]]]]]].
    apply in_count_table in Hc. destruct Hc as [_ Hc]. subst c.
    apply length_one in Hc1. destruct Hc1 as [[x0 k0] HR].
    apply in_kind_column in Hk. destruct Hk as [x1 Hk].
    apply in_item_column in Hx. destruct Hx as [k1 Hx].
    rewrite HR in Hk, Hx.
    destruct Hk as [Hk | []]. destruct Hx as [Hx | []].
    inversion Hk; subst. inversion Hx; subst.
    apply kind_Lawful in HkK. subst.
    exists x, s0. split; [exact HR | split; assumption].
  - intros [x [s0 [HR [Hf Hs]]]].
    split; [| split].
    + exists 1. split; [| reflexivity].
      apply in_count_table. split; [exact Hi | rewrite HR; reflexivity].
    + exists K. split; [| apply kind_Lawful; reflexivity].
      apply in_kind_column. exists x. rewrite HR. left. reflexivity.
    + exists x, s0. split; [| split; assumption].
      apply in_item_column. exists K. rewrite HR. left. reflexivity.
Qed.

Lemma bool_test_spec (rows : list (Z * Z * kind_t)) (iters : list Z) (i : Z) :
  In i iters ->
  (exists t,
      In (i, t)
         (project
            (ord_uselect
               (leftjoin
                  (mirror
                     (ord_uselect
                        (leftjoin
                           (mirror
                              (ord_uselect
                                 (map (fun j => (j, Z.of_nat (List.length (rows_of j rows))))
                                      iters) 1))
                           (map (fun r => (fst (fst r), snd r)) rows)) BOOL))
                  (map (fun r => (fst (fst r), snd (fst r))) rows))
               0)
            false))
  <-> rows_of i rows = [(0, BOOL)].
Proof.
  intros Hi. rewrite in_bool_test. split.
  - intros [[c [Hc Hc1]] [[k [Hk HkK]] [x [Hx Hx0]]]].
    apply in_count_table in Hc. destruct Hc as [_ Hc]. subst c.
    apply length_one in Hc1. destruct Hc1 as [[x0 k0] HR].
    apply in_kind_column in Hk. destruct Hk as [x1 Hk].
    apply in_item_column in Hx. destruct Hx as [k1 Hx].
    rewrite HR in Hk, Hx.
    destruct Hk as [Hk | []]. destruct Hx as [Hx | []].
    inversion Hk; subst. inversion Hx; subst.
    apply kind_Lawful in HkK. apply Z.eqb_eq in Hx0. subst. exact HR.
  - intros HR.
    split; [| split].
    + exists 1. split; [| reflexivity].
      apply in_count_table. split; [exact Hi | rewrite HR; reflexivity].
    + exists BOOL. split; [| reflexivity].
      apply in_kind_column. exists 0. rewrite HR. left. reflexivity.
    + exists 0. split; [| reflexivity].
      apply in_item_column. exists BOOL. rewrite HR. left. reflexivity.
Qed.

(** How a test table enters the result: a hit gives false. *)
Lemma fetch_test {P : Prop} (S : BAT oid bool) (i : oid) :
  ((exists t, In (i, t) S) <-> P) ->
  (exists t, fetch S i = Some t) /\ P \/ fetch S i = None /\ ~ P.
Proof.
  intros Hiff. destruct (fetch S i) as [t |] eqn:Hf.
  - left. split; [exists t; reflexivity |].
    apply Hiff. exists t. apply fetch_some_in. exact Hf.
  - right. split; [reflexivity |].
    intros HP. apply Hiff in HP. destruct HP as [t Hin].
    exact (fetch_none _ _ Hf t Hin).
Qed.

End MILFacts.

Section EbvFacts.

Import MIL.

Variable v : values.


End EbvFacts.

(** ** The checks of the attribute constructor *)

Section AttrFacts.

Import MIL.

Lemma in_distinct (l : list Z) (x : Z) : In x (distinct l) <-> In x l.
Proof.
  induction l as [| a l IH]; cbn [distinct]; [reflexivity |].
  cbn [In]. rewrite filter_In, IH. unfold same, Z_EqType.
  destruct (Z.eq_dec a x) as [Heq | Hne].
  - split; intros _; left; exact Heq.
  - split.
    + intros [H | [H _]]; [left; exact H | right; exact H].
    + intros [H | H]; [left; exact H | right].
      split; [exact H |]. apply negb_true_iff. apply Z.eqb_neq. exact Hne.
Qed.

Lemma NoDup_distinct (l : list Z) : NoDup (distinct l).
Proof.
  induction l as [| a l IH]; cbn [distinct]; constructor.
  - intros Hin. apply filter_In in Hin. destruct Hin as [_ Hneg].
    unfold same, Z_EqType in Hneg. rewrite Z.eqb_refl in Hneg. discriminate.
  - apply NoDup_filter. exact IH.
Qed.

Lemma length_rows_of_cons (r : Z * Z * kind_t) (rows : list (Z * Z * kind_t)) (t : Z) :
  List.length (rows_of t (r :: rows))
  = ((if (fst (fst r) =? t)%Z then 1 else 0) + List.length (rows_of t rows))%nat.
Proof.
  unfold rows_of. cbn [filter]. destruct (fst (fst r) =? t); reflexivity.
Qed.

Lemma rows_in_cons (r : Z * Z * kind_t) (rows : list (Z * Z * kind_t)) (D : list Z) :
  NoDup D ->
  rows_in (r :: rows) D
  = ((if existsb (Z.eqb (fst (fst r))) D then 1 else 0) + rows_in rows D)%nat.
Proof.
  induction D as [| t D IH]; intros Hnd; cbn [rows_in existsb]; [reflexivity |].
  inversion Hnd as [| t' D' Hnot Hnd']; subst.
  rewrite length_rows_of_cons, (IH Hnd').
  destruct (fst (fst r) =? t) eqn:Ht; cbn [orb]; [| lia].
  apply Z.eqb_eq in Ht. subst t.
  destruct (existsb (Z.eqb (fst (fst r))) D) eqn:Hex; [| lia].
  exfalso. apply Hnot. apply existsb_exists in Hex.
  destruct Hex as [y [Hy Heq]]. apply Z.eqb_eq in Heq. subst y. exact Hy.
Qed.

(** Every row belongs to one iteration of the iteration column. *)
Lemma rows_in_distinct (rows : list (Z * Z * kind_t)) :
  rows_in rows (distinct (map (fun r => fst (fst r)) rows)) = List.length rows.
Proof.
  assert (Hgen : forall D, NoDup D ->
                           (forall r, In r rows -> In (fst (fst r)) D) ->
                           rows_in rows D = List.length rows).
  { induction rows as [| r rows IH]; intros D Hnd Hall.
    - clear Hnd Hall. induction D as [| t D IHD]; cbn [rows_in]; [reflexivity |].
      rewrite IHD. reflexivity.
    - rewrite (rows_in_cons _ _ _ Hnd).
      assert (Hex : existsb (Z.eqb (fst (fst r))) D = true).
      { apply existsb_exists. exists (fst (fst r)).
        split; [apply Hall; left; reflexivity | apply Z.eqb_refl]. }
      rewrite Hex. cbn [List.length]. rewrite (IH D Hnd); [reflexivity |].
      intros r' Hr'. apply Hall. right. exact Hr'. }
  apply Hgen; [apply NoDup_distinct |].
  intros r Hr. apply in_distinct. apply in_map_iff. exists r. split; [reflexivity | exact Hr].
Qed.

Lemma rows_in_all_one (rows : list (Z * Z * kind_t)) (D : list Z) :
  (forall t, In t D -> (1 <= List.length (rows_of t rows))%nat) ->
  rows_in rows D = List.length D ->
  forall t, In t D -> List.length (rows_of t rows) = 1%nat.
Proof.
  induction D as [| a D IH]; intros Hge Hsum t Ht; [destruct Ht |].
  cbn [rows_in List.length] in Hsum.
  assert (Hrest : (List.length D <= rows_in rows D)%nat).
  { clear - Hge. induction D as [| b D IHD]; cbn [rows_in List.length]; [lia |].
    assert (Hb := Hge b (or_intror (or_introl eq_refl))).
    assert (HD : (List.length D <= rows_in rows D)%nat).
    { apply IHD. intros t [Ht | Ht]; apply Hge; [left; exact Ht | right; right; exact Ht]. }
    lia. }
  assert (Ha := Hge a (or_introl eq_refl)).
  destruct Ht as [Ht | Ht].
  - subst. lia.
  - apply IH; [| lia | exact Ht].
    intros t' Ht'. apply Hge. right. exact Ht'.
Qed.

Lemma rows_in_ones (rows : list (Z * Z * kind_t)) (D : list Z) :
  (forall t, In t D -> List.length (rows_of t rows) = 1%nat) ->
  rows_in rows D = List.length D.
Proof.
  induction D as [| a D IH]; intros H; cbn [rows_in List.length]; [reflexivity |].
  rewrite (H a (or_introl eq_refl)), IH; [reflexivity |].
  intros t Ht. apply H. right. exact Ht.
Qed.

Lemma filter_length_all {A : Type} (p : A -> bool) (l : list A) :
  List.length (filter p l) = List.length l <-> forall x, In x l -> p x = true.
Proof.
  induction l as [| a l IH]; cbn [filter List.length].
  - split; [intros _ x [] | reflexivity].
  - pose proof (filter_length_le p l) as Hle.
    destruct (p a) eqn:Hp; cbn [List.length].
    + split.
      * intros H x [Hx | Hx]; [subst; exact Hp | apply IH; [lia | exact Hx]].
      * intros H. f_equal. apply IH. intros x Hx. apply H. right. exact Hx.
    + split; [intros H; lia |].
      intros H. specialize (H a (or_introl eq_refl)). congruence.
Qed.

Lemma sum_pump_count (rows : list (Z * Z * kind_t)) (D : list Z) (b : oid) :
  sum (pump_count (reverse (void b (map (fun r => fst (fst r)) rows)))
                  (map (fun t => (t, tt)) D))
  = Z.of_nat (rows_in rows D).
Proof.
  unfold sum, pump_count. rewrite !map_map. cbn [fst snd].
  induction D as [| t D IH]; cbn [map fold_right rows_in]; [reflexivity |].
  rewrite IH, count_of_iteration. lia.
Qed.

Lemma count_strings (rows : list (Z * Z * kind_t)) (b : oid) :
  count (ord_uselect (void b (map snd rows)) STR)
  = Z.of_nat (List.length (filter (fun r => kind_eqb (snd r) STR) rows)).
Proof.
  unfold count, ord_uselect. rewrite length_map. f_equal.
  revert b. induction rows as [| r rows IH]; intros b; cbn [map void filter snd]; [reflexivity |].
  unfold same at 1, kind_EqType at 1.
  destruct (kind_eqb (snd r) STR); cbn [List.length]; rewrite (IH (b + 1)); reflexivity.
Qed.

(** The two content checks in terms of the rows. *)
Lemma attr_content_check_counts (rows : list (Z * Z * kind_t)) :
  attr_content_check (void 0 (map (fun r => fst (fst r)) rows)) (void 0 (map snd rows))
  = Done tt
  <-> List.length (distinct (map (fun r => fst (fst r)) rows))
      = List.length (filter (fun r => kind_eqb (snd r) STR) rows)
      /\ rows_in rows (distinct (map (fun r => fst (fst r)) rows))
         = List.length (distinct (map (fun r => fst (fst r)) rows)).
Proof.
  unfold attr_content_check. cbv zeta.
  unfold tunique. rewrite map_snd_void.
  rewrite count_strings, sum_pump_count.
  unfold count, pump_count. rewrite !length_map.
  destruct (Z.of_nat (List.length (distinct (map (fun r => fst (fst r)) rows)))
            =? Z.of_nat (List.length (filter (fun r => kind_eqb (snd r) STR) rows))) eqn:H1;
    cbn [negb].
  - apply Z.eqb_eq in H1. apply Nat2Z.inj in H1.
    destruct (Z.of_nat (List.length (distinct (map (fun r => fst (fst r)) rows)))
              =? Z.of_nat (rows_in rows (distinct (map (fun r => fst (fst r)) rows)))) eqn:H2;
      cbn [negb].
    + apply Z.eqb_eq in H2. apply Nat2Z.inj in H2.
      split; [intros _; split; congruence | reflexivity].
    + apply Z.eqb_neq in H2.
      split; [discriminate |]. intros [_ H]. exfalso. apply H2. rewrite H. reflexivity.
  - apply Z.eqb_neq in H1.
    split; [discriminate |]. intros [H _]. exfalso. apply H1. rewrite H. reflexivity.
Qed.




(** Two strings in one iteration are refused. *)
Lemma attr_content_two_strings :
  attr_content (void 0 [1]) (void 0 [1; 1]) (void 0 [5; 6]) (void 0 [STR; STR]) (void 0 [1])
  = ERROR "there can be only one string for each iter in attribute construction".
Proof. reflexivity. Qed.

End AttrFacts.

(** ** The uniqueness test of the element constructor *)

Section DistinctFacts.

Import MIL.

Context {T : Type} {eq : EqType T} (L : Lawful T).

Lemma same_refl (x : T) : same x x = true.
Proof. apply L. reflexivity. Qed.

Lemma in_distinct_gen (l : list T) (x : T) : In x (distinct l) <-> In x l.
Proof.
  induction l as [| a l IH]; cbn [distinct]; [reflexivity |].
  cbn [In]. rewrite filter_In, IH.
  destruct (same a x) eqn:Hax.
  - apply L in Hax. split; intros _; left; exact Hax.
  - split.
    + intros [H | [H _]]; [left; exact H | right; exact H].
    + intros [H | H]; [left; exact H | right]. split; [exact H | reflexivity].
Qed.

Lemma length_distinct_le (l : list T) : (List.length (distinct l) <= List.length l)%nat.
Proof.
  induction l as [| a l IH]; cbn [distinct List.length]; [lia |].
  pose proof (filter_length_le (fun y => negb (same a y)) (distinct l)). lia.
Qed.

(** [tunique] keeps the number of rows exactly when no value occurs twice. *)
Lemma length_distinct_NoDup (l : list T) :
  List.length (distinct l) = List.length l <-> NoDup l.
Proof.
  induction l as [| a l IH]; cbn [distinct List.length].
  - split; [intros _; constructor | reflexivity].
  - pose proof (filter_length_le (fun y => negb (same a y)) (distinct l)) as Hf.
    pose proof (length_distinct_le l) as Hd.
    split.
    + intros H. constructor.
      * intros Hin. apply (proj2 (in_distinct_gen _ _)) in Hin.
        assert (Hall : forall x, In x (distinct l) -> negb (same a x) = true).
        { apply filter_length_all. lia. }
        specialize (Hall a Hin). rewrite same_refl in Hall. discriminate.
      * apply IH. lia.
    + intros H. inversion H as [| a' l' Hnot Hnd]; subst. f_equal.
      rewrite <- (proj2 IH Hnd). apply filter_length_all.
      intros x Hx. apply (proj1 (in_distinct_gen _ _)) in Hx.
      destruct (same a x) eqn:Hax; [| reflexivity].
      apply L in Hax. subst. contradiction.
Qed.

End DistinctFacts.

Section ElemFacts.

Import MIL.

Lemma prod_Lawful {A B : Type} {ea : EqType A} {eb : EqType B} :
  Lawful A -> Lawful B -> Lawful (A * B).
Proof.
  intros LA LB [a b] [a' b']. unfold same, prod_EqType. cbn [fst snd].
  rewrite andb_true_iff. rewrite (LA a a'), (LB b b').
  split; [intros [-> ->]; reflexivity | intros H; inversion H; split; reflexivity].
Qed.

(** Grouping on an aligned column pairs the two columns row by row. *)
Lemma CTgroup2_aligned {R G U : Type} (g : R -> G) (h : R -> U) (rows : list R) (b : oid) :
  CTgroup2 (void b (map g rows)) (void b (map h rows))
  = void b (map (fun r => (g r, h r)) rows).
Proof.
  unfold CTgroup2. rewrite (void_map g), (void_map (fun r => (g r, h r))).
  rewrite flat_map_concat_map, map_map, <- flat_map_concat_map. cbn [fst snd].
  rewrite (flat_map_ext_in _ (fun p => [(fst p, (g (snd p), h (snd p)))])).
  - apply flat_map_singleton.
  - intros [k r] Hin. cbn [fst snd]. rewrite (fetch_void_in h rows b k r Hin). reflexivity.
Qed.

(** The positional join on aligned columns reads the table row by row. *)
Lemma mposjoin_aligned {R U : Type} (pos frag : R -> oid) (table : ws_table U)
    (rows : list R) (b : oid) :
  mposjoin (void b (map pos rows)) (void b (map frag rows)) table
  = void b (map (fun r => table (frag r) (pos r)) rows).
Proof.
  unfold mposjoin. rewrite (void_map pos), (void_map (fun r => table (frag r) (pos r))).
  rewrite flat_map_concat_map, map_map, <- flat_map_concat_map. cbn [fst snd].
  rewrite (flat_map_ext_in _ (fun p => [(fst p, table (frag (snd p)) (pos (snd p)))])).
  - apply flat_map_singleton.
  - intros [k r] Hin. cbn [fst snd]. rewrite (fetch_void_in frag rows b k r Hin). reflexivity.
Qed.




(** Two rows for one attribute in one iteration are refused. *)
Lemma same_attribute_twice_refused :
  attr_unique_check (fun _ _ => 0) (fun frag _ => frag)
                    (void 0 [1; 1]) (void 0 [0; 0]) (void 0 [1; 1]) false
  = ERROR "attributes are not unique in element construction within each iter".
Proof. reflexivity. Qed.

End ElemFacts.

(** ** What the translation leaves alone *)

Section FrameFacts.

Variable E : externals.
Variable f : FILE.
Variable R : world -> world -> Prop.
Variable with_stdout : bool.

Hypothesis R_refl : forall w, R w w.
Hypothesis R_trans : forall w1 w2 w3, R w1 w2 -> R w2 w3 -> R w1 w3.
Hypothesis R_sink : forall s w, R w (write f s w).
Hypothesis R_stdout : with_stdout = true -> forall s w, R w (write stdout s w).
Hypothesis R_log : forall s w, R w (add_log s w).
Hypothesis R_slot : forall e w, R w (add_slot e w).

Lemma resp_bind {A B : Type} (m : M A) (k : A -> M B) :
  respects R m -> (forall a, respects R (k a)) -> respects R (bind m k).
Proof.
  intros Hm Hk w r w' H.
  destruct (bind_inv _ _ _ _ _ H) as [(a & w1 & H1 & H2) | [[H1 _] | (rc & msg & H1 & _)]].
  - exact (R_trans _ _ _ (Hm _ _ _ H1) (Hk _ _ _ _ H2)).
  - exact (Hm _ _ _ H1).
  - exact (Hm _ _ _ H1).
Qed.

Lemma resp_ret {A : Type} (a : A) : respects R (ret a).
Proof. intros w r w' H. inversion H. apply R_refl. Qed.

Lemma resp_fault {A : Type} : respects R (@fault A).
Proof. intros w r w' H. inversion H. apply R_refl. Qed.

Lemma resp_PFoops {A : Type} (rc : PFrc_t) (msg : string) : respects R (@PFoops A rc msg).
Proof. intros w r w' H. inversion H. apply R_refl. Qed.

Lemma resp_get {A : Type} (g : world -> A) : respects R (get g).
Proof. intros w r w' H. inversion H. apply R_refl. Qed.

Lemma resp_fprintf (fmt : string) (args : list printf_arg) :
  respects R (fprintf E f fmt args).
Proof. intros w r w' H. inversion H. apply R_sink. Qed.

Lemma resp_printf (fmt : string) (args : list printf_arg) :
  with_stdout = true -> respects R (printf E fmt args).
Proof. intros Hs w r w' H. inversion H. apply (R_stdout Hs). Qed.

Lemma resp_PFlog (msg : string) : respects R (PFlog msg).
Proof. intros w r w' H. inversion H. apply R_log. Qed.

Lemma resp_slot (e : slot_event) : respects R (modify (add_slot e)).
Proof. intros w r w' H. inversion H. apply R_slot. Qed.

Ltac resp_step :=
  lazymatch goal with
  | |- respects _ (fprintf _ _ _ _) => apply resp_fprintf
  | |- respects _ (ret _) => apply resp_ret
  | |- respects _ fault => apply resp_fault
  | |- respects _ (PFoops _ _) => apply resp_PFoops
  | |- respects _ (get _) => apply resp_get
  | |- respects _ (PFlog _) => apply resp_PFlog
  | |- respects _ (modify (add_slot _)) => apply resp_slot
  | |- respects _ (bind _ _) => apply resp_bind; [| intros ? ]
  | |- respects _ (match ?x with _ => _ end) => destruct x
  | |- respects _ (let _ := _ in _) => cbv zeta
  end.

Ltac resp_tac := repeat resp_step.

Lemma resp_kind_of (c : PFcnode_t) : respects R (kind_of c).
Proof. unfold kind_of. resp_tac. Qed.

Lemma resp_deref_var (c : PFcnode_t) : respects R (deref_var c).
Proof. unfold deref_var, var_of. resp_tac. Qed.

Lemma resp_translateEmpty : respects R (translateEmpty E f).
Proof. unfold translateEmpty. resp_tac. Qed.

Lemma resp_cleanUpLevel (l : Z) : respects R (cleanUpLevel E f l).
Proof. unfold cleanUpLevel. resp_tac. Qed.

Lemma resp_translateVar (l : Z) (c : PFcnode_t) : respects R (translateVar E f l c).
Proof.
  unfold translateVar.
  repeat first [ lazymatch goal with |- respects R (deref_var _) => apply resp_deref_var end
               | resp_step ].
Qed.

Lemma resp_translateSeq (i : Z) : respects R (translateSeq E f i).
Proof. unfold translateSeq. resp_tac. Qed.

Lemma resp_project (l : Z) : respects R (project E f l).
Proof. unfold project. resp_tac. Qed.

Lemma resp_getExpanded (l fid : Z) : respects R (getExpanded E f l fid).
Proof. unfold getExpanded. resp_tac. Qed.

Lemma resp_expand (l : Z) : respects R (expand E f l).
Proof. unfold expand. resp_tac. Qed.

Lemma resp_join (l : Z) : respects R (join E f l).
Proof. unfold join. resp_tac. Qed.

Lemma resp_mapBack (l : Z) : respects R (mapBack E f l).
Proof. unfold mapBack. resp_tac. Qed.

Lemma resp_createNewVarTable (l : Z) : respects R (createNewVarTable E f l).
Proof. unfold createNewVarTable. resp_tac. Qed.

Lemma resp_insertVar (l v : Z) : respects R (insertVar E f l v).
Proof. unfold insertVar, append. resp_tac. Qed.

Lemma resp_translateConst (l : Z) (k : string) : respects R (translateConst E f l k).
Proof. unfold translateConst. resp_tac. Qed.

Lemma resp_loop_liftedSCJ (axis : string) (kind ns loc : option string) :
  respects R (loop_liftedSCJ E f axis kind ns loc).
Proof. unfold loop_liftedSCJ. resp_tac. Qed.

Lemma resp_translateLocsteps (c : PFcnode_t) : respects R (translateLocsteps E f c).
Proof.
  unfold translateLocsteps, qname_of.
  repeat first [ lazymatch goal with
                 | |- respects R (loop_liftedSCJ _ _ _ _ _ _) => apply resp_loop_liftedSCJ
                 end
               | resp_step ].
Qed.

Lemma resp_addValues (t v : string) : respects R (addValues E f t v).
Proof. unfold addValues. resp_tac. Qed.

Lemma resp_createEnumeration : respects R (createEnumeration E f).
Proof.
  unfold createEnumeration.
  repeat first [ lazymatch goal with |- respects R (addValues _ _ _ _) => apply resp_addValues end
               | resp_step ].
Qed.

Lemma resp_castQName : respects R (castQName E f).
Proof. unfold castQName. resp_tac. Qed.

Lemma resp_loop_liftedElemConstr (i : Z) : respects R (loop_liftedElemConstr E f i).
Proof. unfold loop_liftedElemConstr. resp_tac. Qed.

Lemma resp_loop_liftedAttrConstr (l i : Z) : respects R (loop_liftedAttrConstr E f l i).
Proof. unfold loop_liftedAttrConstr. resp_tac. Qed.

Lemma resp_loop_liftedTextConstr : respects R (loop_liftedTextConstr E f).
Proof. unfold loop_liftedTextConstr. resp_tac. Qed.


Lemma resp_saveResult (n : Z) : respects R (saveResult E f n).
Proof. unfold saveResult. resp_tac. Qed.

Lemma resp_deleteResult (n : Z) : respects R (deleteResult E f n).
Proof. unfold deleteResult. resp_tac. Qed.

Lemma resp_sem (s : sem_t) :
  respects R (num_of s) /\ respects R (dec_of s) /\ respects R (dbl_of s)
  /\ respects R (str_of s) /\ respects R (qname_of s) /\ respects R (fun_of s).
Proof.
  unfold num_of, dec_of, dbl_of, str_of, qname_of, fun_of.
  repeat split; resp_tac.
Qed.

Lemma resp_type_of (c : PFcnode_t) : respects R (type_of c).
Proof. unfold type_of. resp_tac. Qed.

Lemma resp_nonnull (s : option string) : respects R (nonnull s).
Proof. unfold nonnull. resp_tac. Qed.

Ltac resp_known :=
  lazymatch goal with
  | |- respects _ (saveResult _ _ _) => apply resp_saveResult
  | |- respects _ (deleteResult _ _ _) => apply resp_deleteResult
  | |- respects _ (num_of _) => apply resp_sem
  | |- respects _ (dec_of _) => apply resp_sem
  | |- respects _ (dbl_of _) => apply resp_sem
  | |- respects _ (str_of _) => apply resp_sem
  | |- respects _ (qname_of _) => apply resp_sem
  | |- respects _ (fun_of _) => apply resp_sem
  | |- respects _ (type_of _) => apply resp_type_of
  | |- respects _ (nonnull _) => apply resp_nonnull
  | |- respects _ (translateEmpty _ _) => apply resp_translateEmpty
  | |- respects _ (cleanUpLevel _ _ _) => apply resp_cleanUpLevel
  | |- respects _ (translateVar _ _ _ _) => apply resp_translateVar
  | |- respects _ (translateSeq _ _ _) => apply resp_translateSeq
  | |- respects _ (project _ _ _) => apply resp_project
  | |- respects _ (getExpanded _ _ _ _) => apply resp_getExpanded
  | |- respects _ (expand _ _ _) => apply resp_expand
  | |- respects _ (join _ _ _) => apply resp_join
  | |- respects _ (mapBack _ _ _) => apply resp_mapBack
  | |- respects _ (createNewVarTable _ _ _) => apply resp_createNewVarTable
  | |- respects _ (insertVar _ _ _ _) => apply resp_insertVar
  | |- respects _ (translateConst _ _ _ _) => apply resp_translateConst
  | |- respects _ (translateLocsteps _ _ _) => apply resp_translateLocsteps
  | |- respects _ (addValues _ _ _ _) => apply resp_addValues
  | |- respects _ (createEnumeration _ _) => apply resp_createEnumeration
  | |- respects _ (castQName _ _) => apply resp_castQName
  | |- respects _ (loop_liftedElemConstr _ _ _) => apply resp_loop_liftedElemConstr
  | |- respects _ (loop_liftedAttrConstr _ _ _ _) => apply resp_loop_liftedAttrConstr
  | |- respects _ (loop_liftedTextConstr _ _) => apply resp_loop_liftedTextConstr
  | |- respects _ (loop_liftedSCJ _ _ _ _ _ _) => apply resp_loop_liftedSCJ
  | |- respects _ (kind_of _) => apply resp_kind_of
  | |- respects _ (deref_var _) => apply resp_deref_var
  end.


Ltac resp_all := repeat first [ resp_known | resp_step ].

Lemma translateIfThen_respects (tr : FILE -> Z -> Z -> PFcnode_t -> M unit) (c : PFcnode_t)
    (l cnt then_ bool_res : Z) :
  (forall l cnt, respects R (tr f l cnt c)) ->
  respects R (translateIfThen E tr f l cnt c then_ bool_res).
Proof.
  intros Htr. unfold translateIfThen. cbv zeta.
  repeat first [ lazymatch goal with |- respects _ (tr _ _ _ _) => apply Htr end
               | resp_known | resp_step ].
Qed.

Lemma translateFunction_respects (tr : FILE -> Z -> Z -> PFcnode_t -> M unit)
    (args : PFcnode_t) (l cnt : Z) (fn : PFqname_t) :
  (forall k s a0 a1 a2 a3, args = Cnode k s a0 a1 a2 a3 ->
                           forall l cnt, respects R (tr f l cnt a0)) ->
  respects R (translateFunction E tr f l cnt fn args).
Proof.
  intros Htr.
  assert (Harg : respects R (translate_child0 tr f l cnt args)).
  { unfold translate_child0. destruct args as [| k s a0 a1 a2 a3].
    - apply resp_fault.
    - apply (Htr k s a0 a1 a2 a3 eq_refl). }
  unfold translateFunction.
  repeat first [ lazymatch goal with
                 | |- respects _ (translate_child0 _ _ _ _ _) => exact Harg
                 end
               | resp_known | resp_step ].
Qed.

Lemma is_free_children (kind : PFctype_t) (sem : sem_t) (c0 c1 c2 c3 : PFcnode_t) :
  (with_stdout = false -> ifthenelse_free (Cnode kind sem c0 c1 c2 c3) = true) ->
  (with_stdout = false -> is_c_ifthenelse kind = false)
  /\ (with_stdout = false -> ifthenelse_free c0 = true)
  /\ (with_stdout = false -> ifthenelse_free c1 = true)
  /\ (with_stdout = false -> ifthenelse_free c2 = true)
  /\ (with_stdout = false -> ifthenelse_free c3 = true).
Proof.
  intros H. cbn [ifthenelse_free] in H.
  repeat split; intros Hs; specialize (H Hs);
    repeat (apply andb_true_iff in H; destruct H as [H ?]);
    try assumption.
  apply negb_true_iff. exact H.
Qed.

Lemma translate2MIL_respects_children (c : PFcnode_t) :
  (with_stdout = false -> ifthenelse_free c = true) ->
  (forall l cnt, respects R (translate2MIL E f l cnt c))
  /\ (forall k s a0 a1 a2 a3, c = Cnode k s a0 a1 a2 a3 ->
                              forall l cnt, respects R (translate2MIL E f l cnt a0)).
Proof.
  induction c as [| kind sem c0 IH0 c1 IH1 c2 IH2 c3 IH3]; intros Hfree.
  - split; [| discriminate]. intros l cnt. cbn [translate2MIL]. apply resp_fault.
  - destruct (is_free_children _ _ _ _ _ _ Hfree) as (Hk & H0 & H1 & H2 & H3).
    destruct (IH0 H0) as [T0 T00]. destruct (IH1 H1) as [T1 _].
    destruct (IH2 H2) as [T2 _]. destruct (IH3 H3) as [T3 _].
    clear IH0 IH1 IH2 IH3.
    split; [| intros k s a0 a1 a2 a3 Heq; inversion Heq; subst; exact T0].
    intros l cnt.
    assert (Hif : forall c' l' cnt' t b,
               (forall l cnt, respects R (translate2MIL E f l cnt c')) ->
               respects R (translateIfThen E (translate2MIL E) f l' cnt' c' t b)).
    { intros c' l' cnt' t b Hc'. apply translateIfThen_respects. exact Hc'. }
    destruct kind; cbn [translate2MIL];
      try solve [ repeat first
                    [ lazymatch goal with
                      | |- respects _ (translate2MIL _ _ _ _ c0) => apply T0
                      | |- respects _ (translate2MIL _ _ _ _ c1) => apply T1
                      | |- respects _ (translate2MIL _ _ _ _ c2) => apply T2
                      | |- respects _ (translate2MIL _ _ _ _ c3) => apply T3
                      | |- respects _ (translateFunction _ _ _ _ _ _ _) =>
                        apply translateFunction_respects; exact T00
                      end
                    | resp_known | resp_step ] ].
    (* c_ifthenelse *)
    assert (Hs : with_stdout = true).
    { case_eq with_stdout; intros Hs; [reflexivity | discriminate (Hk Hs)]. }
    repeat first
      [ lazymatch goal with
        | |- respects _ (translate2MIL _ _ _ _ c0) => apply T0
        | |- respects _ (translateIfThen _ _ _ _ _ c1 _ _) => apply Hif; exact T1
        | |- respects _ (translateIfThen _ _ _ _ _ c2 _ _) => apply Hif; exact T2
        | |- respects _ (printf _ _ _) => apply resp_printf; exact Hs
        end
      | resp_known | resp_step ].
Qed.

Lemma translate2MIL_respects (l cnt : Z) (c : PFcnode_t) :
  (with_stdout = false -> ifthenelse_free c = true) ->
  respects R (translate2MIL E f l cnt c).
Proof. intros H. apply (translate2MIL_respects_children c H). Qed.

End FrameFacts.

(** ** The streams and the annotation under translation *)

Lemma FILE_eqb_eq (a b : FILE) : FILE_eqb a b = true <-> a = b.
Proof.
  destruct a as [| | n], b as [| | m]; cbn [FILE_eqb];
    try (split; [discriminate | intros H; discriminate H]);
    try (split; reflexivity).
  rewrite Nat.eqb_eq. split; [intros H; subst; reflexivity | intros H; inversion H; reflexivity].
Qed.

Lemma FILE_eqb_neq (a b : FILE) : a <> b -> FILE_eqb a b = false.
Proof.
  intros H. destruct (FILE_eqb a b) eqn:Hab; [| reflexivity].
  apply FILE_eqb_eq in Hab. contradiction.
Qed.

Lemma string_app_nil_r (s : string) : (s ++ EmptyString)%string = s.
Proof. induction s as [| a s IH]; cbn; [reflexivity | rewrite IH; reflexivity]. Qed.

Lemma string_app_assoc (a b c : string) : ((a ++ b) ++ c)%string = (a ++ (b ++ c))%string.
Proof. induction a as [| x a IH]; cbn; [reflexivity | rewrite IH; reflexivity]. Qed.

Lemma extends_refl (w : world) : extends w w.
Proof. intros g. exists EmptyString. symmetry. apply string_app_nil_r. Qed.

Lemma extends_trans (w1 w2 w3 : world) : extends w1 w2 -> extends w2 w3 -> extends w1 w3.
Proof.
  intros H12 H23 g. destruct (H12 g) as [s1 H1]. destruct (H23 g) as [s2 H2].
  exists (s1 ++ s2)%string. rewrite H2, H1. apply string_app_assoc.
Qed.

Lemma extends_write (h : FILE) (s : string) (w : world) : extends w (write h s w).
Proof.
  intros g. cbn [files write]. destruct (FILE_eqb h g).
  - exists s. reflexivity.
  - exists EmptyString. symmetry. apply string_app_nil_r.
Qed.

Lemma translate2MIL_same_annotation
    (E : externals) (f : FILE) (act_level counter : Z) (c : PFcnode_t) :
  respects same_annotation (translate2MIL E f act_level counter c).
Proof.
  apply (translate2MIL_respects E f same_annotation true).
  - intros w0. repeat split.
  - intros w1 w2 w3 (Ha & Hb & Hc & Hd) (Ha' & Hb' & Hc' & Hd').
    repeat split; congruence.
  - intros s w0. repeat split.
  - intros _ s w0. repeat split.
  - intros s w0. repeat split.
  - intros e w0. repeat split.
  - discriminate.
Qed.

(** The translation reads the annotation and never changes it: the
    variable descriptors, the stack of scope ids, the counters and the
    usage pairs are the same after any run of [translate2MIL], complete or
    cut short. *)
Theorem translation_keeps_annotation
    (E : externals) (f : FILE) (act_level counter : Z) (c : PFcnode_t) (w : world) :
  same_annotation w (snd (translate2MIL E f act_level counter c w)).
Proof.
  apply (translate2MIL_same_annotation E f act_level counter c w
           (fst (translate2MIL E f act_level counter c w))).
  apply surjective_pairing.
Qed.



(** The streams are append-only: after any run of [translate2MIL] every
    stream holds the text it held before, followed by what the run wrote. *)
Theorem translation_appends
    (E : externals) (f : FILE) (act_level counter : Z) (c : PFcnode_t) (w : world) :
  extends w (snd (translate2MIL E f act_level counter c w)).
Proof.
  apply (translate2MIL_respects E f extends true) with
    (l := act_level) (cnt := counter) (c := c)
    (r := fst (translate2MIL E f act_level counter c w)).
  - apply extends_refl.
  - apply extends_trans.
  - intros s w0. apply extends_write.
  - intros _ s w0. apply extends_write.
  - intros s w0 g. exact (extends_refl w0 g).
  - intros e w0 g. exact (extends_refl w0 g).
  - discriminate.
  - apply surjective_pairing.
Qed.

(** The conditional is the only construct that writes to standard output:
    the translation of a tree without a conditional to another stream
    leaves standard output as it was. *)
Theorem translation_without_conditional_keeps_stdout
    (E : externals) (f : FILE) (act_level counter : Z) (c : PFcnode_t) (w : world) :
  ifthenelse_free c = true -> f <> stdout ->
  files (snd (translate2MIL E f act_level counter c w)) stdout = files w stdout.
Proof.
  intros Hfree Hf.
  apply (translate2MIL_respects E f (fun w w' => files w' stdout = files w stdout) false) with
    (l := act_level) (cnt := counter) (c := c)
    (r := fst (translate2MIL E f act_level counter c w)).
  - reflexivity.
  - intros w1 w2 w3 H12 H23. congruence.
  - intros s w0. cbn [files write]. rewrite FILE_eqb_neq; [reflexivity | exact Hf].
  - discriminate.
  - reflexivity.
  - reflexivity.
  - intros _. exact Hfree.
  - apply surjective_pairing.
Qed.

(** The sequence [(true, true)] has no conditional. *)
Lemma translation_without_conditional_witness :
  files (snd (translate2MIL sample_externals (stream 0) 0 0 seq_true_true world0)) stdout
  = files world0 stdout.
Proof.
  apply (translation_without_conditional_keeps_stdout
           sample_externals (stream 0) 0 0 seq_true_true world0);
    [reflexivity | discriminate].
Defined.

(** ** Sequences with an empty operand, for every operand *)

(** A sequence whose right operand is the empty sequence is translated as
    its left operand, whatever the left operand is: same result, same
    world. *)
Theorem seq_right_empty_translates_left
    (E : externals) (f : FILE) (l cnt : Z) (s se : sem_t)
    (X e0 e1 e2 e3 c2 c3 : PFcnode_t) (w : world) :
  translate2MIL E f l cnt (Cnode c_seq s X (Cnode c_empty se e0 e1 e2 e3) c2 c3) w
  = translate2MIL E f l cnt X w.
Proof.
  destruct X as [| k sx x0 x1 x2 x3]; [reflexivity |].
  apply seq_empty_right.
Qed.

(** A sequence whose left operand is the empty sequence and whose right
    operand is not is translated as the empty sequence: nothing of the right
    operand is written, and the run returns even where the translation of
    the right operand would stop. *)
Theorem seq_left_empty_never_translates_right
    (E : externals) (f : FILE) (l cnt : Z) (s se sx : sem_t) (k : PFctype_t)
    (x0 x1 x2 x3 e0 e1 e2 e3 c2 c3 : PFcnode_t) (w : world) :
  is_c_empty k = false ->
  translate2MIL E f l cnt
    (Cnode c_seq s (Cnode c_empty se e0 e1 e2 e3) (Cnode k sx x0 x1 x2 x3) c2 c3) w
  = translateEmpty E f w
  /\ fst (translate2MIL E f l cnt
            (Cnode c_seq s (Cnode c_empty se e0 e1 e2 e3) (Cnode k sx x0 x1 x2 x3) c2 c3) w)
     = Ok tt.
Proof.
  intros Hk. rewrite (seq_empty_left E f l cnt s se k sx x0 x1 x2 x3 e0 e1 e2 e3 c2 c3 w Hk).
  split; reflexivity.
Qed.

(** A type switch is not supported and stops the translation; after an
    empty left operand it is not looked at. *)
Lemma seq_left_empty_witness :
  fst (translate2MIL sample_externals (stream 0) 0 0 (leaf c_typesw sem_none) world0)
  = Oops OOPS_WARNING "not supported feature is translated"
  /\ (translate2MIL sample_externals (stream 0) 0 0
        (Cnode c_seq sem_none node_empty (leaf c_typesw sem_none) NULL NULL) world0
      = translateEmpty sample_externals (stream 0) world0
      /\ fst (translate2MIL sample_externals (stream 0) 0 0
                (Cnode c_seq sem_none node_empty (leaf c_typesw sem_none) NULL NULL) world0)
         = Ok tt).
Proof.
  split; [reflexivity |].
  apply (seq_left_empty_never_translates_right sample_externals (stream 0) 0 0
           sem_none sem_none sem_none c_typesw NULL NULL NULL NULL NULL NULL NULL NULL
           NULL NULL world0).
  reflexivity.
Defined.

(** ** The axes of a location step *)

(** A location step stops with the illegal-axis abort exactly when its
    kind is not one of the twelve axes, whatever its node test is. *)
Theorem illegal_axis_exactly_outside_the_axes
    (E : externals) (f : FILE) (kind : PFctype_t) (s : sem_t)
    (test c1 c2 c3 : PFcnode_t) (w : world) :
  fst (translateLocsteps E f (Cnode kind s test c1 c2 c3) w) = illegal_axis
  <-> is_axis kind = false.
Proof.
  destruct (is_axis kind) eqn:Hax.
  - split; [| discriminate]. intros H. exfalso. revert w H.
    change (legal_axis (translateLocsteps E f (Cnode kind s test c1 c2 c3))).
    unfold translateLocsteps.
    apply legal_axis_bind; [apply legal_axis_fprintf | intros _].
    apply legal_axis_bind; [destruct kind; try discriminate Hax; apply legal_axis_ret
                           | intros axis].
    destruct test as [| tk ts t0 t1 t2 t3]; [apply legal_axis_fault |].
    apply legal_axis_bind.
    + destruct tk; try apply legal_axis_node_test; try apply legal_axis_SCJ.
      apply legal_axis_bind; [destruct ts; (apply legal_axis_ret || apply legal_axis_fault)
                             | intros q].
      apply legal_axis_SCJ.
    + intros _.
      apply legal_axis_bind; [apply legal_axis_fprintf | intros _].
      apply legal_axis_bind;
        [destruct (String.eqb axis "attribute"); apply legal_axis_fprintf | intros _].
      apply legal_axis_fprintf.
  - split; [reflexivity |]. intros _.
    destruct kind; try discriminate Hax;
      cbv [translateLocsteps bind fprintf modify PFoops fst]; reflexivity.
Qed.

(** ** The counters of the annotator *)

Lemma var_leaf_counts (c : PFcnode_t) :
  var_leaf c = true -> count_for c = 0 /\ count_binders c = 0.
Proof.
  destruct c as [| k s c0 c1 c2 c3]; [split; reflexivity |].
  cbn [var_leaf].
  destruct k; try discriminate;
    destruct c0; try discriminate; destruct c1; try discriminate;
    destruct c2; try discriminate; destruct c3; try discriminate;
    split; reflexivity.
Qed.

Lemma is_c_var_binders (c : PFcnode_t) (k : PFctype_t) (w w' : world) :
  kind_of c w = (Ok k, w') ->
  match c with
  | Cnode c_var _ _ _ _ _ => 2
  | _ => 1
  end = if is_c_var k then 2 else 1.
Proof.
  destruct c as [| k0 s c0 c1 c2 c3]; [discriminate |].
  intros H. inversion H; subst. destruct k; reflexivity.
Qed.

Section CounterFacts.

Variable E : externals.
Variable f : FILE.

Lemma counted_opt (c : PFcnode_t) (w : world) (c' : PFcnode_t) (w' : world) :
  counted E f c ->
  wf_core c = true ->
  match c with
  | NULL => ret NULL
  | Cnode _ _ _ _ _ _ => append_lev E f c
  end w = (Ok c', w') ->
  counter w' FID = counter w FID + count_for c
  /\ counter w' VID = counter w VID + count_binders c
  /\ way w' = way w.
Proof.
  intros IH Hwf H. destruct c as [| k s c0 c1 c2 c3].
  - inversion H; subst. cbn [count_for count_binders]. repeat split; lia.
  - exact (IH _ _ _ Hwf H).
Qed.

Lemma counted_generic (kind : PFctype_t) (sem : sem_t) (c0 c1 c2 c3 : PFcnode_t) :
  counted E f c0 -> counted E f c1 -> counted E f c2 -> counted E f c3 ->
  count_for (Cnode kind sem c0 c1 c2 c3)
  = count_for c0 + count_for c1 + count_for c2 + count_for c3 ->
  count_binders (Cnode kind sem c0 c1 c2 c3)
  = count_binders c0 + count_binders c1 + count_binders c2 + count_binders c3 ->
  contiguous c0 c1 c2 c3 && wf_core c0 && wf_core c1 && wf_core c2 && wf_core c3 = true ->
  forall w c' w',
    match c0 with
    | NULL => ret (Cnode kind sem c0 c1 c2 c3)
    | Cnode _ _ _ _ _ _ =>
      child0' <- append_lev E f c0 ;;
      match c1 with
      | NULL => ret (Cnode kind sem child0' c1 c2 c3)
      | Cnode _ _ _ _ _ _ =>
        child1' <- append_lev E f c1 ;;
        match c2 with
        | NULL => ret (Cnode kind sem child0' child1' c2 c3)
        | Cnode _ _ _ _ _ _ =>
          child2' <- append_lev E f c2 ;;
          match c3 with
          | NULL => ret (Cnode kind sem child0' child1' child2' c3)
          | Cnode _ _ _ _ _ _ =>
            child3' <- append_lev E f c3 ;;
            ret (Cnode kind sem child0' child1' child2' child3')
          end
        end
      end
    end w = (Ok c', w') ->
    counter w' FID = counter w FID + count_for (Cnode kind sem c0 c1 c2 c3)
    /\ counter w' VID = counter w VID + count_binders (Cnode kind sem c0 c1 c2 c3)
    /\ way w' = way w.
Proof.
  intros IH0 IH1 IH2 IH3 Hfor Hbind Hwf w c' w' H.
  rewrite Hfor, Hbind. clear Hfor Hbind.
  repeat (apply andb_prop in Hwf; destruct Hwf as [Hwf ?]).
  rename Hwf into Hcont.
  destruct c0 as [| k0 s0 a0 b0 d0 e0].
  { destruct c1, c2, c3; try discriminate Hcont.
    minv. cbn [count_for count_binders]. repeat split; lia. }
  cbv beta iota in H. minv.
  match goal with
  | H0 : append_lev E f (Cnode k0 _ _ _ _ _) _ = _ |- _ =>
    apply IH0 in H0; [destruct H0 as (Hf0 & Hv0 & Hw0) | assumption]
  end.
  destruct c1 as [| k1 s1 a1 b1 d1 e1].
  { destruct c2, c3; try discriminate Hcont.
    minv. change (count_for NULL) with 0. change (count_binders NULL) with 0.
    repeat split; [lia | lia | exact Hw0]. }
  cbv beta iota in H. minv.
  match goal with
  | H1 : append_lev E f (Cnode k1 _ _ _ _ _) _ = _ |- _ =>
    apply IH1 in H1; [destruct H1 as (Hf1 & Hv1 & Hw1) | assumption]
  end.
  destruct c2 as [| k2 s2 a2 b2 d2 e2].
  { destruct c3; try discriminate Hcont.
    minv. change (count_for NULL) with 0. change (count_binders NULL) with 0.
    repeat split; [lia | lia | congruence]. }
  cbv beta iota in H. minv.
  match goal with
  | H2 : append_lev E f (Cnode k2 _ _ _ _ _) _ = _ |- _ =>
    apply IH2 in H2; [destruct H2 as (Hf2 & Hv2 & Hw2) | assumption]
  end.
  destruct c3 as [| k3 s3 a3 b3 d3 e3].
  { minv. change (count_for NULL) with 0. change (count_binders NULL) with 0.
    repeat split; [lia | lia | congruence]. }
  cbv beta iota in H. minv.
  match goal with
  | H3 : append_lev E f (Cnode k3 _ _ _ _ _) _ = _ |- _ =>
    apply IH3 in H3; [destruct H3 as (Hf3 & Hv3 & Hw3) | assumption]
  end.
  repeat split; [lia | lia | congruence].
Qed.

Ltac same_world :=
  repeat match goal with
         | Hv : var_of _ _ = (Ok _, _) |- _ => apply var_of_inv in Hv; subst
         | Hk : kind_of _ _ = (Ok _, _) |- _ => apply kind_of_inv in Hk; subst
         end.

Ltac use_counted IH Hwf Hf Hv Hw :=
  match goal with
  | H : match ?c with
        | NULL => ret NULL
        | Cnode _ _ _ _ _ _ => append_lev _ _ ?c
        end _ = (Ok _, _) |- _ =>
    apply (counted_opt _ _ _ _ IH Hwf) in H; destruct H as (Hf & Hv & Hw)
  end.

Lemma append_lev_counted (c : PFcnode_t) : counted E f c.
Proof.
  induction c as [| kind sem c0 IH0 c1 IH1 c2 IH2 c3 IH3]; intros w c' w' Hwf H.
  - discriminate H.
  - destruct kind;
      try (cbn [wf_core] in Hwf; cbn [append_lev] in H;
           refine (counted_generic _ _ _ _ _ _ IH0 IH1 IH2 IH3 _ _ Hwf _ _ _ H);
           cbn [count_for count_binders]; lia).
    + (* c_var *)
      cbn [append_lev] in H. unfold update_expansion, deref_var, set_used in H.
      minv.
      repeat match goal with
             | Hv : var_of _ _ = (Ok _, _) |- _ => apply var_of_inv in Hv; subst
             end.
      match goal with
      | Hl : update_expansion_loop _ _ _ _ _ = _ |- _ =>
        apply update_expansion_loop_frame in Hl; destruct Hl as (Hw & Hc & _)
      end.
      destruct (var_leaf_counts _ Hwf) as [Hcf Hcb]. rewrite Hcf, Hcb.
      cbn [way counter set_var]. rewrite Hw, Hc.
      repeat split; lia.
    + (* c_let *)
      cbn [wf_core] in Hwf. cbn [append_lev] in H.
      unfold set_base, set_vid, set_used in H.
      apply andb_prop in Hwf; destruct Hwf as [Hwf Hwf3].
      apply andb_prop in Hwf; destruct Hwf as [Hwf Hwf2].
      apply andb_prop in Hwf; destruct Hwf as [Hwf0 Hwf1].
      minv. same_world.
      use_counted IH1 Hwf1 Hf1 Hv1 Hw1.
      use_counted IH2 Hwf2 Hf2 Hv2 Hw2.
      cbn [way counter set_counter set_var upd FID VID ACT_FID Nat.eqb] in Hf2, Hv2, Hw2.
      destruct (var_leaf_counts _ Hwf0) as [Hcf0 Hcb0].
      destruct c3; [| discriminate Hwf3].
      cbn [count_for count_binders]. rewrite Hcf0, Hcb0.
      repeat split; [lia | lia | congruence].
    + (* c_for *)
      cbn [wf_core] in Hwf. cbn [append_lev] in H.
      unfold set_base, set_vid, set_used, PFarray_add, PFarray_del in H.
      apply andb_prop in Hwf; destruct Hwf as [Hwf Hwf3].
      apply andb_prop in Hwf; destruct Hwf as [Hwf Hwf2].
      apply andb_prop in Hwf; destruct Hwf as [Hwf0 Hwf1].
      destruct (var_leaf_counts _ Hwf0) as [Hcf0 Hcb0].
      destruct (var_leaf_counts _ Hwf1) as [Hcf1 Hcb1].
      minv.
      match goal with
      | Hk : kind_of c1 _ = (Ok ?k, _) |- _ =>
        pose proof (is_c_var_binders _ _ _ _ Hk) as Hbind
      end.
      same_world.
      use_counted IH2 Hwf2 Hf2 Hv2 Hw2.
      cbn [count_for count_binders]. rewrite Hbind, Hcf0, Hcb0, Hcf1, Hcb1.
      match goal with
      | Hif : (if is_c_var ?k then _ else _) _ = (Ok _, _) |- _ =>
        destruct (is_c_var k); minv; same_world
      end;
        use_counted IH3 Hwf3 Hf3 Hv3 Hw3;
        cbn [way counter vars set_way set_counter set_var upd FID VID ACT_FID Nat.eqb]
          in Hf3, Hv3, Hw3;
        (match goal with
         | Ht : PFarray_top _ = (Ok _, _) |- _ =>
           unfold PFarray_top in Ht; rewrite Hw3, rev_unit in Ht;
           inversion Ht; subst; clear Ht
         end);
        cbn [way counter vars set_way set_counter set_var upd FID VID ACT_FID Nat.eqb];
        rewrite Hw3, removelast_last;
        (repeat split; [lia | lia | exact Hw2]).
Qed.

(** When [append_lev] returns on a well-formed tree, it has advanced the
    scope counter by the number of [for] nodes of the tree and the variable
    counter by the number of variables the tree binds, and the stack of
    scope ids is as it found it. *)
Theorem append_lev_counts_scopes_and_binders
    (c : PFcnode_t) (w : world) (c' : PFcnode_t) (w' : world) :
  wf_core c = true ->
  append_lev E f c w = (Ok c', w') ->
  counter w' FID = counter w FID + count_for c
  /\ counter w' VID = counter w VID + count_binders c
  /\ way w' = way w.
Proof. intros Hwf H. exact (append_lev_counted c w c' w' Hwf H). Qed.

End CounterFacts.

(** [for $v0 in () return let $v1 := () return for $v2 in () return $v1]
    has two [for] nodes and binds three variables. *)
Lemma append_lev_counts_witness :
  count_for let_inside_for = 2 /\ count_binders let_inside_for = 3
  /\ counter (snd (append_lev sample_externals (stream 0) let_inside_for world0)) FID
     = counter world0 FID + count_for let_inside_for
  /\ counter (snd (append_lev sample_externals (stream 0) let_inside_for world0)) VID
     = counter world0 VID + count_binders let_inside_for
  /\ way (snd (append_lev sample_externals (stream 0) let_inside_for world0)) = way world0.
Proof.
  split; [reflexivity |]. split; [reflexivity |].
  apply (append_lev_counts_scopes_and_binders sample_externals (stream 0) let_inside_for world0
           (Cnode c_for (sem_num 1) (node_var 0%nat) (leaf c_nil sem_none) node_empty
              (Cnode c_let sem_none (node_var 1%nat) node_empty
                 (Cnode c_for (sem_num 2) (node_var 2%nat) (leaf c_nil sem_none) node_empty
                    (node_var 1%nat))
                 NULL))).
  - reflexivity.
  - vm_compute. reflexivity.
Defined.

(** ** The usage pairs of a variable reference *)

Section UsageFacts.

Variable E : externals.
Variable f : FILE.

Lemma update_expansion_loop_usage (var : PFvar_t) (l : list Z) (w : world) :
  descending l = true ->
  fst (update_expansion_loop E f var l w) = Ok tt
  /\ var_usage (snd (update_expansion_loop E f var l w))
     = (var_usage w
        ++ map (fun s => (vid var, s)) (filter (fun s => base var <? s) l))%list.
Proof.
  revert w. induction l as [| fid below IH]; intros w Hd; cbn [update_expansion_loop].
  - cbn. rewrite app_nil_r. split; reflexivity.
  - cbn [descending] in Hd. apply andb_prop in Hd. destruct Hd as [Hall Hd].
    cbn [filter]. rewrite Z.gtb_ltb.
    destruct (base var <? fid) eqn:Hb.
    + cbv [bind fprintf modify]. cbv beta iota.
      match goal with
      | |- context [update_expansion_loop E f var below ?w1] =>
        destruct (IH w1 Hd) as [Hr Hu]
      end.
      split; [exact Hr |].
      rewrite Hu. cbn [var_usage add_usage write map].
      rewrite <- app_assoc. reflexivity.
    + cbn [ret fst snd].
      assert (Hnone : filter (fun s => base var <? s) below = []).
      { apply Z.ltb_ge in Hb. clear - Hall Hb.
        induction below as [| y below IHb]; [reflexivity |].
        cbn [forallb] in Hall. apply andb_prop in Hall. destruct Hall as [Hy Hall].
        apply Z.ltb_lt in Hy. cbn [filter].
        replace (base var <? y) with false by (symmetry; apply Z.ltb_ge; lia).
        apply IHb. exact Hall. }
      rewrite Hnone. cbn [map]. rewrite app_nil_r. split; reflexivity.
Qed.

(** For a reference to a variable, when the stack of scope ids grows
    upwards, [update_expansion] returns and inserts into the usage table
    the pair (vid, s) for exactly the scopes s on the stack that are greater
    than the base of the variable, from the top down. *)
Theorem update_expansion_inserts_scopes_above_base
    (k : PFctype_t) (p : var_ptr) (c0 c1 c2 c3 : PFcnode_t) (w : world) :
  descending (rev (way w)) = true ->
  fst (update_expansion E f (Cnode k (sem_var p) c0 c1 c2 c3) w) = Ok tt
  /\ var_usage (snd (update_expansion E f (Cnode k (sem_var p) c0 c1 c2 c3) w))
     = (var_usage w
        ++ map (fun s => (vid (vars w p), s))
               (filter (fun s => base (vars w p) <? s) (rev (way w))))%list.
Proof.
  intros Hd. unfold update_expansion, deref_var, var_of.
  cbv [bind ret get]. cbv beta iota.
  apply update_expansion_loop_usage. exact Hd.
Qed.

End UsageFacts.

(** With the scopes 1, 2, 3 open, a variable of base 1 is used in the
    scopes 3 and 2. *)
Lemma update_expansion_witness :
  fst (update_expansion sample_externals (stream 0) (node_var 0%nat)
         (set_var 0%nat {| base := 1; vid := 7; used := false |} (set_way [1; 2; 3] world0)))
  = Ok tt
  /\ var_usage
       (snd (update_expansion sample_externals (stream 0) (node_var 0%nat)
               (set_var 0%nat {| base := 1; vid := 7; used := false |}
                        (set_way [1; 2; 3] world0))))
     = [(7, 3); (7, 2)].
Proof.
  apply (update_expansion_inserts_scopes_above_base sample_externals (stream 0)
           c_var 0%nat NULL NULL NULL NULL
           (set_var 0%nat {| base := 1; vid := 7; used := false |} (set_way [1; 2; 3] world0))).
  reflexivity.
Defined.

(** ** The usage table after deduplication and sorting *)

Section SortFacts.

Import MIL.

Context {X : Type} (le : X -> X -> bool).

Lemma insert_by_perm (x : X) (l : list X) : Permutation (insert_by le x l) (x :: l).
Proof.
  induction l as [| y l IH]; cbn [insert_by]; [apply Permutation_refl |].
  destruct (le x y); [apply Permutation_refl |].
  apply perm_trans with (y :: x :: l); [apply perm_skip; exact IH | apply perm_swap].
Qed.

Lemma sort_by_perm (l : list X) : Permutation (sort_by le l) l.
Proof.
  unfold sort_by. induction l as [| x l IH]; cbn [fold_right]; [apply perm_nil |].
  apply perm_trans with (x :: fold_right (insert_by le) [] l);
    [apply insert_by_perm | apply perm_skip; exact IH].
Qed.

Hypothesis le_total : forall a b, le a b = false -> le b a = true.

Lemma insert_by_sorted (x : X) (l : list X) :
  Sorted (fun a b => le a b = true) l ->
  Sorted (fun a b => le a b = true) (insert_by le x l).
Proof.
  induction l as [| y l IH]; intros Hs; cbn [insert_by].
  - constructor; constructor.
  - destruct (le x y) eqn:Hxy.
    + constructor; [exact Hs | constructor; exact Hxy].
    + inversion Hs as [| y' l' Hs' Hhd]; subst.
      constructor; [apply IH; exact Hs' |].
      destruct l as [| z l]; cbn [insert_by].
      * constructor. apply le_total. exact Hxy.
      * destruct (le x z).
        -- constructor. apply le_total. exact Hxy.
        -- constructor. inversion Hhd; subst. assumption.
Qed.

Lemma sort_by_sorted (l : list X) : Sorted (fun a b => le a b = true) (sort_by le l).
Proof.
  unfold sort_by. induction l as [| x l IH]; cbn [fold_right]; [constructor |].
  apply insert_by_sorted. exact IH.
Qed.

End SortFacts.

Section UsageTableFacts.

Import MIL.

Lemma sort_by_map {X Y : Type} (le : Y -> Y -> bool) (g : X -> Y) (l : list X) :
  sort_by le (map g l) = map g (sort_by (fun a b => le (g a) (g b)) l).
Proof.
  unfold sort_by. induction l as [| x l IH]; cbn [map fold_right]; [reflexivity |].
  rewrite IH. generalize (fold_right (insert_by (fun a b => le (g a) (g b))) [] l).
  intros s. induction s as [| y s IHs]; cbn [map insert_by]; [reflexivity |].
  destruct (le (g x) (g y)); cbn [map]; [reflexivity | rewrite IHs; reflexivity].
Qed.

Lemma Sorted_map {X Y : Type} (R : X -> X -> Prop) (R' : Y -> Y -> Prop) (g : X -> Y)
    (l : list X) :
  (forall a b, R a b -> R' (g a) (g b)) -> Sorted R l -> Sorted R' (map g l).
Proof.
  intros Hg Hs. induction Hs as [| a l Hs IH Hhd]; cbn [map]; constructor.
  - exact IH.
  - destruct Hhd as [| b l Hab]; cbn [map]; constructor. apply Hg. exact Hab.
Qed.

Lemma reverse_mark {H T : Type} (b : BAT H T) (s : oid) :
  reverse (mark b s) = void s (map fst b).
Proof.
  unfold reverse. revert s. induction b as [| x b IH]; intros s; cbn [mark map void fst snd].
  - reflexivity.
  - rewrite IH. reflexivity.
Qed.

Lemma in_void_snd {T : Type} (l : list T) (b : oid) (p : oid * T) :
  In p (void b l) -> In (snd p) l.
Proof.
  revert b. induction l as [| x l IH]; intros b H; cbn [void] in H; [destruct H |].
  destruct H as [H | H]; [subst; left; reflexivity | right; exact (IH _ H)].
Qed.

Lemma NoDup_distinct_gen {T : Type} {eq : EqType T} (L : Lawful T) (l : list T) :
  NoDup (distinct l).
Proof.
  induction l as [| a l IH]; cbn [distinct]; constructor.
  - intros Hin. apply filter_In in Hin. destruct Hin as [_ Hneg].
    rewrite (same_refl L) in Hneg. discriminate.
  - apply NoDup_filter. exact IH.
Qed.

Lemma flat_map_self {A : Type} (l : list A) : flat_map (fun a => [a]) l = l.
Proof. induction l as [| a l IH]; cbn; [reflexivity | rewrite IH; reflexivity]. Qed.


End UsageTableFacts.

(** ** The tree the annotator returns, and the driver *)

Lemma same_shape_refl (c : PFcnode_t) : same_shape c c.
Proof.
  induction c as [| k s c0 IH0 c1 IH1 c2 IH2 c3 IH3]; cbn [same_shape]; [exact Logic.I |].
  repeat split; assumption.
Qed.

Section ShapeFacts.

Variable E : externals.
Variable f : FILE.

Lemma shaped_opt (c : PFcnode_t) (w : world) (c' : PFcnode_t) (w' : world) :
  shaped E f c ->
  match c with
  | NULL => ret NULL
  | Cnode _ _ _ _ _ _ => append_lev E f c
  end w = (Ok c', w') ->
  same_shape c c'.
Proof.
  intros IH H. destruct c as [| k s c0 c1 c2 c3].
  - inversion H; subst. exact Logic.I.
  - exact (IH _ _ _ H).
Qed.

Lemma shaped_generic (kind : PFctype_t) (sem : sem_t) (c0 c1 c2 c3 : PFcnode_t) :
  shaped E f c0 -> shaped E f c1 -> shaped E f c2 -> shaped E f c3 ->
  forall w c' w',
    match c0 with
    | NULL => ret (Cnode kind sem c0 c1 c2 c3)
    | Cnode _ _ _ _ _ _ =>
      child0' <- append_lev E f c0 ;;
      match c1 with
      | NULL => ret (Cnode kind sem child0' c1 c2 c3)
      | Cnode _ _ _ _ _ _ =>
        child1' <- append_lev E f c1 ;;
        match c2 with
        | NULL => ret (Cnode kind sem child0' child1' c2 c3)
        | Cnode _ _ _ _ _ _ =>
          child2' <- append_lev E f c2 ;;
          match c3 with
          | NULL => ret (Cnode kind sem child0' child1' child2' c3)
          | Cnode _ _ _ _ _ _ =>
            child3' <- append_lev E f c3 ;;
            ret (Cnode kind sem child0' child1' child2' child3')
          end
        end
      end
    end w = (Ok c', w') ->
    same_shape (Cnode kind sem c0 c1 c2 c3) c'.
Proof.
  intros IH0 IH1 IH2 IH3 w c' w' H.
  destruct c0 as [| k0 s0 a0 b0 d0 e0].
  { minv. apply same_shape_refl. }
  cbv beta iota in H. minv.
  match goal with
  | H0 : append_lev E f (Cnode k0 _ _ _ _ _) _ = _ |- _ => apply IH0 in H0; rename H0 into S0
  end.
  destruct c1 as [| k1 s1 a1 b1 d1 e1].
  { minv. cbn [same_shape].
    repeat split; try apply same_shape_refl. exact S0. }
  cbv beta iota in H. minv.
  match goal with
  | H1 : append_lev E f (Cnode k1 _ _ _ _ _) _ = _ |- _ => apply IH1 in H1; rename H1 into S1
  end.
  destruct c2 as [| k2 s2 a2 b2 d2 e2].
  { minv. cbn [same_shape].
    repeat split; try apply same_shape_refl; assumption. }
  cbv beta iota in H. minv.
  match goal with
  | H2 : append_lev E f (Cnode k2 _ _ _ _ _) _ = _ |- _ => apply IH2 in H2; rename H2 into S2
  end.
  destruct c3 as [| k3 s3 a3 b3 d3 e3].
  { minv. cbn [same_shape].
    repeat split; try apply same_shape_refl; assumption. }
  cbv beta iota in H. minv.
  match goal with
  | H3 : append_lev E f (Cnode k3 _ _ _ _ _) _ = _ |- _ => apply IH3 in H3; rename H3 into S3
  end.
  cbn [same_shape]. repeat split; assumption.
Qed.

Lemma append_lev_shaped (c : PFcnode_t) : shaped E f c.
Proof.
  induction c as [| kind sem c0 IH0 c1 IH1 c2 IH2 c3 IH3]; intros w c' w' H.
  - discriminate H.
  - destruct kind;
      try (cbn [append_lev] in H;
           exact (shaped_generic _ _ _ _ _ _ IH0 IH1 IH2 IH3 _ _ _ H)).
    + (* c_var *)
      cbn [append_lev] in H. minv. apply same_shape_refl.
    + (* c_let *)
      cbn [append_lev] in H. minv.
      repeat match goal with
             | Ho : match ?c with
                    | NULL => ret NULL
                    | Cnode _ _ _ _ _ _ => append_lev _ _ ?c
                    end _ = (Ok _, _) |- _ =>
               first [ apply (shaped_opt _ _ _ _ IH1) in Ho
                     | apply (shaped_opt _ _ _ _ IH2) in Ho ]
             end.
      cbn [same_shape]. repeat split; try apply same_shape_refl; assumption.
    + (* c_for *)
      cbn [append_lev] in H. minv.
      repeat match goal with
             | Ho : match ?c with
                    | NULL => ret NULL
                    | Cnode _ _ _ _ _ _ => append_lev _ _ ?c
                    end _ = (Ok _, _) |- _ =>
               first [ apply (shaped_opt _ _ _ _ IH2) in Ho
                     | apply (shaped_opt _ _ _ _ IH3) in Ho ]
             end.
      cbn [same_shape is_c_for].
      repeat split; try apply same_shape_refl; try assumption. discriminate.
Qed.

(** The annotator never restructures the tree: the tree it returns has the
    kinds and children of the tree it was given, and the same content at
    every node that is not a [for]; only the scope id of the [for] nodes is
    stored. *)
Theorem append_lev_keeps_shape (c : PFcnode_t) (w : world) (c' : PFcnode_t) (w' : world) :
  append_lev E f c w = (Ok c', w') -> same_shape c c'.
Proof. apply append_lev_shaped. Qed.

Lemma fprintf_same_annotation (fmt : string) (args : list printf_arg)
    (w : world) (r : result unit) (w' : world) :
  fprintf E f fmt args w = (r, w') -> same_annotation w w'.
Proof. intros H. inversion H. repeat split. Qed.

(** When the driver returns on a well-formed tree, the scope counter holds
    the number of [for] nodes of the tree, the variable counter the number
    of variables it binds, and the stack of scope ids is empty: the
    translation that follows the annotation does not touch them. *)
Theorem PFprintMILtemp_final_counters (c : PFcnode_t) (w w' : world) :
  wf_core c = true ->
  PFprintMILtemp E f c w = (Ok tt, w') ->
  counter w' FID = count_for c
  /\ counter w' VID = count_binders c
  /\ way w' = [].
Proof.
  intros Hwf H. unfold PFprintMILtemp in H.
  minv.
  repeat match goal with
         | Hp : init _ _ _ = _ |- _ =>
           apply fprintf_same_annotation in Hp; destruct Hp as (_ & ? & ? & _)
         | Hp : print_output _ _ _ = _ |- _ =>
           apply fprintf_same_annotation in Hp; destruct Hp as (_ & ? & ? & _)
         | Hp : fprintf _ _ _ _ _ = _ |- _ =>
           apply fprintf_same_annotation in Hp; destruct Hp as (_ & ? & ? & _)
         end.
  match goal with
  | Ha : append_lev E f c ?w0 = (Ok ?c1, ?w1) |- _ =>
    destruct (append_lev_counted E f c w0 c1 w1 Hwf Ha) as (Hf & Hv & Hw);
    cbn [counter way var_usage files vars log slots] in Hf, Hv, Hw
  end.
  match goal with
  | Ht : translate2MIL E f 0 0 ?c1 ?w1 = (Ok _, ?w2) |- _ =>
    destruct (translate2MIL_same_annotation E f 0 0 c1 w1 _ _ Ht) as (_ & Hkw & Hkc & _)
  end.
  repeat split;
    repeat first
      [ rewrite Hf | rewrite Hv
      | match goal with
        | Heq : counter ?a = _ |- context [counter ?a] => rewrite Heq
        | Heq : way ?a = _ |- context [way ?a] => rewrite Heq
        end ];
    cbn [counter way set_counter set_way upd FID VID ACT_FID Nat.eqb];
    try reflexivity; lia.
Qed.

End ShapeFacts.

(** The annotated tree of [for $v0 in (for $v1 in () return ()) return ()]. *)
Lemma append_lev_keeps_shape_witness :
  same_shape for_in_source
    (Cnode c_for (sem_num 2) (node_var 0%nat) (leaf c_nil sem_none)
       (Cnode c_for (sem_num 1) (node_var 1%nat) (leaf c_nil sem_none)
          node_empty node_empty)
       node_empty).
Proof.
  apply (append_lev_keeps_shape sample_externals (stream 0) for_in_source world0 _
           (snd (append_lev sample_externals (stream 0) for_in_source world0))).
  vm_compute. reflexivity.
Defined.

(** The driver on [for $v0 in () return let $v1 := () return for $v2 in ()
    return $v1]. *)
Lemma PFprintMILtemp_final_counters_witness :
  fst (PFprintMILtemp sample_externals (stream 0) let_inside_for world0) = Ok tt
  /\ counter (snd (PFprintMILtemp sample_externals (stream 0) let_inside_for world0)) FID
     = count_for let_inside_for
  /\ counter (snd (PFprintMILtemp sample_externals (stream 0) let_inside_for world0)) VID
     = count_binders let_inside_for
  /\ way (snd (PFprintMILtemp sample_externals (stream 0) let_inside_for world0)) = [].
Proof.
  assert (Hrun : fst (PFprintMILtemp sample_externals (stream 0) let_inside_for world0)
                 = Ok tt) by (vm_compute; reflexivity).
  split; [exact Hrun |].
  apply (PFprintMILtemp_final_counters sample_externals (stream 0) let_inside_for world0).
  - reflexivity.
  - rewrite <- Hrun. apply surjective_pairing.
Defined.
